(** * BackupX: a shallow embedding of the secure archive pipeline

    The development follows the Python sources of the repository:
    - [backupx.py] and [decypherx.py] (the two command-line tools),
    - [backupxLib/*.py] (archive building and extraction, whole-file AES,
      retention sweep, SSH transfer).

    Python values are modelled as follows.  A [str] is a [string] (its UTF-8
    bytes), [bytes] is [list byte], exceptions are values of [Py.exn] carried
    by an error-and-state monad over the observable world (file system tree,
    working directory, log files, standard output).  The functions of
    [os.path] are modelled on strings after CPython's [posixpath].  The
    file system is a tree of directories and regular files; the ZIP
    extraction is embedded a second time, in [Linked], over a tree with
    symbolic links and the path resolution of POSIX. *)

From Stdlib Require Import List Strings.String Strings.Ascii Strings.Byte Bool Arith ZArith NArith Lia.
From Stdlib Require Import DecimalString Btauto.
Import ListNotations.
Open Scope string_scope.
Open Scope list_scope.

Set Implicit Arguments.

(** String concatenation, kept apart from list concatenation [++]. *)
Infix "+++" := String.append (right associativity, at level 60) : string_scope.

(* ===================================================================== *)
(** * Python exceptions and the effect monad                              *)
(* ===================================================================== *)

Module Py.

(** The classes of [Exception] the sources raise or catch. *)
Inductive exc_class :=
| ValueError | KeyError
| FileNotFoundError | FileExistsError | IsADirectoryError
| NotADirectoryError | PermissionError | OSError
| SSHException | BadArchive | RuntimeError | OverflowError.

(** [SystemExit] and [KeyboardInterrupt] derive from [BaseException] only:
    an [except Exception] clause does not catch them. *)
Inductive exn :=
| SystemExit (code : Z)
| KeyboardInterrupt
| Exception (cls : exc_class) (msg : string).

Definition is_Exception (e : exn) : bool :=
  match e with
  | Exception _ _ => true
  | _ => false
  end.

Definition exc_class_eqb (a b : exc_class) : bool :=
  match a, b with
  | ValueError, ValueError | KeyError, KeyError
  | FileNotFoundError, FileNotFoundError | FileExistsError, FileExistsError
  | IsADirectoryError, IsADirectoryError
  | NotADirectoryError, NotADirectoryError
  | PermissionError, PermissionError | OSError, OSError
  | SSHException, SSHException | BadArchive, BadArchive
  | RuntimeError, RuntimeError | OverflowError, OverflowError => true
  | _, _ => false
  end.

(** [isinstance(e, cls)] for the classes above: the file-system errors are
    subclasses of [OSError]. *)
Definition subclass (c parent : exc_class) : bool :=
  exc_class_eqb c parent ||
  match parent, c with
  | OSError, (FileNotFoundError | FileExistsError | IsADirectoryError
             | NotADirectoryError | PermissionError) => true
  | _, _ => false
  end.

Definition is_instance (e : exn) (classes : list exc_class) : bool :=
  match e with
  | Exception c _ => existsb (subclass c) classes
  | _ => false
  end.

(** [str(error)] *)
Definition str_exn (e : exn) : string :=
  match e with
  | SystemExit c => NilEmpty.string_of_int (Z.to_int c)
  | KeyboardInterrupt => ""
  | Exception _ msg => msg
  end.

Inductive outcome (A : Type) :=
| Ret (a : A)
| Raise (e : exn).
Arguments Ret {A} a.
Arguments Raise {A} e.

Section Monad.
Variable W : Type.

Definition M (A : Type) : Type := W -> outcome A * W.

Definition ret {A} (a : A) : M A := fun w => (Ret a, w).
Definition raise {A} (e : exn) : M A := fun w => (Raise e, w).
Definition bind {A B} (m : M A) (k : A -> M B) : M B :=
  fun w => match m w with
           | (Ret a, w') => k a w'
           | (Raise e, w') => (Raise e, w')
           end.

(** [try: body except <classes matched by handles>: handler] *)
Definition try_except {A} (body : M A) (handles : exn -> bool)
           (handler : exn -> M A) : M A :=
  fun w => match body w with
           | (Ret a, w') => (Ret a, w')
           | (Raise e, w') =>
               if handles e then handler e w' else (Raise e, w')
           end.

(** [try: body finally: cleanup] *)
Definition try_finally {A} (body : M A) (cleanup : M unit) : M A :=
  fun w => match body w with
           | (r, w') =>
               match cleanup w' with
               | (Ret _, w'') => (r, w'')
               | (Raise e, w'') => (Raise e, w'')
               end
           end.

Definition get : M W := fun w => (Ret w, w).
Definition put (w : W) : M unit := fun _ => (Ret tt, w).
Definition modify (f : W -> W) : M unit := fun w => (Ret tt, f w).

(** [for x in xs: body x] *)
Fixpoint for_each {A} (xs : list A) (body : A -> M unit) : M unit :=
  match xs with
  | [] => ret tt
  | x :: xs' => bind (body x) (fun _ => for_each xs' body)
  end.
End Monad.

Arguments ret {W A} a.
Arguments raise {W A} e.
Arguments bind {W A B} m k.
Arguments try_except {W A} body handles handler.
Arguments try_finally {W A} body cleanup.
Arguments get {W}.
Arguments put {W} w.
Arguments modify {W} f.
Arguments for_each {W A} xs body.

(** [sys.exit(code)] *)
Definition sys_exit {W A} (code : Z) : M W A := raise (SystemExit code).

(** A computation without effect on the world. *)
Definition lift {W A} (o : outcome A) : M W A := fun w => (o, w).

(** [str(n)] for a non-negative integer. *)
Definition str_nat (n : nat) : string := NilEmpty.string_of_uint (Nat.to_uint n).

End Py.

Declare Scope py_scope.
Delimit Scope py_scope with py.
Notation "x <- m ;; k" := (Py.bind m (fun x => k))
  (at level 61, m at next level, right associativity) : py_scope.
Notation "m ;; k" := (Py.bind m (fun _ => k))
  (at level 61, right associativity) : py_scope.

(* ===================================================================== *)
(** * [os.path] on POSIX (CPython's [posixpath] and [genericpath])        *)
(* ===================================================================== *)

Module PosixPath.

Definition sep : ascii := "/"%char.

(** [s.split(c)] for a one-character separator [c]. *)
Fixpoint split (c : ascii) (s : string) : list string :=
  match s with
  | EmptyString => [EmptyString]
  | String a s' =>
      if Ascii.eqb a c then EmptyString :: split c s'
      else match split c s' with
           | [] => [String a EmptyString]
           | h :: t => String a h :: t
           end
  end.

(** [c in s] for a character [c]. *)
Fixpoint contains (c : ascii) (s : string) : bool :=
  match s with
  | EmptyString => false
  | String a s' => Ascii.eqb a c || contains c s'
  end.

(** [s.rstrip(c)] *)
Fixpoint rstrip (c : ascii) (s : string) : string :=
  match s with
  | EmptyString => EmptyString
  | String a s' =>
      let r := rstrip c s' in
      if (r =? "") && Ascii.eqb a c then EmptyString else String a r
  end.

(** Cut [s] at the last occurrence of [c]: [(s[:i], s[i+1:])] with
    [i = s.rfind(c)], or [None] when [c] does not occur. *)
Fixpoint rsplit1 (c : ascii) (s : string) : option (string * string) :=
  match s with
  | EmptyString => None
  | String a s' =>
      match rsplit1 c s' with
      | Some (h, t) => Some (String a h, t)
      | None => if Ascii.eqb a c then Some (EmptyString, s') else None
      end
  end.

Definition startswith_sep (s : string) : bool :=
  match s with
  | String a _ => Ascii.eqb a sep
  | EmptyString => false
  end.

Fixpoint endswith_sep (s : string) : bool :=
  match s with
  | EmptyString => false
  | String a EmptyString => Ascii.eqb a sep
  | String _ s' => endswith_sep s'
  end.

Definition isabs (s : string) : bool := startswith_sep s.

(** [os.path.join(a, b)] *)
Definition join (a b : string) : string :=
  if startswith_sep b then b
  else if (a =? "") || endswith_sep a then a +++ b
  else a +++ "/" +++ b.

(** [os.path.join] applied to all of [comps], a non-empty list. *)
Definition join_all (comps : list string) : string :=
  match comps with
  | [] => ""
  | c :: cs => fold_left join cs c
  end.

(** POSIX allows one or two initial slashes, three or more count as one. *)
Definition initial_slashes (path : string) : nat :=
  if negb (startswith_sep path) then 0
  else if prefix "//" path && negb (prefix "///" path) then 2
  else 1.

(** One iteration of the component loop of [normpath]; [stack] holds
    [new_comps] in reverse (its head is [new_comps[-1]]). *)
Definition norm_step (rooted : bool) (stack : list string) (comp : string)
  : list string :=
  if (comp =? "") || (comp =? ".") then stack
  else
    match stack with
    | [] => if negb (comp =? "..") || negb rooted then comp :: stack else stack
    | top :: rest =>
        if negb (comp =? "..") || (top =? "..") then comp :: stack else rest
    end.

Definition norm_comps (rooted : bool) (comps : list string) : list string :=
  rev (fold_left (norm_step rooted) comps []).

Fixpoint slashes (n : nat) : string :=
  match n with
  | O => ""
  | S n' => String sep (slashes n')
  end.

(** [os.path.normpath(path)] *)
Definition normpath (path : string) : string :=
  if path =? "" then "."
  else
    let init := initial_slashes path in
    let comps := norm_comps (negb (Nat.eqb init 0)) (split sep path) in
    let p := slashes init +++ concat "/" comps in
    if p =? "" then "." else p.

(** [os.path.abspath(path)] with [os.getcwd() = cwd]. *)
Definition abspath (cwd path : string) : string :=
  normpath (if isabs path then path else join cwd path).

(** [os.path.basename(p)] *)
Definition basename (p : string) : string :=
  match rsplit1 sep p with
  | Some (_, t) => t
  | None => p
  end.

Fixpoint all_sep (s : string) : bool :=
  match s with
  | EmptyString => true
  | String a s' => Ascii.eqb a sep && all_sep s'
  end.

(** [os.path.dirname(p)] *)
Definition dirname (p : string) : string :=
  match rsplit1 sep p with
  | None => ""
  | Some (h, _) =>
      let head := h +++ "/" in
      if all_sep head then head else rstrip sep head
  end.

Fixpoint all_dots (s : string) : bool :=
  match s with
  | EmptyString => true
  | String a s' => Ascii.eqb a "."%char && all_dots s'
  end.

(** [os.path.splitext(p)]: the extension starts at the last dot of the
    last component, unless only dots precede it there. *)
Definition splitext (p : string) : string * string :=
  let '(d, base) :=
    match rsplit1 sep p with
    | Some (h, t) => (h +++ "/", t)
    | None => ("", p)
    end in
  match rsplit1 "."%char base with
  | Some (stem, e) =>
      if all_dots stem then (p, "") else (d +++ stem, String "."%char e)
  | None => (p, "")
  end.

(** The components [commonpath] and [relpath] compare:
    [[c for c in path.split(sep) if c and c != curdir]]. *)
Definition components (path : string) : list string :=
  filter (fun c => negb ((c =? "") || (c =? "."))) (split sep path).

Fixpoint common_prefix (a b : list string) : list string :=
  match a, b with
  | x :: a', y :: b' => if x =? y then x :: common_prefix a' b' else []
  | _, _ => []
  end.

(** [os.path.commonpath(paths)]: the longest common sub-path, by
    components; [ValueError] on an empty sequence or when absolute and
    relative paths are mixed. *)
Definition commonpath (paths : list string) : Py.outcome string :=
  match paths with
  | [] => Py.Raise (Py.Exception Py.ValueError "commonpath() arg is an empty sequence")
  | p :: ps =>
      if forallb (fun q => Bool.eqb (isabs q) (isabs p)) ps then
        let common :=
          fold_left (fun acc q => common_prefix acc (components q)) ps
                    (components p) in
        Py.Ret ((if isabs p then "/" else "") +++ concat "/" common)
      else Py.Raise (Py.Exception Py.ValueError "Can't mix absolute and relative paths")
  end.

(** [os.path.relpath(path, start)] with [os.getcwd() = cwd]. *)
Definition relpath (cwd path start : string) : Py.outcome string :=
  if path =? "" then Py.Raise (Py.Exception Py.ValueError "no path specified")
  else
    let nonempty := filter (fun c => negb (c =? "")) in
    let start_list := nonempty (split sep (abspath cwd start)) in
    let path_list := nonempty (split sep (abspath cwd path)) in
    let i := List.length (common_prefix start_list path_list) in
    let rel_list :=
      repeat ".." (List.length start_list - i) ++ skipn i path_list in
    match rel_list with
    | [] => Py.Ret "."
    | _ => Py.Ret (join_all rel_list)
    end.

(** What [components] keeps of a path has no [/] and is not empty. *)
Definition is_component (c : string) : bool :=
  negb (c =? "") && negb (contains sep c).

(** A directory entry's name: not empty, not [.] or [..], without [/]. *)
Definition valid_name (c : string) : bool :=
  negb (c =? "") && negb (c =? ".") && negb (c =? "..")
  && negb (contains sep c).

(** The absolute path, in normal form, with the given components. *)
Definition abs_of (comps : list string) : string :=
  "/" +++ concat "/" comps.

(** The relative path, in normal form, with the given components. *)
Definition rel_of (comps : list string) : string := concat "/" comps.

Definition valid_names (comps : list string) : Prop :=
  Forall (fun c => valid_name c = true) comps.

(** [s.endswith(suffix)] *)
Definition endswith (s suffix : string) : bool :=
  let n := String.length s in
  let k := String.length suffix in
  (k <=? n)%nat && (substring (n - k) k s =? suffix).

End PosixPath.

(* ===================================================================== *)
(** * The file system: a tree of directories and regular files            *)
(* ===================================================================== *)

Module Fs.

Definition bytes := list byte.

(** A directory keeps its entries in listing order (the order in which
    [os.listdir] and [os.walk] report them).  There are no symbolic links:
    a path names the node its normalised components lead to. *)
#[warnings="-register-all"]
Inductive node :=
| File (data : bytes)
| Dir (entries : list (string * node)).

Fixpoint find_entry (name : string) (es : list (string * node)) : option node :=
  match es with
  | [] => None
  | (k, n) :: es' => if k =? name then Some n else find_entry name es'
  end.

(** Replace the entry called [name], or add it at the end. *)
Fixpoint set_entry (name : string) (new : node) (es : list (string * node))
  : list (string * node) :=
  match es with
  | [] => [(name, new)]
  | (k, n) :: es' =>
      if k =? name then (k, new) :: es' else (k, n) :: set_entry name new es'
  end.

Fixpoint del_entry (name : string) (es : list (string * node))
  : list (string * node) :=
  match es with
  | [] => []
  | (k, n) :: es' => if k =? name then es' else (k, n) :: del_entry name es'
  end.

Fixpoint lookup (p : list string) (n : node) : option node :=
  match p with
  | [] => Some n
  | c :: p' =>
      match n with
      | File _ => None
      | Dir es =>
          match find_entry c es with
          | Some child => lookup p' child
          | None => None
          end
      end
  end.

(** Put [new] at [p]; the parent of [p] has to be a directory. *)
Fixpoint place (p : list string) (new : node) (n : node) : option node :=
  match p with
  | [] => Some new
  | c :: p' =>
      match n with
      | File _ => None
      | Dir es =>
          match find_entry c es with
          | Some child =>
              match place p' new child with
              | Some child' => Some (Dir (set_entry c child' es))
              | None => None
              end
          | None =>
              match p' with
              | [] => Some (Dir (set_entry c new es))
              | _ :: _ => None
              end
          end
      end
  end.

(** Remove the node at [p] (with everything below it). *)
Fixpoint unlink (p : list string) (n : node) : option node :=
  match p with
  | [] => None
  | c :: p' =>
      match n with
      | File _ => None
      | Dir es =>
          match find_entry c es with
          | None => None
          | Some child =>
              match p' with
              | [] => Some (Dir (del_entry c es))
              | _ :: _ =>
                  match unlink p' child with
                  | Some child' => Some (Dir (set_entry c child' es))
                  | None => None
                  end
              end
          end
      end
  end.

(** Create the directory [p] and every missing ancestor; [None] when a
    regular file is in the way. *)
Fixpoint mkdirs (p : list string) (n : node) : option node :=
  match n with
  | File _ => None
  | Dir es =>
      match p with
      | [] => Some n
      | c :: p' =>
          let child :=
            match find_entry c es with
            | Some child => child
            | None => Dir []
            end in
          match mkdirs p' child with
          | Some child' => Some (Dir (set_entry c child' es))
          | None => None
          end
      end
  end.

Definition is_file (n : option node) : bool :=
  match n with Some (File _) => true | _ => false end.

Definition is_dir (n : option node) : bool :=
  match n with Some (Dir _) => true | _ => false end.

Definition is_some (n : option node) : bool :=
  match n with Some _ => true | None => false end.

(** [q] starts with [p]. *)
Fixpoint is_prefix (p q : list string) : bool :=
  match p, q with
  | [], _ => true
  | x :: p', y :: q' => (x =? y) && is_prefix p' q'
  | _ :: _, [] => false
  end.

End Fs.

(** The observable world of one run.  What the run appends to its two log
    files is kept apart from the tree, as the lists of the records: in
    [tree] the files [logs/errors.log] and [logs/info.log] stand with what
    they held before the run, and a record added to [errors_log] or
    [info_log] is a line added to the file. *)
Record world := mkWorld {
  tree : Fs.node;                 (** the root directory *)
  cwd : string;                   (** [os.getcwd()] *)
  errors_log : list string;       (** records [error_logger] appended to
                                      [logs/errors.log], oldest first *)
  info_log : list string;         (** records [info_logger] appended to
                                      [logs/info.log], oldest first *)
  stdout : list string;           (** lines printed, oldest first *)
  clock : Z;                      (** [datetime.now()], in microseconds *)
  sleeps : list Z;                (** arguments of [time.sleep], oldest first *)
  entropy : nat -> byte;          (** the bytes [os.urandom] will deliver *)
  drawn : nat;                    (** how many of them were delivered *)
  ssh_server : nat -> option string;
    (** what the n-th SSH connection attempt meets: [None] when the server
        accepts it, [Some msg] when paramiko raises an exception [msg] *)
  ssh_calls : nat                 (** connection attempts made so far *)
}.

Definition set_tree (t : Fs.node) (w : world) : world :=
  mkWorld t (cwd w) (errors_log w) (info_log w) (stdout w) (clock w)
          (sleeps w) (entropy w) (drawn w) (ssh_server w) (ssh_calls w).
Definition set_cwd (d : string) (w : world) : world :=
  mkWorld (tree w) d (errors_log w) (info_log w) (stdout w) (clock w)
          (sleeps w) (entropy w) (drawn w) (ssh_server w) (ssh_calls w).
Definition set_errors_log (l : list string) (w : world) : world :=
  mkWorld (tree w) (cwd w) l (info_log w) (stdout w) (clock w)
          (sleeps w) (entropy w) (drawn w) (ssh_server w) (ssh_calls w).
Definition set_info_log (l : list string) (w : world) : world :=
  mkWorld (tree w) (cwd w) (errors_log w) l (stdout w) (clock w)
          (sleeps w) (entropy w) (drawn w) (ssh_server w) (ssh_calls w).
Definition set_stdout (l : list string) (w : world) : world :=
  mkWorld (tree w) (cwd w) (errors_log w) (info_log w) l (clock w)
          (sleeps w) (entropy w) (drawn w) (ssh_server w) (ssh_calls w).
Definition set_sleeps (l : list Z) (w : world) : world :=
  mkWorld (tree w) (cwd w) (errors_log w) (info_log w) (stdout w) (clock w)
          l (entropy w) (drawn w) (ssh_server w) (ssh_calls w).
Definition set_drawn (n : nat) (w : world) : world :=
  mkWorld (tree w) (cwd w) (errors_log w) (info_log w) (stdout w) (clock w)
          (sleeps w) (entropy w) n (ssh_server w) (ssh_calls w).
Definition set_ssh_calls (n : nat) (w : world) : world :=
  mkWorld (tree w) (cwd w) (errors_log w) (info_log w) (stdout w) (clock w)
          (sleeps w) (entropy w) (drawn w) (ssh_server w) n.

Definition IO (A : Type) : Type := Py.M world A.

(** Logging, printing, and the other services of the run-time. *)
Module Log.
Open Scope py_scope.

(** [error_logger.error(msg)]: one more record in [logs/errors.log]. *)
Definition error (msg : string) : IO unit :=
  Py.modify (fun w => set_errors_log (errors_log w ++ [msg]) w).

(** [info_logger.info(msg)]: one more record in [logs/info.log]. *)
Definition info (msg : string) : IO unit :=
  Py.modify (fun w => set_info_log (info_log w ++ [msg]) w).

(** [print(line)] *)
Definition print (line : string) : IO unit :=
  Py.modify (fun w => set_stdout (stdout w ++ [line]) w).
End Log.

(* ===================================================================== *)
(** * The [os] calls the sources make                                     *)
(* ===================================================================== *)

Module Os.
Import Fs.
Open Scope py_scope.

(** The node a path string names: the components of its absolute,
    normalised form.  The empty path names nothing. *)
Definition resolve (w : world) (path : string) : option (list string) :=
  if path =? "" then None
  else Some (PosixPath.components (PosixPath.abspath (cwd w) path)).

Definition stat (w : world) (path : string) : option node :=
  match resolve w path with
  | Some p => lookup p (tree w)
  | None => None
  end.

Definition path_exists (path : string) : IO bool :=
  w <- Py.get ;; Py.ret (is_some (stat w path)).
Definition path_isfile (path : string) : IO bool :=
  w <- Py.get ;; Py.ret (is_file (stat w path)).
Definition path_isdir (path : string) : IO bool :=
  w <- Py.get ;; Py.ret (is_dir (stat w path)).

Definition os_error {A} (cls : Py.exc_class) (path : string) : IO A :=
  Py.raise (Py.Exception cls path).

(** [os.makedirs(path, exist_ok=True)] on this tree: the directories
    made are the components of the absolute, normalised form of the
    path.  That is what the call does for a path without [..]; a path
    with [..] in it is taken by its normal form here, while
    [Linked.Os.makedirs] walks a path as it is written. *)
Definition makedirs (path : string) : IO unit :=
  w <- Py.get ;;
  match resolve w path with
  | None => os_error Py.FileNotFoundError path
  | Some p =>
      match mkdirs p (tree w) with
      | Some t => Py.put (set_tree t w)
      | None =>
          if is_file (lookup p (tree w))
          then os_error Py.FileExistsError path
          else os_error Py.NotADirectoryError path
      end
  end.

(** [with open(path, 'rb') as f: f.read()] *)
Definition read_bytes (path : string) : IO bytes :=
  w <- Py.get ;;
  match stat w path with
  | Some (File data) => Py.ret data
  | Some (Dir _) => os_error Py.IsADirectoryError path
  | None => os_error Py.FileNotFoundError path
  end.

(** [with open(path, 'wb') as f: f.write(data)] *)
Definition write_bytes (path : string) (data : bytes) : IO unit :=
  w <- Py.get ;;
  match resolve w path with
  | None => os_error Py.FileNotFoundError path
  | Some p =>
      match lookup p (tree w) with
      | Some (Dir _) => os_error Py.IsADirectoryError path
      | _ =>
          match p, place p (File data) (tree w) with
          | _ :: _, Some t => Py.put (set_tree t w)
          | _, _ =>
              if is_file (lookup (removelast p) (tree w))
              then os_error Py.NotADirectoryError path
              else os_error Py.FileNotFoundError path
          end
      end
  end.

(** [os.remove(path)] *)
Definition remove (path : string) : IO unit :=
  w <- Py.get ;;
  match resolve w path with
  | None => os_error Py.FileNotFoundError path
  | Some p =>
      match lookup p (tree w) with
      | Some (File _) =>
          match unlink p (tree w) with
          | Some t => Py.put (set_tree t w)
          | None => os_error Py.FileNotFoundError path
          end
      | Some (Dir _) => os_error Py.IsADirectoryError path
      | None => os_error Py.FileNotFoundError path
      end
  end.

(** [os.rename(src, dst)] on POSIX: an existing [dst] is replaced when it
    is a regular file (and [src] is one) or an empty directory (and [src]
    is a directory); a directory cannot be moved below itself. *)
Definition rename (src dst : string) : IO unit :=
  w <- Py.get ;;
  match resolve w src, resolve w dst with
  | Some s, Some d =>
      match lookup s (tree w) with
      | None => os_error Py.FileNotFoundError src
      | Some n =>
          if list_eq_dec string_dec s d then Py.ret tt
          else if is_prefix s d then os_error Py.OSError dst
          else
            let replaceable :=
              match lookup d (tree w), n with
              | None, _ => true
              | Some (File _), File _ => true
              | Some (Dir []), Dir _ => true
              | _, _ => false
              end in
            if negb replaceable then os_error Py.OSError dst
            else
              match unlink s (tree w) with
              | None => os_error Py.OSError src
              | Some t =>
                  match d, place d n t with
                  | _ :: _, Some t' => Py.put (set_tree t' w)
                  | _, _ => os_error Py.FileNotFoundError dst
                  end
              end
      end
  | _, _ => os_error Py.FileNotFoundError src
  end.

(** [os.listdir(path)] *)
Definition listdir (path : string) : IO (list string) :=
  w <- Py.get ;;
  match stat w path with
  | Some (Dir es) => Py.ret (map fst es)
  | Some (File _) => os_error Py.NotADirectoryError path
  | None => os_error Py.FileNotFoundError path
  end.

(** [os.chdir(path)] *)
Definition chdir (path : string) : IO unit :=
  w <- Py.get ;;
  match stat w path with
  | Some (Dir _) => Py.put (set_cwd (PosixPath.abspath (cwd w) path) w)
  | Some (File _) => os_error Py.NotADirectoryError path
  | None => os_error Py.FileNotFoundError path
  end.

(** [os.walk(top)] over the directory [n] found at [top], top-down: one
    triple [(root, dirs, files)] per directory. *)
Fixpoint walk_node (top : string) (n : node) {struct n}
  : list (string * list string * list string) :=
  match n with
  | File _ => []
  | Dir es =>
      let dirs := map fst (filter (fun e => is_dir (Some (snd e))) es) in
      let files := map fst (filter (fun e => is_file (Some (snd e))) es) in
      (top, dirs, files) ::
      (fix walk_entries (es : list (string * node)) :=
         match es with
         | [] => []
         | (name, child) :: es' =>
             match child with
             | Dir _ => walk_node (PosixPath.join top name) child
             | File _ => []
             end ++ walk_entries es'
         end) es
  end.

(** [list(os.walk(top))]; a [top] that is not a directory yields nothing. *)
Definition walk (top : string) : IO (list (string * list string * list string)) :=
  w <- Py.get ;;
  match stat w top with
  | Some (Dir es) => Py.ret (walk_node top (Dir es))
  | _ => Py.ret []
  end.

End Os.

(* ===================================================================== *)
(** * [backupxLib/SSHBackupManager.py]                                    *)
(* ===================================================================== *)

Module SSHBackupManager.
Open Scope py_scope.

(** A connected [paramiko.SSHClient]. *)
Record ssh_client := mkClient {
  client_host : string;
  client_port : Z;
  client_user : string
}.

(** The body of the [try] of [create_ssh_client] up to [client.connect]:
    building the client, loading the private key and connecting.  Whatever
    paramiko raises there is an [Exception]. *)
Definition paramiko_connect (hostname : string) (port : Z)
           (username key_file : string) : IO ssh_client :=
  w <- Py.get ;;
  Py.put (set_ssh_calls (S (ssh_calls w)) w) ;;
  match ssh_server w (ssh_calls w) with
  | None => Py.ret (mkClient hostname port username)
  | Some msg => Py.raise (Py.Exception Py.SSHException msg)
  end.

Definition create_ssh_client (hostname : string) (port : Z)
           (username key_file : string) : IO ssh_client :=
  Py.try_except
    (client <- paramiko_connect hostname port username key_file ;;
     Log.info ("SSH connection established with " +++ hostname) ;;
     Py.ret client)
    Py.is_Exception
    (fun error =>
       Log.error ("SSH connection failed: " +++ Py.str_exn error) ;;
       Py.sys_exit 1).

End SSHBackupManager.


(* ===================================================================== *)
(** * The primitives behind [hashlib.sha256], [Crypto.Cipher.AES] in CBC
      mode and [Crypto.Util.Padding]                                      *)
(* ===================================================================== *)

Module Crypto.
Import Fs.

(** Cut a list into pieces of [n] elements (the last one may be shorter). *)
Fixpoint chunks_fuel {A} (fuel n : nat) (l : list A) : list (list A) :=
  match fuel with
  | O => []
  | S fuel' =>
      match l with
      | [] => []
      | _ :: _ => firstn n l :: chunks_fuel fuel' n (skipn n l)
      end
  end.

Definition chunks {A} (n : nat) (l : list A) : list (list A) :=
  chunks_fuel (List.length l) n l.

Definition byte_of_N (n : N) : byte :=
  match Byte.of_N (N.land n 0xff) with
  | Some b => b
  | None => x00
  end.

(** ** SHA-256 (FIPS 180-4) on 32-bit words held in [N] *)

Definition w32 (x : N) : N := N.land x 0xffffffff.
Definition add32 (a b : N) : N := w32 (a + b).
Definition rotr (n x : N) : N :=
  w32 (N.lor (N.shiftr x n) (N.shiftl x (32 - n))).
Definition Ch (x y z : N) : N :=
  N.lxor (N.land x y) (N.land (N.lxor x 0xffffffff) z).
Definition Maj (x y z : N) : N :=
  N.lxor (N.lxor (N.land x y) (N.land x z)) (N.land y z).
Definition bsig0 (x : N) : N := N.lxor (N.lxor (rotr 2 x) (rotr 13 x)) (rotr 22 x).
Definition bsig1 (x : N) : N := N.lxor (N.lxor (rotr 6 x) (rotr 11 x)) (rotr 25 x).
Definition ssig0 (x : N) : N := N.lxor (N.lxor (rotr 7 x) (rotr 18 x)) (N.shiftr x 3).
Definition ssig1 (x : N) : N := N.lxor (N.lxor (rotr 17 x) (rotr 19 x)) (N.shiftr x 10).

(** The constants of FIPS 180-4 are the first 32 bits of the fractional
    parts of the cube roots (for [K256]) and of the square roots (for
    [H256]) of the first primes. *)
Definition is_prime (n : nat) : bool :=
  (2 <=? n)%nat && forallb (fun d => negb (n mod d =? 0)%nat) (seq 2 (n - 2)).

Definition primes_below (n : nat) : list N :=
  map N.of_nat (filter is_prime (seq 0 n)).

(** The integer cube root, built from its top bit down. *)
Fixpoint icbrt_bits (bits : nat) (n r : N) : N :=
  match bits with
  | O => r
  | S b =>
      let r' := N.lor r (N.shiftl 1 (N.of_nat b)) in
      icbrt_bits b n (if (r' * r' * r' <=? n)%N then r' else r)
  end.

Definition K256 : list N :=
  Eval vm_compute in
    map (fun p => w32 (icbrt_bits 40 (N.shiftl p 96) 0)) (primes_below 312).

Definition H256 : list N :=
  Eval vm_compute in
    map (fun p => w32 (N.sqrt (N.shiftl p 64))) (primes_below 20).

(** Big-endian conversions. *)
Definition word_of_bytes (bs : list byte) : N :=
  fold_left (fun acc b => N.lor (N.shiftl acc 8) (Byte.to_N b)) bs 0%N.

Definition bytes_of_word (nbytes : nat) (x : N) : list byte :=
  map (fun i => byte_of_N (N.shiftr x (8 * N.of_nat (nbytes - 1 - i))))
      (seq 0 nbytes).

(** The message schedule, newest word first: [rev_w] holds
    [W[t-1]; W[t-2]; ...]. *)
Fixpoint schedule (n : nat) (rev_w : list N) : list N :=
  match n with
  | O => rev_w
  | S n' =>
      let w :=
        add32 (add32 (ssig1 (nth 1 rev_w 0%N)) (nth 6 rev_w 0%N))
              (add32 (ssig0 (nth 14 rev_w 0%N)) (nth 15 rev_w 0%N)) in
      schedule n' (w :: rev_w)
  end.

Definition sha_round (st : list N) (kw : N * N) : list N :=
  match st with
  | [a; b; c; d; e; f; g; h] =>
      let t1 := add32 (add32 (add32 h (bsig1 e)) (add32 (Ch e f g) (fst kw)))
                      (snd kw) in
      let t2 := add32 (bsig0 a) (Maj a b c) in
      [add32 t1 t2; a; b; c; add32 d t1; e; f; g]
  | _ => st
  end.

Definition sha_block (h : list N) (block : list byte) : list N :=
  let w16 := map word_of_bytes (chunks 4 block) in
  let w := rev (schedule 48 (rev w16)) in
  let st := fold_left sha_round (combine K256 w) h in
  map (fun p => add32 (fst p) (snd p)) (combine h st).

Definition sha_pad (msg : list byte) : list byte :=
  let len := List.length msg in
  let zeros := (119 - len mod 64) mod 64 in
  msg ++ [x80] ++ repeat x00 zeros
      ++ bytes_of_word 8 (8 * N.of_nat len).

(** [hashlib.sha256(msg).digest()] *)
Definition sha256 (msg : list byte) : list byte :=
  let h := fold_left sha_block (chunks 64 (sha_pad msg)) H256 in
  List.concat (map (bytes_of_word 4) h).

(** ** AES-256 (FIPS 197) *)

Definition bxor (a b : byte) : byte :=
  let '(a0, (a1, (a2, (a3, (a4, (a5, (a6, a7))))))) := Byte.to_bits a in
  let '(b0, (b1, (b2, (b3, (b4, (b5, (b6, b7))))))) := Byte.to_bits b in
  Byte.of_bits (xorb a0 b0, (xorb a1 b1, (xorb a2 b2, (xorb a3 b3,
               (xorb a4 b4, (xorb a5 b5, (xorb a6 b6, xorb a7 b7))))))).

(** Multiplication by [x] in GF(2^8) modulo [x^8 + x^4 + x^3 + x + 1]. *)
Definition xtime (a : byte) : byte :=
  let '(a0, (a1, (a2, (a3, (a4, (a5, (a6, a7))))))) := Byte.to_bits a in
  Byte.of_bits (a7, (xorb a0 a7, (a1, (xorb a2 a7,
               (xorb a3 a7, (a4, (a5, a6))))))).

Definition mul2 (a : byte) : byte := xtime a.
Definition mul3 (a : byte) : byte := bxor (xtime a) a.
Definition mul4 (a : byte) : byte := xtime (xtime a).
Definition mul8 (a : byte) : byte := xtime (mul4 a).
Definition mul9 (a : byte) : byte := bxor (mul8 a) a.
Definition mul11 (a : byte) : byte := bxor (bxor (mul8 a) (mul2 a)) a.
Definition mul13 (a : byte) : byte := bxor (bxor (mul8 a) (mul4 a)) a.
Definition mul14 (a : byte) : byte := bxor (bxor (mul8 a) (mul4 a)) (mul2 a).

(** The AES S-box (FIPS 197, figure 7). *)
Definition sbox (b : byte) : byte :=
  match b with
  | x00 => x63 | x01 => x7c | x02 => x77 | x03 => x7b | x04 => xf2 | x05 => x6b | x06 => x6f | x07 => xc5
  | x08 => x30 | x09 => x01 | x0a => x67 | x0b => x2b | x0c => xfe | x0d => xd7 | x0e => xab | x0f => x76
  | x10 => xca | x11 => x82 | x12 => xc9 | x13 => x7d | x14 => xfa | x15 => x59 | x16 => x47 | x17 => xf0
  | x18 => xad | x19 => xd4 | x1a => xa2 | x1b => xaf | x1c => x9c | x1d => xa4 | x1e => x72 | x1f => xc0
  | x20 => xb7 | x21 => xfd | x22 => x93 | x23 => x26 | x24 => x36 | x25 => x3f | x26 => xf7 | x27 => xcc
  | x28 => x34 | x29 => xa5 | x2a => xe5 | x2b => xf1 | x2c => x71 | x2d => xd8 | x2e => x31 | x2f => x15
  | x30 => x04 | x31 => xc7 | x32 => x23 | x33 => xc3 | x34 => x18 | x35 => x96 | x36 => x05 | x37 => x9a
  | x38 => x07 | x39 => x12 | x3a => x80 | x3b => xe2 | x3c => xeb | x3d => x27 | x3e => xb2 | x3f => x75
  | x40 => x09 | x41 => x83 | x42 => x2c | x43 => x1a | x44 => x1b | x45 => x6e | x46 => x5a | x47 => xa0
  | x48 => x52 | x49 => x3b | x4a => xd6 | x4b => xb3 | x4c => x29 | x4d => xe3 | x4e => x2f | x4f => x84
  | x50 => x53 | x51 => xd1 | x52 => x00 | x53 => xed | x54 => x20 | x55 => xfc | x56 => xb1 | x57 => x5b
  | x58 => x6a | x59 => xcb | x5a => xbe | x5b => x39 | x5c => x4a | x5d => x4c | x5e => x58 | x5f => xcf
  | x60 => xd0 | x61 => xef | x62 => xaa | x63 => xfb | x64 => x43 | x65 => x4d | x66 => x33 | x67 => x85
  | x68 => x45 | x69 => xf9 | x6a => x02 | x6b => x7f | x6c => x50 | x6d => x3c | x6e => x9f | x6f => xa8
  | x70 => x51 | x71 => xa3 | x72 => x40 | x73 => x8f | x74 => x92 | x75 => x9d | x76 => x38 | x77 => xf5
  | x78 => xbc | x79 => xb6 | x7a => xda | x7b => x21 | x7c => x10 | x7d => xff | x7e => xf3 | x7f => xd2
  | x80 => xcd | x81 => x0c | x82 => x13 | x83 => xec | x84 => x5f | x85 => x97 | x86 => x44 | x87 => x17
  | x88 => xc4 | x89 => xa7 | x8a => x7e | x8b => x3d | x8c => x64 | x8d => x5d | x8e => x19 | x8f => x73
  | x90 => x60 | x91 => x81 | x92 => x4f | x93 => xdc | x94 => x22 | x95 => x2a | x96 => x90 | x97 => x88
  | x98 => x46 | x99 => xee | x9a => xb8 | x9b => x14 | x9c => xde | x9d => x5e | x9e => x0b | x9f => xdb
  | xa0 => xe0 | xa1 => x32 | xa2 => x3a | xa3 => x0a | xa4 => x49 | xa5 => x06 | xa6 => x24 | xa7 => x5c
  | xa8 => xc2 | xa9 => xd3 | xaa => xac | xab => x62 | xac => x91 | xad => x95 | xae => xe4 | xaf => x79
  | xb0 => xe7 | xb1 => xc8 | xb2 => x37 | xb3 => x6d | xb4 => x8d | xb5 => xd5 | xb6 => x4e | xb7 => xa9
  | xb8 => x6c | xb9 => x56 | xba => xf4 | xbb => xea | xbc => x65 | xbd => x7a | xbe => xae | xbf => x08
  | xc0 => xba | xc1 => x78 | xc2 => x25 | xc3 => x2e | xc4 => x1c | xc5 => xa6 | xc6 => xb4 | xc7 => xc6
  | xc8 => xe8 | xc9 => xdd | xca => x74 | xcb => x1f | xcc => x4b | xcd => xbd | xce => x8b | xcf => x8a
  | xd0 => x70 | xd1 => x3e | xd2 => xb5 | xd3 => x66 | xd4 => x48 | xd5 => x03 | xd6 => xf6 | xd7 => x0e
  | xd8 => x61 | xd9 => x35 | xda => x57 | xdb => xb9 | xdc => x86 | xdd => xc1 | xde => x1d | xdf => x9e
  | xe0 => xe1 | xe1 => xf8 | xe2 => x98 | xe3 => x11 | xe4 => x69 | xe5 => xd9 | xe6 => x8e | xe7 => x94
  | xe8 => x9b | xe9 => x1e | xea => x87 | xeb => xe9 | xec => xce | xed => x55 | xee => x28 | xef => xdf
  | xf0 => x8c | xf1 => xa1 | xf2 => x89 | xf3 => x0d | xf4 => xbf | xf5 => xe6 | xf6 => x42 | xf7 => x68
  | xf8 => x41 | xf9 => x99 | xfa => x2d | xfb => x0f | xfc => xb0 | xfd => x54 | xfe => xbb | xff => x16
  end.

(** The inverse S-box (FIPS 197, figure 14). *)
Definition inv_sbox (b : byte) : byte :=
  match b with
  | x00 => x52 | x01 => x09 | x02 => x6a | x03 => xd5 | x04 => x30 | x05 => x36 | x06 => xa5 | x07 => x38
  | x08 => xbf | x09 => x40 | x0a => xa3 | x0b => x9e | x0c => x81 | x0d => xf3 | x0e => xd7 | x0f => xfb
  | x10 => x7c | x11 => xe3 | x12 => x39 | x13 => x82 | x14 => x9b | x15 => x2f | x16 => xff | x17 => x87
  | x18 => x34 | x19 => x8e | x1a => x43 | x1b => x44 | x1c => xc4 | x1d => xde | x1e => xe9 | x1f => xcb
  | x20 => x54 | x21 => x7b | x22 => x94 | x23 => x32 | x24 => xa6 | x25 => xc2 | x26 => x23 | x27 => x3d
  | x28 => xee | x29 => x4c | x2a => x95 | x2b => x0b | x2c => x42 | x2d => xfa | x2e => xc3 | x2f => x4e
  | x30 => x08 | x31 => x2e | x32 => xa1 | x33 => x66 | x34 => x28 | x35 => xd9 | x36 => x24 | x37 => xb2
  | x38 => x76 | x39 => x5b | x3a => xa2 | x3b => x49 | x3c => x6d | x3d => x8b | x3e => xd1 | x3f => x25
  | x40 => x72 | x41 => xf8 | x42 => xf6 | x43 => x64 | x44 => x86 | x45 => x68 | x46 => x98 | x47 => x16
  | x48 => xd4 | x49 => xa4 | x4a => x5c | x4b => xcc | x4c => x5d | x4d => x65 | x4e => xb6 | x4f => x92
  | x50 => x6c | x51 => x70 | x52 => x48 | x53 => x50 | x54 => xfd | x55 => xed | x56 => xb9 | x57 => xda
  | x58 => x5e | x59 => x15 | x5a => x46 | x5b => x57 | x5c => xa7 | x5d => x8d | x5e => x9d | x5f => x84
  | x60 => x90 | x61 => xd8 | x62 => xab | x63 => x00 | x64 => x8c | x65 => xbc | x66 => xd3 | x67 => x0a
  | x68 => xf7 | x69 => xe4 | x6a => x58 | x6b => x05 | x6c => xb8 | x6d => xb3 | x6e => x45 | x6f => x06
  | x70 => xd0 | x71 => x2c | x72 => x1e | x73 => x8f | x74 => xca | x75 => x3f | x76 => x0f | x77 => x02
  | x78 => xc1 | x79 => xaf | x7a => xbd | x7b => x03 | x7c => x01 | x7d => x13 | x7e => x8a | x7f => x6b
  | x80 => x3a | x81 => x91 | x82 => x11 | x83 => x41 | x84 => x4f | x85 => x67 | x86 => xdc | x87 => xea
  | x88 => x97 | x89 => xf2 | x8a => xcf | x8b => xce | x8c => xf0 | x8d => xb4 | x8e => xe6 | x8f => x73
  | x90 => x96 | x91 => xac | x92 => x74 | x93 => x22 | x94 => xe7 | x95 => xad | x96 => x35 | x97 => x85
  | x98 => xe2 | x99 => xf9 | x9a => x37 | x9b => xe8 | x9c => x1c | x9d => x75 | x9e => xdf | x9f => x6e
  | xa0 => x47 | xa1 => xf1 | xa2 => x1a | xa3 => x71 | xa4 => x1d | xa5 => x29 | xa6 => xc5 | xa7 => x89
  | xa8 => x6f | xa9 => xb7 | xaa => x62 | xab => x0e | xac => xaa | xad => x18 | xae => xbe | xaf => x1b
  | xb0 => xfc | xb1 => x56 | xb2 => x3e | xb3 => x4b | xb4 => xc6 | xb5 => xd2 | xb6 => x79 | xb7 => x20
  | xb8 => x9a | xb9 => xdb | xba => xc0 | xbb => xfe | xbc => x78 | xbd => xcd | xbe => x5a | xbf => xf4
  | xc0 => x1f | xc1 => xdd | xc2 => xa8 | xc3 => x33 | xc4 => x88 | xc5 => x07 | xc6 => xc7 | xc7 => x31
  | xc8 => xb1 | xc9 => x12 | xca => x10 | xcb => x59 | xcc => x27 | xcd => x80 | xce => xec | xcf => x5f
  | xd0 => x60 | xd1 => x51 | xd2 => x7f | xd3 => xa9 | xd4 => x19 | xd5 => xb5 | xd6 => x4a | xd7 => x0d
  | xd8 => x2d | xd9 => xe5 | xda => x7a | xdb => x9f | xdc => x93 | xdd => xc9 | xde => x9c | xdf => xef
  | xe0 => xa0 | xe1 => xe0 | xe2 => x3b | xe3 => x4d | xe4 => xae | xe5 => x2a | xe6 => xf5 | xe7 => xb0
  | xe8 => xc8 | xe9 => xeb | xea => xbb | xeb => x3c | xec => x83 | xed => x53 | xee => x99 | xef => x61
  | xf0 => x17 | xf1 => x2b | xf2 => x04 | xf3 => x7e | xf4 => xba | xf5 => x77 | xf6 => xd6 | xf7 => x26
  | xf8 => xe1 | xf9 => x69 | xfa => x14 | xfb => x63 | xfc => x55 | xfd => x21 | xfe => x0c | xff => x7d
  end.

(** A column of the state, top row first, and the state, left column
    first. *)
Definition col : Type := byte * byte * byte * byte.
Definition state : Type := col * col * col * col.

Definition col_map (f : byte -> byte) (c : col) : col :=
  let '(a, b, c, d) := c in (f a, f b, f c, f d).
Definition col_xor (x y : col) : col :=
  let '(a, b, c, d) := x in
  let '(a', b', c', d') := y in
  (bxor a a', bxor b b', bxor c c', bxor d d').
Definition state_map (f : col -> col) (s : state) : state :=
  let '(c0, c1, c2, c3) := s in (f c0, f c1, f c2, f c3).

Definition add_round_key (rk s : state) : state :=
  let '(c0, c1, c2, c3) := s in
  let '(k0, k1, k2, k3) := rk in
  (col_xor c0 k0, col_xor c1 k1, col_xor c2 k2, col_xor c3 k3).

Definition sub_bytes : state -> state := state_map (col_map sbox).
Definition inv_sub_bytes : state -> state := state_map (col_map inv_sbox).

Definition shift_rows (s : state) : state :=
  let '((a0, a1, a2, a3), (b0, b1, b2, b3),
        (c0, c1, c2, c3), (d0, d1, d2, d3)) := s in
  ((a0, b1, c2, d3), (b0, c1, d2, a3), (c0, d1, a2, b3), (d0, a1, b2, c3)).

Definition inv_shift_rows (s : state) : state :=
  let '((a0, a1, a2, a3), (b0, b1, b2, b3),
        (c0, c1, c2, c3), (d0, d1, d2, d3)) := s in
  ((a0, d1, c2, b3), (b0, a1, d2, c3), (c0, b1, a2, d3), (d0, c1, b2, a3)).

Definition mix_column (c : col) : col :=
  let '(a0, a1, a2, a3) := c in
  (bxor (bxor (mul2 a0) (mul3 a1)) (bxor a2 a3),
   bxor (bxor a0 (mul2 a1)) (bxor (mul3 a2) a3),
   bxor (bxor a0 a1) (bxor (mul2 a2) (mul3 a3)),
   bxor (bxor (mul3 a0) a1) (bxor a2 (mul2 a3))).

Definition inv_mix_column (c : col) : col :=
  let '(a0, a1, a2, a3) := c in
  (bxor (bxor (mul14 a0) (mul11 a1)) (bxor (mul13 a2) (mul9 a3)),
   bxor (bxor (mul9 a0) (mul14 a1)) (bxor (mul11 a2) (mul13 a3)),
   bxor (bxor (mul13 a0) (mul9 a1)) (bxor (mul14 a2) (mul11 a3)),
   bxor (bxor (mul11 a0) (mul13 a1)) (bxor (mul9 a2) (mul14 a3))).

Definition mix_columns : state -> state := state_map mix_column.
Definition inv_mix_columns : state -> state := state_map inv_mix_column.

(** Key expansion for [Nk = 8]: [rev_w] holds the words made so far,
    newest first, [i] is the index of the next word. *)
Definition rot_word (c : col) : col :=
  let '(a, b, c, d) := c in (b, c, d, a).

Definition zero_col : col := (x00, x00, x00, x00).

Fixpoint expand (n i : nat) (rcon : byte) (rev_w : list col) : list col :=
  match n with
  | O => rev_w
  | S n' =>
      let prev := nth 0 rev_w zero_col in
      let back := nth 7 rev_w zero_col in
      if Nat.eqb (i mod 8) 0 then
        let t := col_xor (col_map sbox (rot_word prev)) (rcon, x00, x00, x00) in
        expand n' (S i) (xtime rcon) (col_xor back t :: rev_w)
      else if Nat.eqb (i mod 8) 4 then
        expand n' (S i) rcon (col_xor back (col_map sbox prev) :: rev_w)
      else
        expand n' (S i) rcon (col_xor back prev :: rev_w)
  end.

Definition col_of_list (l : list byte) : col :=
  (nth 0 l x00, nth 1 l x00, nth 2 l x00, nth 3 l x00).
Definition list_of_col (c : col) : list byte :=
  let '(a, b, c, d) := c in [a; b; c; d].

Definition state_of_block (l : list byte) : state :=
  (col_of_list l, col_of_list (skipn 4 l),
   col_of_list (skipn 8 l), col_of_list (skipn 12 l)).
Definition block_of_state (s : state) : list byte :=
  let '(c0, c1, c2, c3) := s in
  list_of_col c0 ++ list_of_col c1 ++ list_of_col c2 ++ list_of_col c3.

Fixpoint group4 (n : nat) (l : list col) : list state :=
  match n with
  | O => []
  | S n' =>
      (nth 0 l zero_col, nth 1 l zero_col, nth 2 l zero_col, nth 3 l zero_col)
        :: group4 n' (skipn 4 l)
  end.

(** The 15 round keys of a 32-byte key. *)
Definition key_expansion (key : list byte) : list state :=
  let w8 := map col_of_list (chunks 4 (firstn 32 (key ++ repeat x00 32))) in
  group4 15 (rev (expand 52 8 x01 (rev w8))).

(** Rounds 1 to Nr of [Cipher], and their inverses in [InvCipher]. *)
Fixpoint enc_rounds (rks : list state) (s : state) : state :=
  match rks with
  | [] => s
  | [last] => add_round_key last (shift_rows (sub_bytes s))
  | rk :: rest =>
      enc_rounds rest (add_round_key rk (mix_columns (shift_rows (sub_bytes s))))
  end.

Fixpoint dec_rounds (rks : list state) (s : state) : state :=
  match rks with
  | [] => s
  | [last] => inv_sub_bytes (inv_shift_rows (add_round_key last s))
  | rk :: rest =>
      inv_sub_bytes (inv_shift_rows
        (inv_mix_columns (add_round_key rk (dec_rounds rest s))))
  end.

Definition cipher (rks : list state) (s : state) : state :=
  match rks with
  | [] => s
  | rk0 :: rest => enc_rounds rest (add_round_key rk0 s)
  end.

Definition inv_cipher (rks : list state) (s : state) : state :=
  match rks with
  | [] => s
  | rk0 :: rest => add_round_key rk0 (dec_rounds rest s)
  end.

Definition aes_encrypt_block (key block : list byte) : list byte :=
  block_of_state (cipher (key_expansion key) (state_of_block block)).
Definition aes_decrypt_block (key block : list byte) : list byte :=
  block_of_state (inv_cipher (key_expansion key) (state_of_block block)).

(** The same operations on the bits of a byte, lowest bit first. *)
Definition bits8 : Type :=
  bool * (bool * (bool * (bool * (bool * (bool * (bool * bool)))))).

Definition bxor_bits (x y : bits8) : bits8 :=
  let '(a0, (a1, (a2, (a3, (a4, (a5, (a6, a7))))))) := x in
  let '(b0, (b1, (b2, (b3, (b4, (b5, (b6, b7))))))) := y in
  (xorb a0 b0, (xorb a1 b1, (xorb a2 b2, (xorb a3 b3,
  (xorb a4 b4, (xorb a5 b5, (xorb a6 b6, xorb a7 b7))))))).

Definition xtime_bits (x : bits8) : bits8 :=
  let '(a0, (a1, (a2, (a3, (a4, (a5, (a6, a7))))))) := x in
  (a7, (xorb a0 a7, (a1, (xorb a2 a7, (xorb a3 a7, (a4, (a5, a6))))))).

(** ** CBC mode over 16-byte blocks *)

Definition xor_block (a b : list byte) : list byte :=
  map (fun p => bxor (fst p) (snd p)) (combine a b).

Section Chaining.
(** The block cipher under a fixed key. *)
Variables encrypt_block decrypt_block : list byte -> list byte.

Fixpoint cbc_encrypt_blocks (prev : list byte) (blocks : list (list byte))
  : list (list byte) :=
  match blocks with
  | [] => []
  | p :: rest =>
      let c := encrypt_block (xor_block p prev) in
      c :: cbc_encrypt_blocks c rest
  end.

Fixpoint cbc_decrypt_blocks (prev : list byte) (blocks : list (list byte))
  : list (list byte) :=
  match blocks with
  | [] => []
  | c :: rest =>
      xor_block (decrypt_block c) prev :: cbc_decrypt_blocks c rest
  end.
End Chaining.

Definition block_size : nat := 16.

Definition not_aligned_msg : string :=
  "Data must be padded to 16 byte boundary in CBC mode".

(** [AES.new(key, AES.MODE_CBC, iv).encrypt(data)] *)
Definition cbc_encrypt (key iv data : list byte) : Py.outcome (list byte) :=
  if Nat.eqb (List.length data mod block_size) 0
  then Py.Ret (List.concat (cbc_encrypt_blocks (aes_encrypt_block key) iv
                                (chunks block_size data)))
  else Py.Raise (Py.Exception Py.ValueError not_aligned_msg).

(** [AES.new(key, AES.MODE_CBC, iv).decrypt(data)] *)
Definition cbc_decrypt (key iv data : list byte) : Py.outcome (list byte) :=
  if Nat.eqb (List.length data mod block_size) 0
  then Py.Ret (List.concat (cbc_decrypt_blocks (aes_decrypt_block key) iv
                                (chunks block_size data)))
  else Py.Raise (Py.Exception Py.ValueError not_aligned_msg).

(** ** [Crypto.Util.Padding] with the default style, PKCS#7 *)

Definition pad (data_to_pad : list byte) (block_size : nat) : list byte :=
  let padding_len := block_size - List.length data_to_pad mod block_size in
  data_to_pad ++ repeat (byte_of_N (N.of_nat padding_len)) padding_len.

Definition unpad (padded_data : list byte) (block_size : nat)
  : Py.outcome (list byte) :=
  let pdata_len := List.length padded_data in
  if Nat.eqb pdata_len 0 then
    Py.Raise (Py.Exception Py.ValueError "Zero-length input cannot be unpadded")
  else if negb (Nat.eqb (pdata_len mod block_size) 0) then
    Py.Raise (Py.Exception Py.ValueError "Input data is not padded")
  else
    let padding_len := Byte.to_nat (last padded_data x00) in
    if (padding_len <? 1)%nat || (Nat.min block_size pdata_len <? padding_len)%nat
    then Py.Raise (Py.Exception Py.ValueError "Padding is incorrect.")
    else if list_eq_dec Byte.byte_eq_dec
              (skipn (pdata_len - padding_len) padded_data)
              (repeat (last padded_data x00) padding_len)
    then Py.Ret (firstn (pdata_len - padding_len) padded_data)
    else Py.Raise (Py.Exception Py.ValueError "PKCS#7 padding is incorrect.").

End Crypto.

(* ===================================================================== *)
(** * [backupxLib/aes_encrypt_inplace.py], [backupxLib/aes_decrypt_inplace.py] *)
(* ===================================================================== *)

Module Aes.
Import Fs Crypto.
Open Scope py_scope.

(** [password.encode()] *)
Definition encode (password : string) : list byte :=
  list_byte_of_string password.

(** [os.urandom(n)] *)
Definition urandom (n : nat) : IO (list byte) :=
  w <- Py.get ;;
  Py.put (set_drawn (drawn w + n) w) ;;
  Py.ret (map (entropy w) (seq (drawn w) n)).

Definition derive_key (password : string) : list byte :=
  sha256 (encode password).

Definition encrypt_file (file_path password : string) : IO unit :=
  Py.try_except
    (isfile <- Os.path_isfile file_path ;;
     (if negb isfile then
        Log.error ("[!] File not found: " +++ file_path) ;;
        Py.sys_exit 1
      else Py.ret tt) ;;
     let key := derive_key password in
     iv <- urandom 16 ;;
     plaintext <- Os.read_bytes file_path ;;
     let padded_data := pad plaintext block_size in
     ciphertext <- Py.lift (cbc_encrypt key iv padded_data) ;;
     let file_path := file_path +++ ".aes" in
     Os.write_bytes file_path (iv ++ ciphertext))
    Py.is_Exception
    (fun error =>
       Log.error ("Unexpected error while encoding data: " +++ Py.str_exn error) ;;
       Py.sys_exit 1).

(** [s[:-n]] *)
Definition drop_last (n : nat) (s : string) : string :=
  substring 0 (String.length s - n) s.

(** What lines 31 to 35 of [decrypt_file] make of the content of the file:
    the plaintext, or the [ValueError] of [decrypt] or [unpad]. *)
Definition decrypted (password : string) (data : list byte)
  : Py.outcome (list byte) :=
  match cbc_decrypt (derive_key password) (firstn 16 data) (skipn 16 data) with
  | Py.Ret d => unpad d block_size
  | Py.Raise e => Py.Raise e
  end.

Definition decrypt_file (file_path password : string) : IO unit :=
  Py.try_except
    (isfile <- Os.path_isfile file_path ;;
     (if negb isfile then
        Log.error ("[!] File not found: " +++ file_path) ;;
        Py.sys_exit 1
      else Py.ret tt) ;;
     let key := derive_key password in
     data <- Os.read_bytes file_path ;;
     (if (List.length data <? 16)%nat then
        Log.error ("[!] Encrypted file too short or corrupted: " +++ file_path) ;;
        Py.sys_exit 1
      else Py.ret tt) ;;
     let iv := firstn 16 data in
     let ciphertext := skipn 16 data in
     decrypted <- Py.lift (cbc_decrypt key iv ciphertext) ;;
     plaintext <- Py.lift (unpad decrypted block_size) ;;
     let original_path :=
       if PosixPath.endswith file_path ".aes" then drop_last 4 file_path
       else file_path in
     Os.write_bytes original_path plaintext)
    Py.is_Exception
    (fun error =>
       if Py.is_instance error [Py.ValueError; Py.KeyError] then
         Log.error ("[!] Decryption failed: incorrect password or corrupted data "
                    +++ Py.str_exn error) ;;
         Py.sys_exit 1
       else
         Log.error ("Unexpected error while decoding data: " +++ Py.str_exn error) ;;
         Py.sys_exit 1).

End Aes.

(* ===================================================================== *)
(** * [backupxLib/delete_old_backups.py]                                  *)
(* ===================================================================== *)

Module Retention.
Open Scope py_scope.

(** ** [datetime]: a moment is its number of microseconds since the start
    of day 0 of the proleptic Gregorian calendar (day 1 is 0001-01-01). *)

Definition is_leap (y : Z) : bool :=
  ((y mod 4 =? 0) && (negb (y mod 100 =? 0) || (y mod 400 =? 0)))%Z.

Definition days_in_month (y m : Z) : Z :=
  if (m =? 2)%Z then (if is_leap y then 29 else 28)%Z
  else if ((m =? 4) || (m =? 6) || (m =? 9) || (m =? 11))%Z then 30%Z
  else 31%Z.

Definition days_before_year (y : Z) : Z :=
  let y1 := (y - 1)%Z in
  (y1 * 365 + y1 / 4 - y1 / 100 + y1 / 400)%Z.

Fixpoint days_before_month_nat (y : Z) (m : nat) : Z :=
  match m with
  | O => 0%Z
  | S m' => (days_before_month_nat y m' + days_in_month y (Z.of_nat m'))%Z
  end.

(** Days in the year before the first of month [m] ([1 <= m <= 12]). *)
Definition days_before_month (y m : Z) : Z :=
  (days_before_month_nat y (Z.to_nat m) - days_in_month y 0)%Z.

Definition ymd2ord (y m d : Z) : Z :=
  (days_before_year y + days_before_month y m + d)%Z.

Definition microseconds_per_day : Z := (86400 * 1000000)%Z.

(** [datetime(y, m, d, H, M, S)]; [ValueError] outside the ranges. *)
Definition datetime (y m d hh mi ss : Z) : Py.outcome Z :=
  if negb ((1 <=? y) && (y <=? 9999))%Z then
    Py.Raise (Py.Exception Py.ValueError "year is out of range")
  else if negb ((1 <=? m) && (m <=? 12))%Z then
    Py.Raise (Py.Exception Py.ValueError "month must be in 1..12")
  else if negb ((1 <=? d) && (d <=? days_in_month y m))%Z then
    Py.Raise (Py.Exception Py.ValueError "day is out of range for month")
  else if negb ((0 <=? hh) && (hh <=? 23))%Z then
    Py.Raise (Py.Exception Py.ValueError "hour must be in 0..23")
  else if negb ((0 <=? mi) && (mi <=? 59))%Z then
    Py.Raise (Py.Exception Py.ValueError "minute must be in 0..59")
  else if negb ((0 <=? ss) && (ss <=? 59))%Z then
    Py.Raise (Py.Exception Py.ValueError "second must be in 0..59")
  else
    Py.Ret ((ymd2ord y m d * 86400 + hh * 3600 + mi * 60 + ss) * 1000000)%Z.

(** [now - timedelta(days=n)] *)
Definition minus_days (now n : Z) : Py.outcome Z :=
  let t := (now - n * microseconds_per_day)%Z in
  if (t <? microseconds_per_day)%Z
  then Py.Raise (Py.Exception Py.OverflowError "date value out of range")
  else Py.Ret t.

(** ** [datetime.strptime(s, "%Y-%m-%d_%H-%M-%S")] on ASCII text

    The directives match digits only and the literals [-] and [_] stand
    between them, so a string matches the format exactly when it splits at
    its one [_] and at the [-] of either half into six fields that each
    match their directive. *)

Definition digit (c : ascii) : option Z :=
  let n := nat_of_ascii c in
  if ((48 <=? n) && (n <=? 57))%nat then Some (Z.of_nat (n - 48)) else None.

(** A field of one or two characters as a pair of digits; a lone digit
    has no tens digit. *)
Definition two_digits (s : string) : option (option Z * Z) :=
  match s with
  | String a EmptyString =>
      match digit a with Some u => Some (None, u) | None => None end
  | String a (String b EmptyString) =>
      match digit a, digit b with
      | Some t, Some u => Some (Some t, u)
      | _, _ => None
      end
  | _ => None
  end.

(** [%Y]: four digits. *)
Definition field_Y (s : string) : option Z :=
  match s with
  | String a (String b (String c (String d EmptyString))) =>
      match digit a, digit b, digit c, digit d with
      | Some a, Some b, Some c, Some d =>
          Some (a * 1000 + b * 100 + c * 10 + d)%Z
      | _, _, _, _ => None
      end
  | _ => None
  end.

(** [%m]: [1[0-2]|0[1-9]|[1-9]] *)
Definition field_m (s : string) : option Z :=
  match two_digits s with
  | Some (None, u) => if (1 <=? u)%Z then Some u else None
  | Some (Some t, u) =>
      let v := (t * 10 + u)%Z in
      if ((1 <=? v) && (v <=? 12))%Z then Some v else None
  | None => None
  end.

(** [%d]: [3[0-1]|[1-2]\d|0[1-9]|[1-9]| [1-9]] *)
Definition field_d (s : string) : option Z :=
  match s with
  | String " " (String b EmptyString) =>
      match digit b with
      | Some u => if (1 <=? u)%Z then Some u else None
      | None => None
      end
  | _ =>
      match two_digits s with
      | Some (None, u) => if (1 <=? u)%Z then Some u else None
      | Some (Some t, u) =>
          let v := (t * 10 + u)%Z in
          if ((1 <=? v) && (v <=? 31))%Z then Some v else None
      | None => None
      end
  end.

(** [%H], [%M], [%S]: one or two digits up to [hi]. *)
Definition field_upto (hi : Z) (s : string) : option Z :=
  match two_digits s with
  | Some (None, u) => Some u
  | Some (Some t, u) =>
      let v := (t * 10 + u)%Z in
      if (v <=? hi)%Z then Some v else None
  | None => None
  end.

Definition no_match (s : string) : Py.exn :=
  Py.Exception Py.ValueError
    ("time data '" +++ s +++ "' does not match format '%Y-%m-%d_%H-%M-%S'").

Definition strptime (s : string) : Py.outcome Z :=
  match PosixPath.split "_" s with
  | [date; time] =>
      match PosixPath.split "-" date, PosixPath.split "-" time with
      | [fy; fm; fd], [fhh; fmi; fss] =>
          match field_Y fy, field_m fm, field_d fd,
                field_upto 23 fhh, field_upto 59 fmi, field_upto 61 fss with
          | Some y, Some m, Some d, Some hh, Some mi, Some ss =>
              datetime y m d hh mi ss
          | _, _, _, _, _, _ => Py.Raise (no_match s)
          end
      | _, _ => Py.Raise (no_match s)
      end
  | _ => Py.Raise (no_match s)
  end.

(** The body of the [for file in os.listdir(path_dir)] loop. *)
Definition sweep_file (path_dir : string) (threshold : Z) (file : string)
  : IO unit :=
  let file_path := PosixPath.join path_dir file in
  isfile <- Os.path_isfile file_path ;;
  if isfile then
    let base := fst (PosixPath.splitext file) in
    let parts := PosixPath.split "_" base in
    if (List.length parts <? 3)%nat then Py.ret tt   (* continue *)
    else
      let date_str := nth 1 parts "" +++ "_" +++ nth 2 parts "" in
      file_datetime <- Py.lift (strptime date_str) ;;
      if (file_datetime <? threshold)%Z then
        Os.remove file_path ;;
        Log.info ("Deleted old backup: " +++ file)
      else Py.ret tt
  else Py.ret tt.

Definition delete_backups (path_dir : string) : IO unit :=
  Py.try_except
    (isdir <- Os.path_isdir path_dir ;;
     if negb isdir then
       Log.error ("Directory not found: " +++ path_dir)   (* return *)
     else
       w <- Py.get ;;
       let now := clock w in
       threshold <- Py.lift (minus_days now 90) ;;
       files <- Os.listdir path_dir ;;
       Py.for_each files (sweep_file path_dir threshold))
    Py.is_Exception
    (fun error => Log.error ("Error: " +++ Py.str_exn error)).

End Retention.

(* ===================================================================== *)
(** * Archive containers: what [pyzipper] and [py7zr] provide              *)
(* ===================================================================== *)

Module Zip.
Import Fs.

(** The logical content of a ZIP container. *)
Record archive := mkArchive {
  encryption : option string;
    (** the password its members are encrypted under (WZ_AES), if any *)
  members : list (string * bytes)
    (** names and contents, in the order of the central directory *)
}.

(** [archive.namelist()] *)
Definition namelist (a : archive) : list string := map fst (members a).

(** [archive.getinfo(name)]: of several entries with one name the last
    one written is found. *)
Definition getinfo (a : archive) (name : string) : option bytes :=
  match find (fun e => fst e =? name) (rev (members a)) with
  | Some e => Some (snd e)
  | None => None
  end.

(** [if password:] on a [str | None]. *)
Definition truthy (password : option string) : bool :=
  match password with
  | Some (String _ _) => true
  | _ => false
  end.

(** [archive.open(member).read()], the password having been set with
    [archive.setpassword] when it is truthy. *)
Definition read (a : archive) (password : option string) (member : string)
  : Py.outcome bytes :=
  match getinfo a member with
  | None => Py.Raise (Py.Exception Py.KeyError member)
  | Some data =>
      match encryption a with
      | None => Py.Ret data
      | Some pw =>
          match password with
          | Some p =>
              if truthy password && (p =? pw) then Py.Ret data
              else Py.Raise (Py.Exception Py.RuntimeError member)
          | None => Py.Raise (Py.Exception Py.RuntimeError member)
          end
      end
  end.

(** The name [ZipFile.write(filename, arcname)] stores: [arcname]
    normalised, without leading separators. *)
Fixpoint lstrip_sep (s : string) : string :=
  match s with
  | String a s' => if Ascii.eqb a PosixPath.sep then lstrip_sep s' else s
  | EmptyString => s
  end.

Definition stored_name (arcname : string) : string :=
  lstrip_sep (PosixPath.normpath arcname).

End Zip.

(** The container formats are read and written by third-party libraries:
    they are an interface of the development. *)
Class Libraries := {
  (** parsing the bytes of a [.zip] file ([pyzipper.AESZipFile(name, 'r')]);
      [None] when they are not a ZIP container *)
  zip_read : Fs.bytes -> option Zip.archive;
  (** the bytes [pyzipper] writes for an archive *)
  zip_write : Zip.archive -> Fs.bytes;
  (** [py7zr.SevenZipFile(name, 'r').getnames()] on the bytes of a [.7z]
      file; [None] when they are not a 7z container *)
  sevenz_getnames : Fs.bytes -> option (list string);
  (** [archive.extractall(path=destination)] of the 7z container held in
      the bytes *)
  sevenz_extractall : Fs.bytes -> string -> IO unit;
  (** the order in which a [set] of strings built from the list is iterated *)
  set_order : list string -> list string
}.

(* ===================================================================== *)
(** * [backupxLib/get_zip_file_list.py], [backupxLib/get_7z_file_list.py]  *)
(* ===================================================================== *)

Module FileList.
Open Scope py_scope.
Section WithLibraries.
Context {L : Libraries}.

(** [pyzipper.AESZipFile(archive_path, 'r')] *)
Definition open_zip (archive_path : string) : IO Zip.archive :=
  data <- Os.read_bytes archive_path ;;
  match zip_read data with
  | Some a => Py.ret a
  | None => Py.raise (Py.Exception Py.BadArchive "File is not a zip file")
  end.

Definition list_zip_contents (archive_path : string) (password : option string)
  : IO (list string) :=
  Py.try_except
    (archive <- open_zip archive_path ;;
     Py.ret (Zip.namelist archive))
    Py.is_Exception
    (fun error =>
       Log.error ("Error listing contents of '" +++ archive_path +++ "': "
                  +++ Py.str_exn error) ;;
       Py.ret []).

(** [py7zr.SevenZipFile(archive_path, mode='r')], kept as its bytes. *)
Definition open_7z (archive_path : string) : IO Fs.bytes :=
  data <- Os.read_bytes archive_path ;;
  match sevenz_getnames data with
  | Some _ => Py.ret data
  | None => Py.raise (Py.Exception Py.BadArchive "not a 7z file")
  end.

Definition getnames (archive : Fs.bytes) : list string :=
  match sevenz_getnames archive with
  | Some names => names
  | None => []
  end.

Definition list_7z_contents (archive_path : string) : IO (list string) :=
  Py.try_except
    (archive <- open_7z archive_path ;;
     Py.ret (getnames archive))
    Py.is_Exception
    (fun error =>
       Log.error ("Error listing contents of '" +++ archive_path +++ "': "
                  +++ Py.str_exn error) ;;
       Py.ret []).
End WithLibraries.
End FileList.

(* ===================================================================== *)
(** * [backupxLib/extract_zip_archive.py]                                 *)
(* ===================================================================== *)

Module ExtractZip.
Open Scope py_scope.

Definition is_within_directory (base_dir target_path : string) : IO bool :=
  w <- Py.get ;;
  let base_dir := PosixPath.abspath (cwd w) base_dir in
  let target_path := PosixPath.abspath (cwd w) target_path in
  a <- Py.lift (PosixPath.commonpath [base_dir]) ;;
  b <- Py.lift (PosixPath.commonpath [base_dir; target_path]) ;;
  Py.ret (a =? b).

Section WithLibraries.
Context {L : Libraries}.

(** The body of [for member in archive.namelist()]. *)
Definition extract_member (archive : Zip.archive) (destination : string)
           (password : option string) (member : string) : IO unit :=
  let target_path := PosixPath.join destination member in
  ok <- is_within_directory destination target_path ;;
  (if negb ok then
     Log.error ("Zip-Slip attempt detected: " +++ member) ;;
     Py.sys_exit 1
   else Py.ret tt) ;;
  Os.makedirs (PosixPath.dirname target_path) ;;
  data <- Py.lift (Zip.read archive password member) ;;
  Os.write_bytes target_path data.

Definition extract_zip_aes (archive_name destination : string)
           (password : option string) : IO unit :=
  Py.try_except
    (archive <- FileList.open_zip archive_name ;;
     Py.for_each (Zip.namelist archive)
                 (extract_member archive destination password) ;;
     Log.info ("Archive '" +++ archive_name
               +++ "' extracted successfully to '" +++ destination +++ "'."))
    Py.is_Exception
    (fun error =>
       Log.error ("Error extracting archive '" +++ archive_name +++ "': "
                  +++ Py.str_exn error) ;;
       Py.sys_exit 1).
End WithLibraries.
End ExtractZip.

(* ===================================================================== *)
(** * [backupxLib/extract_7z_archive.py]                                  *)
(* ===================================================================== *)

Module Extract7z.
Open Scope py_scope.

Definition is_within_directory (base_dir target_path : string) : IO bool :=
  w <- Py.get ;;
  let base_dir := PosixPath.abspath (cwd w) base_dir in
  let target_path := PosixPath.abspath (cwd w) target_path in
  a <- Py.lift (PosixPath.commonpath [base_dir]) ;;
  b <- Py.lift (PosixPath.commonpath [base_dir; target_path]) ;;
  Py.ret (a =? b).

Section WithLibraries.
Context {L : Libraries}.

(** The body of [for member in file_list]. *)
Definition check_member (destination_dir member : string) : IO unit :=
  let target_path := PosixPath.join destination_dir member in
  ok <- is_within_directory destination_dir target_path ;;
  if negb ok then
    Log.error ("Zip-Slip attempt detected in: " +++ member) ;;
    Py.sys_exit 1
  else Py.ret tt.

Definition extract_7z (source_file destination_dir : string) : IO unit :=
  Py.try_except
    (archive <- FileList.open_7z source_file ;;
     let file_list := FileList.getnames archive in
     Py.for_each file_list (check_member destination_dir) ;;
     sevenz_extractall archive destination_dir ;;
     Log.info ("Archive '" +++ source_file
               +++ "' extracted successfully to '" +++ destination_dir +++ "'."))
    Py.is_Exception
    (fun error =>
       Log.error ("Error extracting archive '" +++ source_file +++ "': "
                  +++ Py.str_exn error) ;;
       Py.sys_exit 1).
End WithLibraries.
End Extract7z.

(* ===================================================================== *)
(** * [backupxLib/create_zip_archive.py]                                  *)
(* ===================================================================== *)

Module CreateZip.
Open Scope py_scope.
Section WithLibraries.
Context {L : Libraries}.

(** [str(n)] for an integer. *)
Definition str_int (n : Z) : string := NilEmpty.string_of_int (Z.to_int n).

(** [archive.write(filepath, arcname)]: the entry added. *)
Definition archive_write (filepath arcname : string)
  : IO (string * Fs.bytes) :=
  data <- Os.read_bytes filepath ;;
  Py.ret (Zip.stored_name arcname, data).

(** [for file in files] under one [root] of the walk. *)
Fixpoint add_files (parent_dir root : string) (files : list string)
  : IO (list (string * Fs.bytes)) :=
  match files with
  | [] => Py.ret []
  | file :: rest =>
      let filepath := PosixPath.join root file in
      w <- Py.get ;;
      arcname <- Py.lift (PosixPath.relpath (cwd w) filepath parent_dir) ;;
      e <- archive_write filepath arcname ;;
      es <- add_files parent_dir root rest ;;
      Py.ret (e :: es)
  end.

(** [for root, _, files in os.walk(source_path)] *)
Fixpoint add_walk (parent_dir : string)
         (triples : list (string * list string * list string))
  : IO (list (string * Fs.bytes)) :=
  match triples with
  | [] => Py.ret []
  | (root, _, files) :: rest =>
      es <- add_files parent_dir root files ;;
      es' <- add_walk parent_dir rest ;;
      Py.ret (es ++ es')
  end.

(** [current_directory] is the module's [os.getcwd()] at import time. *)
Definition create_zip_aes (current_directory : string)
           (archive_name source_path : string) (password : option string)
           (compression_level : Z) : IO unit :=
  Py.try_except
    (let parent_dir := PosixPath.dirname source_path in
     Os.chdir parent_dir ;;
     (* opening the archive for writing creates its file *)
     Os.write_bytes archive_name [] ;;
     isdir <- Os.path_isdir source_path ;;
     entries <-
       (if isdir then
          triples <- Os.walk source_path ;;
          add_walk parent_dir triples
        else
          w <- Py.get ;;
          arcname <- Py.lift (PosixPath.relpath (cwd w) source_path parent_dir) ;;
          e <- archive_write source_path arcname ;;
          Py.ret [e]) ;;
     (* leaving the [with] block closes the archive *)
     Os.write_bytes archive_name
       (zip_write (Zip.mkArchive
                     (if Zip.truthy password then password else None)
                     entries)) ;;
     Os.chdir current_directory ;;
     Log.info ("Archive '" +++ archive_name
               +++ "' created successfully from '" +++ source_path
               +++ "' With compression level: " +++ str_int compression_level
               +++ " "))
    Py.is_Exception
    (fun error =>
       Log.error ("Error creating ZIP archive '" +++ archive_name +++ "': "
                  +++ Py.str_exn error) ;;
       Py.sys_exit 1).
End WithLibraries.
End CreateZip.

(* ===================================================================== *)
(** * String methods and the regular expressions of [decypherx.py]         *)
(* ===================================================================== *)

Module PyStr.

Definition lower_char (c : ascii) : ascii :=
  let n := nat_of_ascii c in
  if ((65 <=? n) && (n <=? 90))%nat then ascii_of_nat (n + 32) else c.

(** [s.lower()] on ASCII text. *)
Fixpoint lower (s : string) : string :=
  match s with
  | EmptyString => EmptyString
  | String a s' => String (lower_char a) (lower s')
  end.

Definition is_space (c : ascii) : bool :=
  let n := nat_of_ascii c in
  ((9 <=? n) && (n <=? 13) || (28 <=? n) && (n <=? 32))%nat.

Fixpoint lstrip (s : string) : string :=
  match s with
  | String a s' => if is_space a then lstrip s' else s
  | EmptyString => s
  end.

Fixpoint rstrip_if (p : ascii -> bool) (s : string) : string :=
  match s with
  | EmptyString => EmptyString
  | String a s' =>
      let r := rstrip_if p s' in
      if (r =? "") && p a then EmptyString else String a r
  end.

(** [s.strip()] *)
Definition strip (s : string) : string := rstrip_if is_space (lstrip s).

Definition is_slash (c : ascii) : bool :=
  Ascii.eqb c "/"%char || Ascii.eqb c "\"%char.

(** ["/" in s or "\\" in s] *)
Fixpoint has_slash (s : string) : bool :=
  match s with
  | EmptyString => false
  | String a s' => is_slash a || has_slash s'
  end.

(** [re.split(r"[\\/]", s)[0]]: what precedes the first separator. *)
Fixpoint first_segment (s : string) : string :=
  match s with
  | EmptyString => EmptyString
  | String a s' => if is_slash a then EmptyString else String a (first_segment s')
  end.

(** [s.rstrip("/\\")] *)
Definition rstrip_slashes (s : string) : string := rstrip_if is_slash s.

Definition newline : string := String (ascii_of_nat 10) EmptyString.

Definition byte_between (lo hi : nat) (c : ascii) : bool :=
  let n := nat_of_ascii c in ((lo <=? n) && (n <=? hi))%nat.

(** A byte that continues a UTF-8 sequence: [80] to [BF]. *)
Definition continuation (c : ascii) : bool := byte_between 128 191 c.

(** The number of bytes of the code point that starts [s]: the length of
    the well-formed UTF-8 sequence at the head of [s] (The Unicode
    Standard, table 3-7), and 1 when there is none.  A byte outside of
    any well-formed sequence stands for one code point of its own: that is
    how Python holds such bytes of a command-line argument
    ([surrogateescape]); a text file read with [open] has none. *)
Definition sequence_length (s : string) : nat :=
  match s with
  | String a (String b rest) =>
      if byte_between 194 223 a && continuation b then 2
      else
        match rest with
        | String c rest' =>
            if (byte_between 224 224 a && byte_between 160 191 b
                || byte_between 225 236 a && continuation b
                || byte_between 237 237 a && byte_between 128 159 b
                || byte_between 238 239 a && continuation b)
               && continuation c then 3
            else
              match rest' with
              | String d _ =>
                  if (byte_between 240 240 a && byte_between 144 191 b
                      || byte_between 241 243 a && continuation b
                      || byte_between 244 244 a && byte_between 128 143 b)
                     && continuation c && continuation d then 4
                  else 1
              | EmptyString => 1
              end
        | EmptyString => 1
        end
  | _ => 1
  end%nat.

(** The code points of [s], after [skip] bytes that belong to the code
    point counted last. *)
Fixpoint code_points (skip : nat) (s : string) : nat :=
  match s with
  | EmptyString => O
  | String _ s' =>
      match skip with
      | S k => code_points k s'
      | O => S (code_points (sequence_length s - 1) s')
      end
  end.

(** [len(s)]: a [str] has as many items as code points, not as bytes of
    its UTF-8 form. *)
Definition len (s : string) : nat := code_points 0 s.

(** [re.compile(tail + "$", re.IGNORECASE).search(s)] for a literal
    [tail] in lower case: [$] matches at the end of the string and before
    a newline that ends it. *)
Definition search_at_end (tail s : string) : bool :=
  PosixPath.endswith (lower s) tail
  || PosixPath.endswith (lower s) (tail +++ newline).

(** [ZIP_PATTERN.search(s)] with [ZIP_PATTERN = \.zip$], ignoring case. *)
Definition ZIP_PATTERN (s : string) : bool := search_at_end ".zip" s.

(** [SEVENZ_PATTERN.search(s)] with [SEVENZ_PATTERN = \.7z(?:\.aes)?$],
    ignoring case. *)
Definition SEVENZ_PATTERN (s : string) : bool :=
  search_at_end ".7z" s || search_at_end ".7z.aes" s.

End PyStr.

(* ===================================================================== *)
(** * [backupxLib/initialize_loggers.py]                                  *)
(* ===================================================================== *)

Module InitializeLoggers.
Open Scope py_scope.

(** [RotatingFileHandler(path, ...)] opens the log file for appending,
    which creates it when it is missing. *)
Definition open_append (path : string) : IO unit :=
  w <- Py.get ;;
  match Os.stat w path with
  | Some (Fs.File _) => Py.ret tt
  | Some (Fs.Dir _) => Os.os_error Py.IsADirectoryError path
  | None => Os.write_bytes path []
  end.

Definition setup_loggers : IO unit :=
  Py.try_except
    (Os.makedirs "logs")
    (fun e => Py.is_instance e [Py.FileExistsError; Py.PermissionError])
    (fun e => Log.print ("[ERROR]: " +++ Py.str_exn e) ;; Py.sys_exit 1) ;;
  w <- Py.get ;;
  let logs_dir := PosixPath.abspath (cwd w) "logs" in
  open_append (PosixPath.join logs_dir "errors.log") ;;
  open_append (PosixPath.join logs_dir "info.log").

End InitializeLoggers.

(* ===================================================================== *)
(** * [decypherx.py]                                                      *)
(* ===================================================================== *)

Module Decypherx.
Open Scope py_scope.

(** The [while os.path.exists(new_path)] loop: [name counter] is the
    candidate [f"{base}_old_{counter}{ext}"].  Every turn probes another
    name of the directory, so the loop ends within as many turns as the
    directory has entries; [fuel] bounds the turns. *)
Fixpoint free_path (fuel : nat) (destination : string)
         (name : nat -> string) (counter : nat) (new_path : string)
  : IO string :=
  taken <- Os.path_exists new_path ;;
  if taken then
    match fuel with
    | O => Py.raise (Py.Exception Py.RuntimeError "free_path: out of fuel")
    | S fuel' =>
        let new_name := name counter in
        let new_path := PosixPath.join destination new_name in
        free_path fuel' destination name (S counter) new_path
    end
  else Py.ret new_path.

(** More turns than the directory at [destination] has entries. *)
Definition turns (w : world) (destination : string) : nat :=
  match Os.stat w destination with
  | Some (Fs.Dir es) => S (List.length es)
  | _ => 1
  end.

(** The body of [for root_dir in root_dirs]. *)
Definition rename_dir (destination root_dir : string) : IO unit :=
  let potential_conflict_path := PosixPath.join destination root_dir in
  isdir <- Os.path_isdir potential_conflict_path ;;
  if isdir then
    let base := root_dir in
    let new_name := base +++ "_old" in
    let new_path := PosixPath.join destination new_name in
    w <- Py.get ;;
    new_path <- free_path (turns w destination) destination
                  (fun counter => base +++ "_old_" +++ Py.str_nat counter)
                  1 new_path ;;
    Os.rename potential_conflict_path new_path
  else Py.ret tt.

(** The body of [for entry in archive_files]. *)
Definition rename_file (destination entry : string) : IO unit :=
  let clean_entry := PyStr.rstrip_slashes entry in
  if negb (PyStr.has_slash clean_entry) then
    let potential_conflict_path := PosixPath.join destination clean_entry in
    isfile <- Os.path_isfile potential_conflict_path ;;
    if isfile then
      let '(base, ext) := PosixPath.splitext clean_entry in
      let new_name := base +++ "_old" +++ ext in
      let new_path := PosixPath.join destination new_name in
      w <- Py.get ;;
      new_path <- free_path (turns w destination) destination
                    (fun counter => base +++ "_old_" +++ Py.str_nat counter +++ ext)
                    1 new_path ;;
      Os.rename potential_conflict_path new_path
    else Py.ret tt
  else Py.ret tt.

Section WithLibraries.
Context {L : Libraries}.

Definition rename_conflicting_files (source destination : string)
           (password : option string) (force : bool) : IO unit :=
  if force then Py.ret tt
  else
    archive_files <-
      (if PyStr.ZIP_PATTERN source then
         files <- FileList.list_zip_contents source password ;;
         Py.ret (Some files)
       else if PyStr.SEVENZ_PATTERN source then
         files <- FileList.list_7z_contents source ;;
         Py.ret (Some files)
       else Py.ret None) ;;
    match archive_files with
    | None => Py.ret tt
    | Some archive_files =>
        let root_dirs :=
          set_order (map PyStr.first_segment
                         (filter PyStr.has_slash archive_files)) in
        let parent_dir := PosixPath.dirname destination in
        match root_dirs with
        | _ :: _ => Py.for_each root_dirs (rename_dir destination)
        | [] =>
            isfile <- Os.path_isfile destination ;;
            let destination := if isfile then parent_dir else destination in
            Py.for_each archive_files (rename_file destination)
        end
    end.

(** [with open(password_path, 'r') as f: f.read().strip()] *)
Definition read_password (password_path : string) : IO string :=
  data <- Os.read_bytes password_path ;;
  Py.ret (PyStr.strip (string_of_list_byte data)).

Definition main (source destination : string) (password_path : option string)
           (listen force : bool) : IO unit :=
  Py.try_except
    (password <-
       (match password_path with
        | Some (String _ _ as password_path) =>
            isfile <- Os.path_isfile password_path ;;
            if isfile then
              password <- read_password password_path ;;
              (if (255 <=? PyStr.len password)%nat then
                 Log.error ("[SECURITY] The content of '" +++ password_path
                   +++ "' exceeds the safe length limit (>= 255 characters). Potential buffer overflow risk") ;;
                 Py.sys_exit 1
               else Py.ret tt) ;;
              Py.ret (Some password)
            else Py.ret None
        | _ => Py.ret None
        end) ;;
     stripped <- Os.path_isfile (Aes.drop_last 4 source) ;;
     let source :=
       if negb (source =? "") && stripped then Aes.drop_last 4 source
       else source in
     isfile <- Os.path_isfile source ;;
     (if (source =? "") || negb isfile then
        Log.error ("Backup archive not found at: '" +++ source
          +++ "'. Please verify that the file exists and the path is correct") ;;
        Py.sys_exit 1
      else Py.ret tt) ;;
     w <- Py.get ;;
     let source := PosixPath.abspath (cwd w) source in
     Os.makedirs destination ;;
     let destination := PosixPath.abspath (cwd w) destination in
     source <-
       (if PosixPath.endswith source ".aes" then
          match password with
          | Some (String _ _ as pw) =>
              Aes.decrypt_file source pw ;;
              Os.remove source ;;
              Py.ret (Aes.drop_last 4 source)
          | _ =>
              Log.error ("Missing or invalid password for decrypted archive: "
                         +++ source) ;;
              Py.sys_exit 1
          end
        else Py.ret source) ;;
     rename_conflicting_files source destination password force ;;
     if PyStr.ZIP_PATTERN source && listen then
       files <- FileList.list_zip_contents source password ;;
       Py.for_each files Log.print
     else if PyStr.SEVENZ_PATTERN source && listen then
       files <- FileList.list_7z_contents source ;;
       Py.for_each files Log.print
     else if PyStr.ZIP_PATTERN source then
       ExtractZip.extract_zip_aes source destination password
     else if PyStr.SEVENZ_PATTERN source then
       Extract7z.extract_7z source destination
     else
       Log.error "Unsupported file format. Only .zip and .7z are allowed")
    Py.is_Exception
    (fun error => Log.error ("Error: " +++ Py.str_exn error) ;; Py.sys_exit 1).

(** The parsed command line. *)
Record arguments := mkArguments {
  arg_extract : string;
  arg_destination : option string;  (** [None]: the default applies *)
  arg_decipher : option string;
  arg_listen : bool;
  arg_force : bool
}.

Definition field_limits : list (string * nat) :=
  [("extract", 1024); ("destination", 1024); ("decipher", 1024)]%nat.

(** [value = '' if not value else value] *)
Definition or_empty (value : option string) : string :=
  match value with
  | Some v => v
  | None => ""
  end.

(** The body of [for field_name, value in zip(field_limits.keys(),
    backup_config)]. *)
Definition check_field (field_name : string) (value : option string)
  : IO unit :=
  let max_length :=
    match find (fun e => fst e =? field_name) field_limits with
    | Some e => snd e
    | None => O
    end in
  let value := or_empty value in
  if (max_length <=? PyStr.len value)%nat then
    Log.error ("[SECURITY] Field '" +++ field_name
      +++ "' exceeds safe length: " +++ Py.str_nat (PyStr.len value)
      +++ " >= " +++ Py.str_nat max_length +++ PyStr.newline
      +++ "Possible overflow or malformed input") ;;
    Py.sys_exit 1
  else Py.ret tt.

(** What the script does before it looks at its arguments: the imports
    set the loggers up, then the [backups] directory is ensured. *)
Definition preamble : IO unit :=
  InitializeLoggers.setup_loggers ;;
  Py.try_except
    (Os.makedirs "backups")
    (fun e => Py.is_instance e [Py.FileExistsError; Py.PermissionError])
    (fun e => Log.error "[ERROR]: " ;; Py.sys_exit 1).

(** [args.destination]: the option [-o], or [os.path.abspath('backups')]. *)
Definition destination_of (w : world) (args : arguments) : string :=
  match arg_destination args with
  | Some d => d
  | None => PosixPath.abspath (cwd w) "backups"
  end.

(** The script under [if __name__ == "__main__"]. *)
Definition script (args : arguments) : IO unit :=
  preamble ;;
  w <- Py.get ;;
  let destination := destination_of w args in
  let backup_config :=
    [Some (arg_extract args); Some destination; arg_decipher args] in
  Py.for_each (combine (map fst field_limits) backup_config)
              (fun fv => check_field (fst fv) (snd fv)) ;;
  main (arg_extract args) destination (arg_decipher args)
       (arg_listen args) (arg_force args).

(** Some argument has as many characters as its limit allows or more; an
    option that is not given counts as empty. *)
Definition over_limit (w : world) (args : arguments) : bool :=
  (1024 <=? PyStr.len (arg_extract args))%nat
  || (1024 <=? PyStr.len (destination_of w args))%nat
  || (1024 <=? PyStr.len (or_empty (arg_decipher args)))%nat.

End WithLibraries.
End Decypherx.

(* ===================================================================== *)
(** * [backupx.py]                                                        *)
(* ===================================================================== *)

Module Backupx.
Import SSHBackupManager.
Open Scope py_scope.

(** [time.sleep(seconds)] *)
Definition time_sleep (seconds : Z) : IO unit :=
  Py.modify (fun w => set_sleeps (sleeps w ++ [seconds]) w).

(** The [for attempt in range(1, 4)] loop of [establish_ssh_connection]
    over the attempts still to make; [Some client] is the [break]. *)
Fixpoint connection_attempts (attempts : list nat) (ssh_host : string)
         (ssh_port : Z) (ssh_user ssh_key_path : string)
  : IO (option ssh_client) :=
  match attempts with
  | [] => Py.ret None
  | attempt :: rest =>
      r <- Py.try_except
             (ssh <- create_ssh_client ssh_host ssh_port ssh_user ssh_key_path ;;
              Py.ret (Some ssh))
             Py.is_Exception
             (fun error =>
                Log.error ("SSH connection attempt " +++ Py.str_nat attempt
                           +++ " failed: " +++ Py.str_exn error) ;;
                if Nat.eqb attempt 3 then
                  Log.error "Max SSH connection attempts reached. Aborting" ;;
                  Py.sys_exit 1
                else
                  time_sleep 2 ;; Py.ret None) ;;
      match r with
      | Some ssh => Py.ret (Some ssh)
      | None => connection_attempts rest ssh_host ssh_port ssh_user ssh_key_path
      end
  end.

Definition establish_ssh_connection (ssh_host : string) (ssh_port : Z)
           (ssh_user ssh_key_path : string) : IO (option ssh_client) :=
  connection_attempts [1; 2; 3]%nat ssh_host ssh_port ssh_user ssh_key_path.

(** ** The start of the script under [if __name__ == "__main__"] *)

(** The values [configparser] delivers. *)
Inductive value :=
| VNone
| VStr (s : string)
| VInt (n : Z).

(** [not value] *)
Definition falsy (v : value) : bool :=
  match v with
  | VNone => true
  | VStr s => s =? ""
  | VInt n => (n =? 0)%Z
  end.

(** [str(value)] *)
Definition str (v : value) : string :=
  match v with
  | VNone => "None"
  | VStr s => s
  | VInt n => NilEmpty.string_of_int (Z.to_int n)
  end.

Definition of_option (o : option string) : value :=
  match o with
  | Some s => VStr s
  | None => VNone
  end.

(** The settings read from [config.ini] (lines 294 to 339). *)
Record settings := mkSettings {
  source : string;
  destination : string;
  compression : string;
  compression_level : Z;
  password_path : option string;    (** [None] unless [encryption] *)
  ssh_host : option string;         (** this and the following: [None]
                                        unless [ssh_connection] *)
  ssh_port : option Z;
  ssh_user : option string;
  ssh_key_path : option string;
  ssh_remote_path : option string;
  ssh_local_path : option string
}.

Definition field_limits : list (string * nat) :=
  [("source", 1024); ("destination", 1024); ("compression", 20);
   ("compression_level", 10); ("password_path", 1024); ("ssh_host", 255);
   ("ssh_port", 10); ("ssh_user", 255); ("ssh_key_path", 1024);
   ("ssh_remote_path", 1024); ("ssh_local_path", 1024)]%nat.

Definition backup_config (c : settings) : list value :=
  [VStr (source c); VStr (destination c); VStr (compression c);
   VInt (compression_level c); of_option (password_path c);
   of_option (ssh_host c);
   match ssh_port c with Some n => VInt n | None => VNone end;
   of_option (ssh_user c); of_option (ssh_key_path c);
   of_option (ssh_remote_path c); of_option (ssh_local_path c)].

(** The body of [for field_name, value in zip(field_limits.keys(),
    backup_config)]. *)
Definition check_field (field_name : string) (v : value) : IO unit :=
  let max_length :=
    match find (fun e => fst e =? field_name) field_limits with
    | Some e => snd e
    | None => O
    end in
  let v := if falsy v then VStr "" else v in
  if (max_length <=? PyStr.len (str v))%nat then
    Log.error ("[SECURITY] Field '" +++ field_name
      +++ "' exceeds safe length: " +++ Py.str_nat (PyStr.len (str v))
      +++ " >= " +++ Py.str_nat max_length +++ PyStr.newline
      +++ "Possible overflow or malformed input") ;;
    Py.sys_exit 1
  else Py.ret tt.

Definition enforce_field_limits (c : settings) : IO unit :=
  Py.for_each (combine (map fst field_limits) (backup_config c))
              (fun fv => check_field (fst fv) (snd fv)).

(** What the script does before it reads [config.ini]: the imports set
    the loggers up, then the [backups] directory is ensured. *)
Definition preamble : IO unit :=
  InitializeLoggers.setup_loggers ;;
  Py.try_except
    (Os.makedirs "backups")
    (fun e => Py.is_instance e [Py.FileExistsError; Py.PermissionError])
    (fun e => Log.error "[ERROR]: " ;; Py.sys_exit 1).

(** The characters of a setting; one that was not loaded has none. *)
Definition length_of (o : option string) : nat :=
  match o with
  | Some s => PyStr.len s
  | None => O
  end.

(** Some setting has as many characters as its limit allows or more; the
    two numbers count by their decimal form. *)
Definition over_limit (c : settings) : bool :=
  ((1024 <=? PyStr.len (source c))
   || (1024 <=? PyStr.len (destination c))
   || (20 <=? PyStr.len (compression c))
   || (10 <=? PyStr.len (str (VInt (compression_level c))))
   || (1024 <=? length_of (password_path c))
   || (255 <=? length_of (ssh_host c))
   || (10 <=? match ssh_port c with
              | Some n => PyStr.len (str (VInt n))
              | None => O
              end)
   || (255 <=? length_of (ssh_user c))
   || (1024 <=? length_of (ssh_key_path c))
   || (1024 <=? length_of (ssh_remote_path c))
   || (1024 <=? length_of (ssh_local_path c)))%nat.

(** The script from its imports (which set the loggers up) to the call of
    [main].  [config] is what [config.read] finds in [config.ini], [None]
    when it has no section; [prepare] stands for the rest of the [try]
    block after the length check (lines 392 to 468) and [run] for the call
    of [main] with what it prepared. *)
Definition script {A} (config : option settings)
           (prepare : settings -> IO A) (run : A -> IO unit) : IO unit :=
  preamble ;;
  isfile <- Os.path_isfile "config.ini" ;;
  (if negb isfile then
     Log.error "config.ini not found" ;; Py.sys_exit 1
   else Py.ret tt) ;;
  match config with
  | None =>
      Log.error "Failed to load config.ini or it is empty" ;; Py.sys_exit 1
  | Some c =>
      prepared <-
        Py.try_except
          (enforce_field_limits c ;;
           prepare c)
          Py.is_Exception
          (fun error =>
             Log.error ("Error: " +++ Py.str_exn error) ;; Py.sys_exit 1) ;;
      run prepared
  end.

End Backupx.

(* ===================================================================== *)
(** * [backupx.py]: the name of the archive                                *)
(* ===================================================================== *)

Module BackupName.
Open Scope py_scope.

(** The decimal digit [n], for [0 <= n <= 9]. *)
Definition digit_char (n : Z) : ascii := ascii_of_nat (48 + Z.to_nat n).

(** Two and four digits, padded with zeros, as [%m] and [%Y] print them. *)
Definition pad2 (n : Z) : string :=
  String (digit_char (n / 10)) (String (digit_char (n mod 10)) "").

Definition pad4 (n : Z) : string :=
  String (digit_char (n / 1000))
         (String (digit_char (n / 100 mod 10)) (pad2 (n mod 100))).

(** [datetime(y, m, d, hh, mi, ss).strftime("%Y-%m-%d_%H-%M-%S")], for a
    year of four digits. *)
Definition strftime (y m d hh mi ss : Z) : string :=
  pad4 y +++ "-" +++ pad2 m +++ "-" +++ pad2 d +++ "_"
  +++ pad2 hh +++ "-" +++ pad2 mi +++ "-" +++ pad2 ss.

Definition generate_backup_filename (destination date_and_time : string)
  : IO string :=
  let filename := PyStr.lower (PosixPath.basename destination) in
  let '(name, ext) := PosixPath.splitext filename in
  let new_filename := name +++ "_" +++ date_and_time +++ ext in
  let generate_new_path :=
    PosixPath.join (PosixPath.dirname destination) new_filename in
  w <- Py.get ;;
  Py.ret (PosixPath.abspath (cwd w) generate_new_path).

End BackupName.

(* ===================================================================== *)
(** * The ZIP extraction over a file system with symbolic links            *)
(* ===================================================================== *)

(** [extract_zip_aes] decides on the strings of the paths
    ([os.path.abspath]), while [os.makedirs] and [open] go where the
    operating system leads them.  The two differ where a directory holds a
    symbolic link, which the tree of [Fs] cannot show.  This module embeds
    the same source over a tree with symbolic links and the path
    resolution of POSIX. *)
Module Linked.

#[warnings="-register-all"]
Inductive node :=
| File (data : Fs.bytes)
| Dir (entries : list (string * node))
| Link (target : string).     (** a symbolic link and the path it holds *)

Fixpoint find_entry (name : string) (es : list (string * node)) : option node :=
  match es with
  | [] => None
  | (k, n) :: es' => if k =? name then Some n else find_entry name es'
  end.

(** Replace the entry called [name], or add it at the end. *)
Fixpoint set_entry (name : string) (new : node) (es : list (string * node))
  : list (string * node) :=
  match es with
  | [] => [(name, new)]
  | (k, n) :: es' =>
      if k =? name then (k, new) :: es' else (k, n) :: set_entry name new es'
  end.

(** The node at the location [p], a list of entry names from the root:
    every name but the last one is that of a directory, no symbolic link
    is followed. *)
Fixpoint lookup (p : list string) (n : node) : option node :=
  match p with
  | [] => Some n
  | c :: p' =>
      match n with
      | Dir es =>
          match find_entry c es with
          | Some child => lookup p' child
          | None => None
          end
      | _ => None
      end
  end.

(** Put [new] at the location [p], whose parent is a directory. *)
Fixpoint place (p : list string) (new : node) (n : node) : option node :=
  match p with
  | [] => Some new
  | c :: p' =>
      match n with
      | Dir es =>
          match find_entry c es with
          | Some child =>
              match place p' new child with
              | Some child' => Some (Dir (set_entry c child' es))
              | None => None
              end
          | None =>
              match p' with
              | [] => Some (Dir (set_entry c new es))
              | _ :: _ => None
              end
          end
      | _ => None
      end
  end.

(** ** Path resolution *)

Inductive errno := ENOENT | ENOTDIR | EISDIR | EEXIST | ELOOP.

(** Where the walk along a path ends: at a node; at a name that its
    directory lacks, with the components of the path still to come; at a
    symbolic link, with the path it holds and the components still to
    come; or with an error. *)
Inductive found :=
| At (p : list string)
| Absent (p : list string) (rest : list string)
| Through (p : list string) (target : string) (rest : list string)
| Failed (e : errno).

(** The walk from the directory at [cur] along the components [comps],
    up to the first symbolic link: an empty component and [.] stay, [..]
    is the parent of the directory reached (the root is its own). *)
Fixpoint stretch (t : node) (cur comps : list string) : found :=
  match comps with
  | [] => At cur
  | c :: rest =>
      if (c =? "") || (c =? ".") then stretch t cur rest
      else if c =? ".." then stretch t (removelast cur) rest
      else
        match lookup (cur ++ [c]) t with
        | None => Absent (cur ++ [c]) rest
        | Some (Link target) => Through (cur ++ [c]) target rest
        | Some (File _) =>
            match rest with
            | [] => At (cur ++ [c])
            | _ :: _ => Failed ENOTDIR
            end
        | Some (Dir _) => stretch t (cur ++ [c]) rest
        end
  end.

(** The symbolic links one resolution may go through (Linux). *)
Definition max_links : nat := 40.

(** The whole walk.  The path a symbolic link holds is walked from the
    directory of the link, or from the root when it is absolute, before
    the rest of the path; [follow] tells whether a symbolic link in the
    last place is gone through as well ([stat], [open]) or is the node
    found ([mkdir]). *)
Fixpoint walk (links : nat) (follow : bool) (t : node) (cur comps : list string)
  : found :=
  match stretch t cur comps with
  | Through p target rest =>
      if negb follow && match rest with [] => true | _ :: _ => false end
      then At p
      else
        match links with
        | O => Failed ELOOP
        | S links' =>
            if target =? "" then Failed ENOENT
            else
              walk links' follow t
                   (if PosixPath.isabs target then [] else removelast p)
                   (PosixPath.split PosixPath.sep target ++ rest)
        end
  | r => r
  end.

(** The observable world of one extraction. *)
Record world := mkWorld {
  tree : node;                    (** the root directory *)
  cwd : string;                   (** [os.getcwd()] *)
  errors_log : list string;       (** records of [error_logger], oldest first *)
  info_log : list string          (** records of [info_logger], oldest first *)
}.

Definition set_tree (t : node) (w : world) : world :=
  mkWorld t (cwd w) (errors_log w) (info_log w).
Definition set_errors_log (l : list string) (w : world) : world :=
  mkWorld (tree w) (cwd w) l (info_log w).
Definition set_info_log (l : list string) (w : world) : world :=
  mkWorld (tree w) (cwd w) (errors_log w) l.

Definition IO (A : Type) : Type := Py.M world A.

Module Log.
(** [error_logger.error(msg)] *)
Definition error (msg : string) : IO unit :=
  Py.modify (fun w => set_errors_log (errors_log w ++ [msg]) w).

(** [info_logger.info(msg)] *)
Definition info (msg : string) : IO unit :=
  Py.modify (fun w => set_info_log (info_log w ++ [msg]) w).
End Log.

Module Os.
Open Scope py_scope.

(** Where the operating system finds [path]: the walk starts at the root
    for an absolute path and at the working directory otherwise. *)
Definition locate (follow : bool) (w : world) (path : string) : found :=
  if path =? "" then Failed ENOENT
  else
    walk max_links follow (tree w)
         (if PosixPath.isabs path then [] else PosixPath.components (cwd w))
         (PosixPath.split PosixPath.sep path).

(** [os.stat(path)], as far as the node found. *)
Definition stat (w : world) (path : string) : option node :=
  match locate true w path with
  | At p => lookup p (tree w)
  | _ => None
  end.

(** [os.path.exists(path)] *)
Definition path_exists (path : string) : IO bool :=
  w <- Py.get ;;
  Py.ret (match stat w path with Some _ => true | None => false end).

(** [os.path.isdir(path)] *)
Definition path_isdir (path : string) : IO bool :=
  w <- Py.get ;;
  Py.ret (match stat w path with Some (Dir _) => true | _ => false end).

(** The [OSError] of an error number. *)
Definition os_error {A} (e : errno) (path : string) : IO A :=
  Py.raise
    (Py.Exception
       match e with
       | ENOENT => Py.FileNotFoundError
       | ENOTDIR => Py.NotADirectoryError
       | EISDIR => Py.IsADirectoryError
       | EEXIST => Py.FileExistsError
       | ELOOP => Py.OSError
       end path).

(** Only slashes follow: the components left are empty. *)
Definition trailing (rest : list string) : bool :=
  forallb (fun c => c =? "") rest.

(** [os.mkdir(path)]: the name must be free, a symbolic link there is in
    the way as well. *)
Definition mkdir (path : string) : IO unit :=
  w <- Py.get ;;
  match locate false w path with
  | At _ => os_error EEXIST path
  | Absent p rest =>
      if trailing rest then
        match place p (Dir []) (tree w) with
        | Some t => Py.put (set_tree t w)
        | None => os_error ENOENT path
        end
      else os_error ENOENT path
  | Through _ _ _ => os_error ELOOP path
  | Failed e => os_error e path
  end.

(** [os.path.split(p)] *)
Definition path_split (p : string) : string * string :=
  (PosixPath.dirname p, PosixPath.basename p).

(** [os.makedirs(name, exist_ok=True)] after CPython's [os.py]: the
    missing ancestors are made first, by the same function on the head of
    the name, then [mkdir] makes the directory, and its [OSError] is
    dropped when the name leads to a directory.  Every call is on a
    shorter name: [fuel] bounds the depth of the calls. *)
Fixpoint makedirs_within (fuel : nat) (name : string) : IO unit :=
  let '(head, tail) := path_split name in
  let '(head, tail) := if tail =? "" then path_split head else (head, tail) in
  head_exists <- path_exists head ;;
  done <-
    (if negb (head =? "") && negb (tail =? "") && negb head_exists then
       match fuel with
       | O => Py.raise (Py.Exception Py.RuntimeError "makedirs: out of fuel")
       | S fuel' =>
           Py.try_except
             (makedirs_within fuel' head)
             (fun e => Py.is_instance e [Py.FileExistsError])
             (fun _ => Py.ret tt) ;;
           Py.ret (tail =? ".")
       end
     else Py.ret false) ;;
  if done then Py.ret tt
  else
    Py.try_except
      (mkdir name)
      (fun e => Py.is_instance e [Py.OSError])
      (fun e =>
         isdir <- path_isdir name ;;
         if negb isdir then Py.raise e else Py.ret tt).

Definition makedirs (name : string) : IO unit :=
  makedirs_within (String.length name) name.

(** [with open(path, 'rb') as f: f.read()] *)
Definition read_bytes (path : string) : IO Fs.bytes :=
  w <- Py.get ;;
  match locate true w path with
  | At p =>
      match lookup p (tree w) with
      | Some (File data) => Py.ret data
      | Some (Dir _) => os_error EISDIR path
      | _ => os_error ENOENT path
      end
  | Absent _ _ => os_error ENOENT path
  | Through _ _ _ => os_error ELOOP path
  | Failed e => os_error e path
  end.

(** [with open(path, 'wb') as f: f.write(data)]: the file is made when
    its name is free, also at the end of a symbolic link that leads to a
    free name. *)
Definition write_bytes (path : string) (data : Fs.bytes) : IO unit :=
  w <- Py.get ;;
  match locate true w path with
  | At p =>
      match lookup p (tree w), place p (File data) (tree w) with
      | Some (File _), Some t => Py.put (set_tree t w)
      | _, _ => os_error EISDIR path
      end
  | Absent p rest =>
      match rest, place p (File data) (tree w) with
      | [], Some t => Py.put (set_tree t w)
      | [], None => os_error ENOENT path
      | _ :: _, _ => os_error (if trailing rest then EISDIR else ENOENT) path
      end
  | Through _ _ _ => os_error ELOOP path
  | Failed e => os_error e path
  end.

End Os.

(** [backupxLib/extract_zip_archive.py] *)
Module ExtractZip.
Open Scope py_scope.

Definition is_within_directory (base_dir target_path : string) : IO bool :=
  w <- Py.get ;;
  let base_dir := PosixPath.abspath (cwd w) base_dir in
  let target_path := PosixPath.abspath (cwd w) target_path in
  a <- Py.lift (PosixPath.commonpath [base_dir]) ;;
  b <- Py.lift (PosixPath.commonpath [base_dir; target_path]) ;;
  Py.ret (a =? b).

Section WithLibraries.
Context {L : Libraries}.

(** [pyzipper.AESZipFile(archive_name, 'r')] *)
Definition open_zip (archive_name : string) : IO Zip.archive :=
  data <- Os.read_bytes archive_name ;;
  match zip_read data with
  | Some a => Py.ret a
  | None => Py.raise (Py.Exception Py.BadArchive "File is not a zip file")
  end.

(** The body of [for member in archive.namelist()]. *)
Definition extract_member (archive : Zip.archive) (destination : string)
           (password : option string) (member : string) : IO unit :=
  let target_path := PosixPath.join destination member in
  ok <- is_within_directory destination target_path ;;
  (if negb ok then
     Log.error ("Zip-Slip attempt detected: " +++ member) ;;
     Py.sys_exit 1
   else Py.ret tt) ;;
  Os.makedirs (PosixPath.dirname target_path) ;;
  data <- Py.lift (Zip.read archive password member) ;;
  Os.write_bytes target_path data.

Definition extract_zip_aes (archive_name destination : string)
           (password : option string) : IO unit :=
  Py.try_except
    (archive <- open_zip archive_name ;;
     Py.for_each (Zip.namelist archive)
                 (extract_member archive destination password) ;;
     Log.info ("Archive '" +++ archive_name
               +++ "' extracted successfully to '" +++ destination +++ "'."))
    Py.is_Exception
    (fun error =>
       Log.error ("Error extracting archive '" +++ archive_name +++ "': "
                  +++ Py.str_exn error) ;;
       Py.sys_exit 1).
End WithLibraries.
End ExtractZip.

End Linked.

(* ===================================================================== *)
(** * Notions used to state the properties                                 *)
(* ===================================================================== *)

(** The location of [target] is equal to or nested under that of [base]:
    the components of [base], made absolute and normalised, start those of
    [target]. *)
Definition nested_under (w : world) (base target : string) : bool :=
  Fs.is_prefix
    (PosixPath.components (PosixPath.abspath (cwd w) base))
    (PosixPath.components (PosixPath.abspath (cwd w) target)).

(** The path [target] is [base] or below it as far as the strings tell:
    the components of [base], made absolute and normalised as
    [os.path.abspath] does, start those of [target].  Symbolic links play
    no part in it. *)
Definition textually_under (cwd base target : string) : bool :=
  Fs.is_prefix
    (PosixPath.components (PosixPath.abspath cwd base))
    (PosixPath.components (PosixPath.abspath cwd target)).

(** A computation that leaves the working directory alone and raises
    nothing but an [Exception]. *)
Definition tame {A} (m : Linked.IO A) : Prop :=
  forall w, Linked.cwd (snd (m w)) = Linked.cwd w /\
            forall e, fst (m w) = Py.Raise e -> Py.is_Exception e = true.

(** What a step of the extraction may raise: an [Exception], or the
    [sys.exit(1)] of the containment test. *)
Definition extraction_error (e : Py.exn) : Prop :=
  Py.is_Exception e = true \/ e = Py.SystemExit 1.





(** What a path leads to, as far as a reader of the tree can tell: nothing,
    a directory, or a regular file with its content. *)
Definition kind (n : option Fs.node) : option (option Fs.bytes) :=
  match n with
  | None => None
  | Some (Fs.Dir _) => Some None
  | Some (Fs.File data) => Some (Some data)
  end.

Fixpoint distinct (names : list string) : bool :=
  match names with
  | [] => true
  | x :: names' => negb (existsb (String.eqb x) names') && distinct names'
  end.

(** A tree as a file system holds it: the entries of a directory have
    names a path can be made of, and no two of them share a name. *)
Fixpoint well_formed (n : Fs.node) : bool :=
  match n with
  | Fs.File _ => true
  | Fs.Dir es =>
      distinct (map fst es)
      && (fix all (es : list (string * Fs.node)) : bool :=
            match es with
            | [] => true
            | (name, child) :: es' =>
                PosixPath.valid_name name && well_formed child && all es'
            end) es
  end.

(** The regular files among the entries of the directory at [rel], each
    under its path relative to the parent of the archived directory. *)
Definition files_in (rel : list string) (es : list (string * Fs.node))
  : list (string * Fs.bytes) :=
  flat_map (fun e => match snd e with
                     | Fs.File data => [(PosixPath.rel_of (rel ++ [fst e]), data)]
                     | Fs.Dir _ => []
                     end) es.

(** The entries the specification gives the archive of a directory: every
    regular file below it, under its path relative to the parent of the
    directory, so that the name of the directory itself comes first.
    [rel] is the path of [n] relative to that parent. *)
Fixpoint archived (rel : list string) (n : Fs.node) {struct n}
  : list (string * Fs.bytes) :=
  match n with
  | Fs.File _ => []
  | Fs.Dir es =>
      files_in rel es ++
      (fix below (es : list (string * Fs.node)) : list (string * Fs.bytes) :=
         match es with
         | [] => []
         | (name, child) :: es' =>
             match child with
             | Fs.Dir _ => archived (rel ++ [name]) child
             | Fs.File _ => []
             end ++ below es'
         end) es
  end.

(** The directory [Dir es] has a regular file at [q] or below it. *)
Definition holds_file (es : list (string * Fs.node)) (q : list string) : Prop :=
  exists r c, Fs.lookup (q ++ r) (Fs.Dir es) = Some (Fs.File c).

(** What the extraction of the archive of the directory [Dir es], named
    [top], keeps true of the tree while it fills the destination [dcs]: the
    destination is a directory, and below [top] in it there is nothing that
    the archived directory does not have, and no directory but for a
    regular file of the archived directory. *)
Definition partial_copy (dcs : list string) (top : string)
           (es : list (string * Fs.node)) (t : Fs.node) : Prop :=
  Fs.is_dir (Fs.lookup dcs t) = true /\
  (forall q c, Fs.lookup (dcs ++ top :: q) t = Some (Fs.File c) ->
               Fs.lookup q (Fs.Dir es) = Some (Fs.File c)) /\
  (forall q, Fs.is_dir (Fs.lookup (dcs ++ top :: q) t) = true ->
             Fs.is_dir (Fs.lookup q (Fs.Dir es)) = true /\ holds_file es q).

(** The files of the members whose names are in [S] are in place. *)
Definition extracted (dcs : list string) (top : string)
           (es : list (string * Fs.node)) (S : string -> Prop) (t : Fs.node)
  : Prop :=
  forall q c, S (PosixPath.rel_of (top :: q)) ->
              Fs.lookup q (Fs.Dir es) = Some (Fs.File c) ->
              Fs.lookup (dcs ++ top :: q) t = Some (Fs.File c).

(** The ZIP library reads back the archive it wrote. *)
Definition reads_back (L : Libraries) : Prop :=
  forall a : Zip.archive, zip_read (zip_write a) = Some a.

(** The archive of the directory [Dir es] named [top]: a member for every
    regular file below it, encrypted when a password is given. *)
Definition archive_of (password : option string) (top : string)
           (es : list (string * Fs.node)) : Zip.archive :=
  Zip.mkArchive (if Zip.truthy password then password else None)
                (archived [top] (Fs.Dir es)).

(** The record a field at or over its limit leaves in the error log. *)
Definition security_record (record : string) : Prop :=
  prefix "[SECURITY] Field '" record = true.

(** A run that started in the world [w] and ended in [sys.exit(1)] after
    it appended such a record to [logs/errors.log], and did nothing else. *)
Definition aborted_with_record {A} (r : Py.outcome A * world) (w : world) : Prop :=
  exists record,
    security_record record /\
    r = (Py.Raise (Py.SystemExit 1),
         set_errors_log (errors_log w ++ [record]) w).

(** [field_limits[name]] in [backupx.py]. *)
Definition backupx_max (name : string) : nat :=
  match find (fun e => fst e =? name) Backupx.field_limits with
  | Some e => snd e
  | None => O
  end.

(** [len(str(value))] after [value = '' if not value else value]. *)
Definition backupx_len (v : Backupx.value) : nat :=
  PyStr.len (Backupx.str (if Backupx.falsy v then Backupx.VStr "" else v)).

(** What the sweep of [delete_backups] reads in the name of a regular
    file: nothing when the name, less its extension, has fewer than three
    parts between [_]; otherwise what [strptime] makes of the second and
    third parts. *)
Definition name_time (file : string) : option (Py.outcome Z) :=
  let parts := PosixPath.split "_" (fst (PosixPath.splitext file)) in
  if (List.length parts <? 3)%nat then None
  else Some (Retention.strptime (nth 1 parts "" +++ "_" +++ nth 2 parts "")).

(** The entries a sweep with the given threshold leaves of a listing: it
    removes the regular files whose names carry a moment before the
    threshold, and ends at the first regular file whose name has three
    parts and no moment. *)
Fixpoint swept (threshold : Z) (es : list (string * Fs.node))
  : list (string * Fs.node) :=
  match es with
  | [] => []
  | (name, n) :: es' =>
      match n, name_time name with
      | Fs.File _, Some (Py.Ret t) =>
          if (t <? threshold)%Z then swept threshold es'
          else (name, n) :: swept threshold es'
      | Fs.File _, Some (Py.Raise _) => (name, n) :: es'
      | _, _ => (name, n) :: swept threshold es'
      end
  end.

(** The records of the deletions of such a sweep. *)
Fixpoint sweep_records (threshold : Z) (es : list (string * Fs.node))
  : list string :=
  match es with
  | [] => []
  | (name, n) :: es' =>
      match n, name_time name with
      | Fs.File _, Some (Py.Ret t) =>
          if (t <? threshold)%Z
          then ("Deleted old backup: " +++ name) :: sweep_records threshold es'
          else sweep_records threshold es'
      | Fs.File _, Some (Py.Raise _) => []
      | _, _ => sweep_records threshold es'
      end
  end.

(** The exception that ends such a sweep, if any. *)
Fixpoint sweep_stop (threshold : Z) (es : list (string * Fs.node))
  : option Py.exn :=
  match es with
  | [] => None
  | (name, n) :: es' =>
      match n, name_time name with
      | Fs.File _, Some (Py.Raise e) => Some e
      | _, _ => sweep_stop threshold es'
      end
  end.

(** A regular file whose name carries a moment before the threshold. *)
Definition expired (threshold : Z) (e : string * Fs.node) : bool :=
  match snd e, name_time (fst e) with
  | Fs.File _, Some (Py.Ret t) => (t <? threshold)%Z
  | _, _ => false
  end.

(** A string without [/], [.], [_] and [-]. *)
Definition plain (s : string) : bool :=
  negb (PosixPath.contains "/" s) && negb (PosixPath.contains "." s)
  && negb (PosixPath.contains "_" s) && negb (PosixPath.contains "-" s).

(** The field of a timestamp reads [s] as the number [n]. *)
Definition reads (field : string -> option Z) (s : string) (n : Z) : bool :=
  match field s with
  | Some v => (v =? n)%Z
  | None => false
  end.

(** A string of ASCII characters: on such text the bytes of the model are
    the characters of Python, a digit is one of [0] to [9], and
    [PyStr.lower] is [str.lower]. *)
Definition ascii_only (s : string) : bool :=
  forallb (fun c => (nat_of_ascii c <? 128)%nat) (list_ascii_of_string s).

(* ===================================================================== *)
(** * Concrete worlds and inputs used in examples                          *)
(* ===================================================================== *)

Module Examples.
Import Fs.

(** A world with the given tree and working directory, empty logs, a
    constant entropy source and an SSH server that accepts. *)
Definition bare_world (t : node) (dir : string) : world :=
  mkWorld t dir [] [] [] 0%Z [] (fun _ => x00) 0 (fun _ => None) 0.

(** Libraries that read the given archive and names from whatever file
    they are given, and extract nothing. *)
Definition fixed_libraries (a : Zip.archive) (names : list string) : Libraries :=
  {| zip_read := fun _ => Some a;
     zip_write := fun _ => [];
     sevenz_getnames := fun _ => Some names;
     sevenz_extractall := fun _ _ => Py.ret tt;
     set_order := nodup string_dec |}.

(** An archive with a member that leaves the destination. *)
Definition evil_archive : Zip.archive :=
  Zip.mkArchive None
    [("docs/readme.txt", list_byte_of_string "read me");
     ("../../etc/evil.txt", list_byte_of_string "evil");
     ("docs/later.txt", list_byte_of_string "later")].

(** [/srv/in.zip] and an empty directory [/srv/out]. *)
Definition restore_world : world :=
  bare_world (Dir [("srv", Dir [("in.zip", File []); ("in.7z", File []);
                                ("out", Dir [])])]) "/srv".







(** A container format for the examples.  A sequence of bytes is written
    with [x01] before each byte and [x00] at its end; an archive is the
    password, if any, then the members, each announced by [x01] and made of
    its name and its content, then [x00]. *)
Definition toy_bytes (l : list byte) : list byte :=
  flat_map (fun b => [x01; b]) l ++ [x00].

Fixpoint toy_parse_bytes (s : list byte) : option (list byte * list byte) :=
  match s with
  | [] => None
  | tag :: rest =>
      if Byte.eqb tag x00 then Some ([], rest)
      else
        match rest with
        | [] => None
        | b :: rest' =>
            match toy_parse_bytes rest' with
            | Some (l, r) => Some (b :: l, r)
            | None => None
            end
        end
  end.

Definition toy_member (e : string * list byte) : list byte :=
  x01 :: toy_bytes (list_byte_of_string (fst e)) ++ toy_bytes (snd e).

Definition toy_write (a : Zip.archive) : list byte :=
  match Zip.encryption a with
  | None => [x00]
  | Some pw => x01 :: toy_bytes (list_byte_of_string pw)
  end ++ flat_map toy_member (Zip.members a) ++ [x00].

Fixpoint toy_parse_members (fuel : nat) (s : list byte)
  : option (list (string * list byte)) :=
  match fuel, s with
  | S fuel', tag :: rest =>
      if Byte.eqb tag x00 then
        match rest with
        | [] => Some []
        | _ :: _ => None
        end
      else
        match toy_parse_bytes rest with
        | Some (name, r1) =>
            match toy_parse_bytes r1 with
            | Some (data, r2) =>
                match toy_parse_members fuel' r2 with
                | Some ms => Some ((string_of_list_byte name, data) :: ms)
                | None => None
                end
            | None => None
            end
        | None => None
        end
  | _, _ => None
  end.

Definition toy_read (s : list byte) : option Zip.archive :=
  match s with
  | [] => None
  | tag :: rest =>
      if Byte.eqb tag x00 then
        option_map (Zip.mkArchive None)
                   (toy_parse_members (List.length rest) rest)
      else
        match toy_parse_bytes rest with
        | Some (pw, r) =>
            option_map (Zip.mkArchive (Some (string_of_list_byte pw)))
                       (toy_parse_members (List.length r) r)
        | None => None
        end
  end.

(** Libraries with this format for ZIP, none for 7z, and sets iterated in
    the order of first insertion. *)
Definition toy_libraries : Libraries :=
  {| zip_read := toy_read;
     zip_write := toy_write;
     sevenz_getnames := fun _ => None;
     sevenz_extractall := fun _ _ => Py.ret tt;
     set_order := nodup string_dec |}.

(** [/home/ops/data] with two files and a directory without files,
    [/srv/backups] and [/srv/out]. *)
Definition ops_data : list (string * node) :=
  [("a.txt", File (list_byte_of_string "alpha"));
   ("sub", Dir [("b.txt", File (list_byte_of_string "beta"))]);
   ("empty", Dir [])].

Definition backup_world : world :=
  bare_world
    (Dir [("home", Dir [("ops", Dir [("data", Dir ops_data)])]);
          ("srv", Dir [("backups", Dir []); ("out", Dir [])])])
    "/srv".

(** Bytes in hexadecimal, two digits each. *)
Definition hex_digit (n : N) : ascii :=
  ascii_of_N (if (n <? 10)%N then 48 + n else 87 + n).

Fixpoint hex (l : list byte) : string :=
  match l with
  | [] => ""
  | b :: l' =>
      let n := Byte.to_N b in
      String (hex_digit (n / 16)) (String (hex_digit (n mod 16)) (hex l'))
  end.

(** The bytes [0, step, 2 * step, ...], [n] of them. *)
Definition byte_range (n step : nat) : list byte :=
  map (fun i => Crypto.byte_of_N (N.of_nat (step * i))) (seq 0 n).

(** An SSH server that refuses the first two connections. *)
Definition flaky_server (n : nat) : option string :=
  if (n <? 2)%nat then Some "timed out" else None.

Definition flaky_world : world :=
  mkWorld (Dir []) "/" [] [] [] 0%Z [] (fun _ => x00) 0 flaky_server 0.

(** [/srv/backup.7z], and an entropy source that counts 0, 1, 2, ... *)
Definition plain_world : world :=
  mkWorld (Dir [("srv", Dir [("backup.7z",
                              File (list_byte_of_string "backup data"))])])
          "/" [] [] [] 0%Z []
          (fun i => Crypto.byte_of_N (N.of_nat i)) 0 (fun _ => None) 0.

(** The world after [encrypt_file("/srv/backup.7z", "correct horse")]. *)
Definition encrypted_world : world :=
  snd (Aes.encrypt_file "/srv/backup.7z" "correct horse" plain_world).

(** [/srv/backup.7z.aes] with the given content. *)
Definition aes_world (content : list byte) : world :=
  bare_world (Dir [("srv", Dir [("backup.7z.aes", File content)])]) "/".

(** A working directory [/app] that holds [config.ini] only. *)
Definition fresh_install : world :=
  bare_world (Dir [("app", Dir [("config.ini", File [])])]) "/app".

(** Settings whose [compression] has 20 characters. *)
Definition long_settings : Backupx.settings :=
  Backupx.mkSettings "/home/ops/data" "/app/backups/data.zip"
    "zipzipzipzipzipzipzi" 6 None None None None None None None.

(** Arguments whose archive path has 1024 characters. *)
Definition long_arguments : Decypherx.arguments :=
  Decypherx.mkArguments
    (string_of_list_ascii (repeat "a"%char 1020) +++ ".zip")
    None None false false.

(** 2024-06-01 12:00:00 *)
Definition noon_2024_06_01 : Z :=
  ((Retention.ymd2ord 2024 6 1 * 86400 + 12 * 3600) * 1000000)%Z.

(** A [backups] directory under [/srv]: its listing, in the order
    [os.listdir] reports it. *)
Definition sweep_world (listing : list (string * node)) : world :=
  mkWorld (Dir [("srv", Dir [("backups", Dir listing)])]) "/srv"
          [] [] [] noon_2024_06_01 [] (fun _ => x00) 0 (fun _ => None) 0.

Definition stray_file : string * node := ("my_notes_final.txt", File []).
Definition old_backup : string * node := ("a_2024-01-01_00-00-00.zip", File []).
Definition recent_backup : string * node := ("a_2024-05-20_00-00-00.zip", File []).

(** An archive with one member, below the entry [link] of the destination. *)
Definition link_archive : Zip.archive :=
  Zip.mkArchive None [("link/evil.txt", list_byte_of_string "evil")].

(** [/etc], the archive at [/srv/in.zip], and a destination [/srv/out]
    that holds a symbolic link to [/etc]. *)
Definition linked_world : Linked.world :=
  Linked.mkWorld
    (Linked.Dir
       [("etc", Linked.Dir []);
        ("srv", Linked.Dir
                  [("in.zip", Linked.File (toy_write link_archive));
                   ("out", Linked.Dir [("link", Linked.Link "/etc")])])])
    "/srv" [] [].

(** [/srv/in.zip] holds the archive with a member that leaves the
    destination; the destination [/srv/out] is empty. *)
Definition linked_restore_world : Linked.world :=
  Linked.mkWorld
    (Linked.Dir
       [("etc", Linked.Dir []);
        ("srv", Linked.Dir
                  [("in.zip", Linked.File (toy_write evil_archive));
                   ("out", Linked.Dir [])])])
    "/srv" [] [].

End Examples.

Unset Implicit Arguments.

(* ===================================================================== *)
(** * The cryptographic definitions on published vectors                  *)
(* ===================================================================== *)

Section PublishedVectors.
Import Crypto Examples.

(** FIPS 180-4: the digests of "abc" and of the empty message. *)
Example sha256_abc :
  hex (sha256 (list_byte_of_string "abc")) =
  "ba7816bf8f01cfea414140de5dae2223b00361a396177a9cb410ff61f20015ad".
Proof. vm_compute. reflexivity. Qed.

Example sha256_empty :
  hex (sha256 []) =
  "e3b0c44298fc1c149afbf4c8996fb92427ae41e4649b934ca495991b7852b855".
Proof. vm_compute. reflexivity. Qed.

(** A message of two blocks. *)
Example sha256_two_blocks :
  hex (sha256 (list_byte_of_string
                 "abcdbcdecdefdefgefghfghighijhijkijkljklmklmnlmnomnopnopq")) =
  "248d6a61d20638b8e5c026930c3e6039a33ce45964ff2167f6ecedd419db06c1".
Proof. vm_compute. reflexivity. Qed.

(** FIPS 197, appendix C.3: AES-256 on the key [00 01 .. 1f] and the block
    [00 11 .. ff], and back. *)
Example aes256_appendix_c3 :
  hex (aes_encrypt_block (byte_range 32 1) (byte_range 16 17)) =
  "8ea2b7ca516745bfeafc49904b496089".
Proof. vm_compute. reflexivity. Qed.

Example aes256_appendix_c3_inverse :
  aes_decrypt_block (byte_range 32 1)
    (aes_encrypt_block (byte_range 32 1) (byte_range 16 17)) =
  byte_range 16 17.
Proof. vm_compute. reflexivity. Qed.

End PublishedVectors.

(* ===================================================================== *)
(** * Properties of the SSH connection loop                                *)
(* ===================================================================== *)

Section SshRetry.
Import SSHBackupManager Backupx.

(** [create_ssh_client] turns every failure of paramiko into
    [sys.exit(1)]: no [Exception] leaves it. *)
Lemma create_ssh_client_failure w host port user key msg :
  ssh_server w (ssh_calls w) = Some msg ->
  create_ssh_client host port user key w =
    (Py.Raise (Py.SystemExit 1),
     set_errors_log (errors_log w ++ ["SSH connection failed: " +++ msg])
                    (set_ssh_calls (S (ssh_calls w)) w)).
Proof.
  intros H.
  unfold create_ssh_client, paramiko_connect, Py.try_except, Py.bind,
    Py.get, Py.put.
  cbn. rewrite H. reflexivity.
Qed.

(** The first refused connection ends the run: the handler of
    [establish_ssh_connection] only catches [Exception], and what reaches
    it is [SystemExit].  No second attempt is made and nothing sleeps. *)
Lemma first_failure_is_fatal w host port user key msg :
  ssh_server w (ssh_calls w) = Some msg ->
  establish_ssh_connection host port user key w =
    (Py.Raise (Py.SystemExit 1),
     set_errors_log (errors_log w ++ ["SSH connection failed: " +++ msg])
                    (set_ssh_calls (S (ssh_calls w)) w)).
Proof.
  intros H.
  unfold establish_ssh_connection. cbn [connection_attempts].
  unfold Py.bind at 1. unfold Py.try_except at 1. unfold Py.bind at 1.
  rewrite (create_ssh_client_failure w host port user key msg H). reflexivity.
Qed.

(** C5, at the failing input: the server refuses two connections and would
    accept the third.  The run ends with exit status 1 after one attempt,
    without sleeping and without the records of the retry loop. *)
Theorem ssh_retry_never_happens :
  let r := establish_ssh_connection "backup.example.org" 22 "ops"
             "/home/ops/.ssh/id_rsa" Examples.flaky_world in
  Examples.flaky_server 2 = None /\
  fst r = Py.Raise (Py.SystemExit 1) /\
  ssh_calls (snd r) = 1%nat /\
  sleeps (snd r) = [] /\
  errors_log (snd r) = ["SSH connection failed: timed out"].
Proof. cbv zeta. repeat split. Qed.

End SshRetry.

(* ===================================================================== *)
(** * Properties of the retention sweep                                    *)
(* ===================================================================== *)

Section RetentionSweep.
Import Retention Examples.

(** The scenario of the specification: of an old and a recent backup only
    the old one is deleted. *)
Example sweep_deletes_only_the_old_backup :
  let r := delete_backups "backups" (sweep_world [old_backup; recent_backup]) in
  fst r = Py.Ret tt /\
  tree (snd r) = tree (sweep_world [recent_backup]) /\
  info_log (snd r) = ["Deleted old backup: a_2024-01-01_00-00-00.zip"].
Proof. cbv zeta. repeat split. Qed.

(** C6, at the failing input: a file whose second and third parts are no
    timestamp is listed before a backup that is older than 90 days.  The
    [ValueError] of [strptime] leaves the loop and is caught by the handler
    of the whole function: the sweep ends there, the old backup after it is
    kept.  Listed the other way round, the old backup is deleted. *)
Theorem sweep_stops_at_unparseable_name :
  let r := delete_backups "backups" (sweep_world [stray_file; old_backup]) in
  let r' := delete_backups "backups" (sweep_world [old_backup; stray_file]) in
  fst r = Py.Ret tt /\
  tree (snd r) = tree (sweep_world [stray_file; old_backup]) /\
  info_log (snd r) = [] /\
  errors_log (snd r) =
    ["Error: time data 'notes_final' does not match format '%Y-%m-%d_%H-%M-%S'"] /\
  fst r' = Py.Ret tt /\
  tree (snd r') = tree (sweep_world [stray_file]) /\
  info_log (snd r') = ["Deleted old backup: a_2024-01-01_00-00-00.zip"].
Proof. cbv zeta. repeat split. Qed.

End RetentionSweep.

(* ===================================================================== *)
(** * Bytes, AES and its inverse *)
(* ===================================================================== *)

Section AesAlgebra.
Import Crypto.

Lemma to_bits_bxor a b :
  Byte.to_bits (bxor a b) = bxor_bits (Byte.to_bits a) (Byte.to_bits b).
Proof.
  unfold bxor, bxor_bits.
  destruct (Byte.to_bits a) as (a0 & a1 & a2 & a3 & a4 & a5 & a6 & a7).
  destruct (Byte.to_bits b) as (b0 & b1 & b2 & b3 & b4 & b5 & b6 & b7).
  apply Byte.to_bits_of_bits.
Qed.

Lemma to_bits_xtime a : Byte.to_bits (xtime a) = xtime_bits (Byte.to_bits a).
Proof.
  unfold xtime, xtime_bits.
  destruct (Byte.to_bits a) as (a0 & a1 & a2 & a3 & a4 & a5 & a6 & a7).
  apply Byte.to_bits_of_bits.
Qed.

Lemma to_bits_inj a b : Byte.to_bits a = Byte.to_bits b -> a = b.
Proof.
  intros H. rewrite <- (Byte.of_bits_to_bits a), <- (Byte.of_bits_to_bits b).
  now rewrite H.
Qed.

Lemma bxor_cancel a b : bxor (bxor a b) b = a.
Proof.
  apply to_bits_inj. rewrite !to_bits_bxor.
  destruct (Byte.to_bits a) as (a0 & a1 & a2 & a3 & a4 & a5 & a6 & a7).
  destruct (Byte.to_bits b) as (b0 & b1 & b2 & b3 & b4 & b5 & b6 & b7).
  cbn. repeat f_equal; btauto.
Qed.

Ltac push_bits :=
  unfold mul14, mul13, mul11, mul9, mul8, mul4, mul3, mul2;
  repeat (rewrite to_bits_bxor || rewrite to_bits_xtime).

Lemma inv_mix_column_mix_column c : inv_mix_column (mix_column c) = c.
Proof.
  destruct c as [[[a0 a1] a2] a3].
  unfold inv_mix_column, mix_column.
  repeat match goal with |- (_, _) = (_, _) => f_equal end;
    apply to_bits_inj; push_bits;
    destruct (Byte.to_bits a0) as (p0 & p1 & p2 & p3 & p4 & p5 & p6 & p7);
    destruct (Byte.to_bits a1) as (q0 & q1 & q2 & q3 & q4 & q5 & q6 & q7);
    destruct (Byte.to_bits a2) as (r0 & r1 & r2 & r3 & r4 & r5 & r6 & r7);
    destruct (Byte.to_bits a3) as (s0 & s1 & s2 & s3 & s4 & s5 & s6 & s7);
    cbn; repeat f_equal; btauto.
Qed.

Lemma inv_sbox_sbox b : inv_sbox (sbox b) = b.
Proof. destruct b; reflexivity. Qed.

Lemma inv_sub_bytes_sub_bytes s : inv_sub_bytes (sub_bytes s) = s.
Proof.
  destruct s as [[[[[[a0 a1] a2] a3] [[[b0 b1] b2] b3]] [[[c0 c1] c2] c3]]
                 [[[d0 d1] d2] d3]].
  unfold inv_sub_bytes, sub_bytes, state_map, col_map.
  now rewrite !inv_sbox_sbox.
Qed.

Lemma inv_shift_rows_shift_rows s : inv_shift_rows (shift_rows s) = s.
Proof.
  destruct s as [[[[[[a0 a1] a2] a3] [[[b0 b1] b2] b3]] [[[c0 c1] c2] c3]]
                 [[[d0 d1] d2] d3]].
  reflexivity.
Qed.

Lemma inv_mix_columns_mix_columns s : inv_mix_columns (mix_columns s) = s.
Proof.
  destruct s as [[[c0 c1] c2] c3].
  unfold inv_mix_columns, mix_columns, state_map.
  now rewrite !inv_mix_column_mix_column.
Qed.

Lemma col_xor_cancel c k : col_xor (col_xor c k) k = c.
Proof.
  destruct c as [[[a0 a1] a2] a3], k as [[[k0 k1] k2] k3].
  unfold col_xor. now rewrite !bxor_cancel.
Qed.

Lemma add_round_key_cancel rk s : add_round_key rk (add_round_key rk s) = s.
Proof.
  destruct s as [[[c0 c1] c2] c3], rk as [[[k0 k1] k2] k3].
  unfold add_round_key. now rewrite !col_xor_cancel.
Qed.

Lemma dec_rounds_enc_rounds rks s : dec_rounds rks (enc_rounds rks s) = s.
Proof.
  revert s. induction rks as [|rk rest IH]; intros s; [reflexivity|].
  destruct rest as [|rk' rest'].
  - cbn. now rewrite add_round_key_cancel, inv_shift_rows_shift_rows,
      inv_sub_bytes_sub_bytes.
  - change (enc_rounds (rk :: rk' :: rest') s)
      with (enc_rounds (rk' :: rest')
              (add_round_key rk (mix_columns (shift_rows (sub_bytes s))))).
    change (dec_rounds (rk :: rk' :: rest') ?x)
      with (inv_sub_bytes (inv_shift_rows (inv_mix_columns
              (add_round_key rk (dec_rounds (rk' :: rest') x))))).
    rewrite IH.
    now rewrite add_round_key_cancel, inv_mix_columns_mix_columns,
      inv_shift_rows_shift_rows, inv_sub_bytes_sub_bytes.
Qed.

(** [InvCipher] undoes [Cipher], whatever the round keys. *)
Lemma inv_cipher_cipher rks s : inv_cipher rks (cipher rks s) = s.
Proof.
  destruct rks as [|rk0 rest]; [reflexivity|].
  unfold inv_cipher, cipher.
  now rewrite dec_rounds_enc_rounds, add_round_key_cancel.
Qed.

Lemma length_block_of_state s : List.length (block_of_state s) = 16%nat.
Proof.
  destruct s as [[[[[[a0 a1] a2] a3] [[[b0 b1] b2] b3]] [[[c0 c1] c2] c3]]
                 [[[d0 d1] d2] d3]].
  reflexivity.
Qed.

Lemma state_of_block_of_state s : state_of_block (block_of_state s) = s.
Proof.
  destruct s as [[[[[[a0 a1] a2] a3] [[[b0 b1] b2] b3]] [[[c0 c1] c2] c3]]
                 [[[d0 d1] d2] d3]].
  reflexivity.
Qed.

Lemma block_of_state_of_block b :
  List.length b = 16%nat -> block_of_state (state_of_block b) = b.
Proof.
  intros H.
  do 16 (destruct b as [|? b]; [discriminate H|]).
  destruct b; [reflexivity | discriminate H].
Qed.

(** AES decryption of a block undoes its encryption under the same key. *)
Lemma aes_decrypt_encrypt_block key b :
  List.length b = 16%nat ->
  aes_decrypt_block key (aes_encrypt_block key b) = b.
Proof.
  intros H. unfold aes_decrypt_block, aes_encrypt_block.
  rewrite state_of_block_of_state, inv_cipher_cipher.
  now apply block_of_state_of_block.
Qed.

Lemma length_aes_encrypt_block key b :
  List.length (aes_encrypt_block key b) = 16%nat.
Proof. apply length_block_of_state. Qed.

End AesAlgebra.

(* ===================================================================== *)
(** * Chunks, chaining and padding *)
(* ===================================================================== *)

Section Chunks.
Import Crypto.
Context {A : Type}.

Lemma chunks_fuel_concat (n fuel : nat) (l : list A) :
  (0 < n)%nat -> (List.length l <= fuel)%nat ->
  List.concat (chunks_fuel fuel n l) = l.
Proof.
  intros Hn. revert l. induction fuel as [|fuel IH]; intros l Hl.
  - destruct l; [reflexivity | cbn in Hl; lia].
  - destruct l as [|x l']; [reflexivity|].
    cbn [chunks_fuel List.concat].
    rewrite IH.
    + apply firstn_skipn.
    + rewrite length_skipn. cbn [List.length] in *. lia.
Qed.

Lemma concat_chunks (n : nat) (l : list A) :
  (0 < n)%nat -> List.concat (chunks n l) = l.
Proof. intros Hn. apply chunks_fuel_concat; [assumption | apply le_n]. Qed.

Lemma chunks_fuel_full (n fuel k : nat) (l : list A) :
  (0 < n)%nat -> List.length l = (k * n)%nat -> (List.length l <= fuel)%nat ->
  Forall (fun c => List.length c = n) (chunks_fuel fuel n l).
Proof.
  intros Hn. revert k l. induction fuel as [|fuel IH]; intros k l Hk Hl.
  - constructor.
  - destruct l as [|x l']; [constructor|].
    cbn [chunks_fuel].
    destruct k as [|k]; [discriminate Hk|].
    constructor.
    + rewrite length_firstn. cbn [List.length] in *. lia.
    + apply (IH k).
      * rewrite length_skipn. cbn [List.length] in *. lia.
      * rewrite length_skipn. cbn [List.length] in *. lia.
Qed.

Lemma chunks_full (n k : nat) (l : list A) :
  (0 < n)%nat -> List.length l = (k * n)%nat ->
  Forall (fun c => List.length c = n) (chunks n l).
Proof. intros Hn Hk. unfold chunks. apply chunks_fuel_full with (k := k); auto. Qed.

Lemma chunks_fuel_of_concat (n fuel : nat) (bs : list (list A)) :
  (0 < n)%nat -> Forall (fun c => List.length c = n) bs ->
  (List.length (List.concat bs) <= fuel)%nat ->
  chunks_fuel fuel n (List.concat bs) = bs.
Proof.
  intros Hn. revert bs. induction fuel as [|fuel IH]; intros bs Hbs Hl.
  - destruct bs as [|b bs]; [reflexivity|].
    apply Forall_cons_iff in Hbs. destruct Hbs as [Hb _].
    cbn in Hl. rewrite length_app in Hl. lia.
  - destruct bs as [|b bs]; [reflexivity|].
    apply Forall_cons_iff in Hbs. destruct Hbs as [Hb Hbs'].
    cbn [List.concat] in *.
    destruct b as [|x b]; [cbn in Hb; lia|].
    cbn [chunks_fuel app].
    change (x :: b ++ List.concat bs) with ((x :: b) ++ List.concat bs).
    rewrite firstn_app, skipn_app, Hb, Nat.sub_diag, firstn_all2, skipn_all2
      by (rewrite Hb; apply le_n).
    rewrite firstn_O, app_nil_r, skipn_O. cbn [app].
    rewrite IH; [reflexivity | assumption |].
    rewrite length_app in Hl. cbn [List.length] in *. lia.
Qed.

Lemma chunks_of_concat (n : nat) (bs : list (list A)) :
  (0 < n)%nat -> Forall (fun c => List.length c = n) bs ->
  chunks n (List.concat bs) = bs.
Proof. intros. unfold chunks. apply chunks_fuel_of_concat; auto. Qed.

Lemma length_concat_full (n : nat) (bs : list (list A)) :
  Forall (fun c => List.length c = n) bs ->
  List.length (List.concat bs) = (List.length bs * n)%nat.
Proof.
  induction 1 as [|b bs Hb _ IH]; [reflexivity|].
  cbn. rewrite length_app, IH, Hb. reflexivity.
Qed.
End Chunks.

Section CbcRoundTrip.
Import Crypto.

Lemma xor_block_cancel (p prev : list byte) :
  List.length p = List.length prev -> xor_block (xor_block p prev) prev = p.
Proof.
  revert prev. induction p as [|x p IH]; intros [|y prev] H;
    try discriminate H; [reflexivity|].
  unfold xor_block in *. cbn. rewrite bxor_cancel. f_equal.
  apply IH. now injection H.
Qed.

Lemma length_xor_block (a b : list byte) :
  List.length a = List.length b -> List.length (xor_block a b) = List.length a.
Proof.
  intros H. unfold xor_block. rewrite length_map, length_combine. lia.
Qed.

Variables encrypt_block decrypt_block : list byte -> list byte.
Hypothesis decrypt_encrypt :
  forall b, List.length b = 16%nat -> decrypt_block (encrypt_block b) = b.
Hypothesis length_encrypt :
  forall b, List.length (encrypt_block b) = 16%nat.

Lemma cbc_encrypt_blocks_full prev blocks :
  Forall (fun c => List.length c = 16%nat)
         (cbc_encrypt_blocks encrypt_block prev blocks).
Proof.
  revert prev. induction blocks as [|p rest IH]; intros prev; cbn.
  - constructor.
  - constructor; [apply length_encrypt | apply IH].
Qed.

Lemma length_cbc_encrypt_blocks prev blocks :
  List.length (cbc_encrypt_blocks encrypt_block prev blocks) = List.length blocks.
Proof.
  revert prev. induction blocks as [|p rest IH]; intros prev; cbn; auto.
Qed.

Lemma cbc_decrypt_encrypt_blocks prev blocks :
  List.length prev = 16%nat ->
  Forall (fun c => List.length c = 16%nat) blocks ->
  cbc_decrypt_blocks decrypt_block prev
    (cbc_encrypt_blocks encrypt_block prev blocks) = blocks.
Proof.
  intros Hprev Hblocks. revert prev Hprev.
  induction Hblocks as [|p rest Hp _ IH]; intros prev Hprev; [reflexivity|].
  cbn. rewrite decrypt_encrypt
    by (rewrite length_xor_block; congruence).
  rewrite xor_block_cancel by congruence.
  f_equal. apply IH. apply length_encrypt.
Qed.
End CbcRoundTrip.

Section Padding.
Import Crypto.

Lemma to_nat_byte_of_N (k : nat) :
  (k < 256)%nat -> Byte.to_nat (byte_of_N (N.of_nat k)) = k.
Proof.
  intros H. unfold byte_of_N.
  assert (Hland : N.land (N.of_nat k) 0xff = N.of_nat k).
  { change 0xff%N with (N.ones 8). rewrite N.land_ones.
    apply N.mod_small. change (2 ^ 8)%N with 256%N. lia. }
  rewrite Hland.
  destruct (Byte.of_N (N.of_nat k)) as [b|] eqn:E.
  - apply Byte.to_of_N in E. rewrite Byte.to_nat_via_N, E.
    apply Nat2N.id.
  - apply Byte.of_N_None_iff in E. lia.
Qed.
End Padding.

(* ===================================================================== *)
(** * The file system tree *)
(* ===================================================================== *)

Section TreeFacts.
Import Fs.

Lemma find_set_entry_same c new es : find_entry c (set_entry c new es) = Some new.
Proof.
  induction es as [|[k n] es IH]; cbn.
  - now rewrite String.eqb_refl.
  - destruct (k =? c) eqn:E; cbn; rewrite E; auto.
Qed.

Lemma find_set_entry_other c c' new es :
  c <> c' -> find_entry c' (set_entry c new es) = find_entry c' es.
Proof.
  intros Hne. induction es as [|[k n] es IH]; cbn.
  - destruct (c =? c') eqn:E; [apply String.eqb_eq in E; contradiction | reflexivity].
  - destruct (k =? c) eqn:E; cbn.
    + apply String.eqb_eq in E. subst k.
      destruct (c =? c') eqn:E'; [apply String.eqb_eq in E'; contradiction | reflexivity].
    + destruct (k =? c'); auto.
Qed.



Lemma find_del_entry_other c c' es :
  c <> c' -> find_entry c' (del_entry c es) = find_entry c' es.
Proof.
  intros Hne. induction es as [|[k n] es IH]; cbn; [reflexivity|].
  destruct (k =? c) eqn:E.
  - apply String.eqb_eq in E. subst k.
    destruct (c =? c') eqn:E'; [apply String.eqb_eq in E'; contradiction | reflexivity].
  - cbn. destruct (k =? c'); auto.
Qed.

Lemma is_prefix_refl p : is_prefix p p = true.
Proof. induction p; cbn; [reflexivity|]. now rewrite String.eqb_refl. Qed.

Lemma is_prefix_app p q : is_prefix p (p ++ q) = true.
Proof. induction p; cbn; [reflexivity|]. now rewrite String.eqb_refl. Qed.

Lemma is_prefix_spec p q : is_prefix p q = true <-> exists r, q = p ++ r.
Proof.
  split.
  - revert q. induction p as [|x p IH]; intros q H.
    + now exists q.
    + destruct q as [|y q]; [discriminate|]. cbn in H.
      apply andb_true_iff in H. destruct H as [E H].
      apply String.eqb_eq in E. subst y.
      destruct (IH _ H) as [r ->]. now exists r.
  - intros [r ->]. apply is_prefix_app.
Qed.

(** Looking a path up after something was placed. *)
Lemma lookup_place_same p new n n' :
  place p new n = Some n' -> lookup p n' = Some new.
Proof.
  revert n n'. induction p as [|c p IH]; intros n n' H; cbn in *.
  - now injection H as <-.
  - destruct n as [|es]; [discriminate|].
    destruct (find_entry c es) as [child|] eqn:E.
    + destruct (place p new child) as [child'|] eqn:P; [|discriminate].
      injection H as <-. cbn. rewrite find_set_entry_same. eauto.
    + destruct p; [|discriminate]. injection H as <-.
      cbn. now rewrite find_set_entry_same.
Qed.

Lemma lookup_place_other p q new n n' :
  place p new n = Some n' ->
  is_prefix p q = false -> is_prefix q p = false ->
  lookup q n' = lookup q n.
Proof.
  revert q n n'. induction p as [|c p IH]; intros q n n' H Hpq Hqp.
  - discriminate Hpq.
  - destruct q as [|d q]; [discriminate Hqp|].
    cbn in H. destruct n as [|es]; [discriminate|].
    cbn in Hpq, Hqp.
    destruct (String.eqb_spec c d) as [->|Hne].
    + rewrite String.eqb_refl in Hqp. cbn in Hpq, Hqp.
      destruct (find_entry d es) as [child|] eqn:E.
      * destruct (place p new child) as [child'|] eqn:P; [|discriminate].
        injection H as <-. cbn. rewrite find_set_entry_same, E. eauto.
      * destruct p; [|discriminate]. discriminate Hpq.
    + assert (Hfind : forall x, find_entry d (set_entry c x es) = find_entry d es)
        by (intros; now apply find_set_entry_other).
      destruct (find_entry c es) as [child|] eqn:E.
      * destruct (place p new child) as [child'|] eqn:P; [|discriminate].
        injection H as <-. cbn. now rewrite Hfind.
      * destruct p; [|discriminate]. injection H as <-. cbn. now rewrite Hfind.
Qed.

(** What can be placed: the parent has to be a directory. *)
Lemma place_in_directory d c new n es :
  lookup d n = Some (Dir es) ->
  exists n', place (d ++ [c]) new n = Some n'.
Proof.
  revert n. induction d as [|x d IH]; intros n H; cbn in *.
  - injection H as ->. destruct (find_entry c es); eauto.
  - destruct n as [|es']; [discriminate|].
    destruct (find_entry x es') as [child|] eqn:E; [|discriminate].
    destruct (IH _ H) as [n' ->]. eauto.
Qed.

Lemma lookup_app p q n :
  lookup (p ++ q) n =
  match lookup p n with Some m => lookup q m | None => None end.
Proof.
  revert n. induction p as [|c p IH]; intros n; cbn; [reflexivity|].
  destruct n as [|es]; [reflexivity|].
  destruct (find_entry c es); auto.
Qed.

Lemma lookup_below_file p q n data :
  lookup p n = Some (File data) -> q <> [] -> lookup (p ++ q) n = None.
Proof.
  intros H Hq. rewrite lookup_app, H. destruct q; [contradiction | reflexivity].
Qed.

End TreeFacts.

(* ===================================================================== *)
(** * Strings and path components *)
(* ===================================================================== *)

Section StringFacts.
Import PosixPath.

Lemma append_nil_r s : s +++ "" = s.
Proof. induction s; cbn; congruence. Qed.

Lemma append_assoc a b c : (a +++ b) +++ c = a +++ b +++ c.
Proof. induction a; cbn; congruence. Qed.

Lemma length_append a b : String.length (a +++ b) = (String.length a + String.length b)%nat.
Proof. induction a; cbn; congruence. Qed.

Lemma append_eq_nil a b : a +++ b = "" -> a = "" /\ b = "".
Proof. destruct a; cbn; [auto | discriminate]. Qed.

Lemma contains_append c a b : contains c (a +++ b) = contains c a || contains c b.
Proof. induction a as [|x a IH]; cbn; [reflexivity|]. now rewrite IH, orb_assoc. Qed.

Lemma split_not_nil c s : split c s <> [].
Proof.
  induction s as [|a s IH]; cbn; [discriminate|].
  destruct (Ascii.eqb a c); [discriminate|].
  destruct (split c s); [contradiction | discriminate].
Qed.

Lemma split_no_sep c s : contains c s = false -> split c s = [s].
Proof.
  induction s as [|a s IH]; cbn; [reflexivity|].
  intros H. apply orb_false_iff in H. destruct H as [Ha Hs].
  rewrite Ha, (IH Hs). reflexivity.
Qed.

Lemma split_append c a b :
  contains c a = false -> split c (a +++ String c b) = a :: split c b.
Proof.
  induction a as [|x a IH]; cbn.
  - intros _. now rewrite Ascii.eqb_refl.
  - intros H. apply orb_false_iff in H. destruct H as [Hx Ha].
    rewrite Hx, (IH Ha). reflexivity.
Qed.

Lemma split_elements_no_sep c s : Forall (fun x => contains c x = false) (split c s).
Proof.
  induction s as [|a s IH]; cbn.
  - repeat constructor.
  - destruct (Ascii.eqb a c) eqn:E.
    + constructor; [reflexivity | assumption].
    + destruct (split c s) as [|h t]; [repeat constructor; cbn; now rewrite E|].
      apply Forall_cons_iff in IH. destruct IH as [Hh Ht].
      constructor; [cbn; now rewrite E, Hh | assumption].
Qed.

Lemma concat_cons2 sp x y l :
  concat sp (x :: y :: l) = x +++ sp +++ concat sp (y :: l).
Proof. reflexivity. Qed.

Lemma concat_app_one sp cs c :
  cs <> [] -> concat sp (cs ++ [c]) = concat sp cs +++ sp +++ c.
Proof.
  induction cs as [|x cs IH]; [contradiction|]. intros _.
  destruct cs as [|y cs].
  - reflexivity.
  - change ((x :: y :: cs) ++ [c]) with (x :: (y :: cs) ++ [c]).
    change ((y :: cs) ++ [c]) with (y :: cs ++ [c]) at 1.
    rewrite concat_cons2. change (y :: cs ++ [c]) with ((y :: cs) ++ [c]).
    rewrite IH by discriminate. rewrite concat_cons2.
    now rewrite !append_assoc.
Qed.

Lemma split_concat cs :
  cs <> [] -> Forall (fun x => contains sep x = false) cs ->
  split sep (concat "/" cs) = cs.
Proof.
  induction cs as [|x cs IH]; [contradiction|]. intros _ H.
  apply Forall_cons_iff in H. destruct H as [Hx Hcs].
  destruct cs as [|y cs].
  - cbn. now apply split_no_sep.
  - rewrite concat_cons2.
    change ("/" +++ concat "/" (y :: cs)) with (String sep (concat "/" (y :: cs))).
    rewrite split_append by assumption.
    f_equal. apply IH; [discriminate | assumption].
Qed.

Lemma concat_components_nil cs :
  Forall (fun c => is_component c = true) cs -> concat "/" cs = "" -> cs = [].
Proof.
  intros H E. destruct cs as [|x cs]; [reflexivity|].
  apply Forall_cons_iff in H. destruct H as [Hx _].
  unfold is_component in Hx. apply andb_true_iff in Hx. destruct Hx as [Hx _].
  destruct cs as [|y cs].
  - cbn in E. subst x. discriminate Hx.
  - rewrite concat_cons2 in E. apply append_eq_nil in E. destruct E as [-> _].
    discriminate Hx.
Qed.

Lemma Forall_component_no_sep cs :
  Forall (fun c => is_component c = true) cs ->
  Forall (fun x => contains sep x = false) cs.
Proof.
  apply Forall_impl. intros c H. unfold is_component in H.
  apply andb_true_iff in H. destruct H as [_ H]. now apply negb_true_iff in H.
Qed.

Lemma concat_components_inj xs ys :
  Forall (fun c => is_component c = true) xs ->
  Forall (fun c => is_component c = true) ys ->
  concat "/" xs = concat "/" ys -> xs = ys.
Proof.
  intros Hx Hy E.
  destruct xs as [|x xs].
  - symmetry. apply concat_components_nil; [assumption | now rewrite <- E].
  - destruct ys as [|y ys].
    + apply concat_components_nil; assumption.
    + rewrite <- (split_concat (x :: xs)), <- (split_concat (y :: ys));
        try discriminate; auto using Forall_component_no_sep.
      now rewrite E.
Qed.

Lemma components_are_components p :
  Forall (fun c => is_component c = true) (components p).
Proof.
  unfold components. apply Forall_forall. intros c Hin.
  apply filter_In in Hin. destruct Hin as [Hin Hc].
  pose proof (split_elements_no_sep sep p) as Hall.
  rewrite Forall_forall in Hall. specialize (Hall _ Hin).
  unfold is_component. rewrite Hall.
  apply negb_true_iff, orb_false_iff in Hc. destruct Hc as [Hc _].
  now rewrite Hc.
Qed.
End StringFacts.

(* ===================================================================== *)
(** * The containment test *)
(* ===================================================================== *)

Section Containment.
Import PosixPath.

Lemma common_prefix_is_prefix a b :
  common_prefix a b = a <-> Fs.is_prefix a b = true.
Proof.
  revert b. induction a as [|x a IH]; intros b; cbn.
  - destruct b; tauto.
  - destruct b as [|y b]; [split; discriminate|].
    destruct (x =? y) eqn:E; cbn.
    + rewrite <- IH. split; [now intros [= ->] | now intros ->].
    + split; discriminate.
Qed.

Lemma common_prefix_components a b :
  Forall (fun c => is_component c = true) a ->
  Forall (fun c => is_component c = true) (common_prefix a b).
Proof.
  intros H. revert b. induction H as [|x a Hx _ IH]; intros b; cbn.
  - destruct b; constructor.
  - destruct b as [|y b]; [constructor|].
    destruct (x =? y); constructor; auto.
Qed.

Lemma startswith_sep_append a b :
  startswith_sep a = true -> startswith_sep (a +++ b) = true.
Proof. destruct a; cbn; [discriminate | auto]. Qed.

Lemma isabs_normpath p : isabs p = true -> isabs (normpath p) = true.
Proof.
  intros H. unfold normpath.
  destruct (p =? "") eqn:E; [apply String.eqb_eq in E; subst; discriminate H|].
  unfold initial_slashes. unfold isabs in H. rewrite H. cbn [negb].
  destruct (prefix "//" p && negb (prefix "///" p)); reflexivity.
Qed.

Lemma isabs_join a b : isabs a = true -> isabs (join a b) = true.
Proof.
  intros H. unfold join.
  destruct (startswith_sep b) eqn:Eb; [assumption|].
  destruct ((a =? "") || endswith_sep a); now apply startswith_sep_append.
Qed.

Lemma isabs_abspath dir p : isabs dir = true -> isabs (abspath dir p) = true.
Proof.
  intros H. unfold abspath. apply isabs_normpath.
  destruct (isabs p) eqn:E; [assumption | now apply isabs_join].
Qed.

Lemma commonpath_one b :
  isabs b = true -> commonpath [b] = Py.Ret ("/" +++ concat "/" (components b)).
Proof. intros H. unfold commonpath. cbn. now rewrite H. Qed.

Lemma commonpath_two b t :
  isabs b = true -> isabs t = true ->
  commonpath [b; t] =
    Py.Ret ("/" +++ concat "/" (common_prefix (components b) (components t))).
Proof. intros Hb Ht. unfold commonpath. cbn. now rewrite Hb, Ht. Qed.

(** The containment test of both extractors compares components: the
    target is inside the base exactly when the components of the base, made
    absolute and normalised, start those of the target. *)
Lemma is_within_directory_spec w base target :
  isabs (cwd w) = true ->
  ExtractZip.is_within_directory base target w =
    (Py.Ret (Fs.is_prefix (components (abspath (cwd w) base))
                          (components (abspath (cwd w) target))), w).
Proof.
  intros Habs.
  unfold ExtractZip.is_within_directory, Py.bind, Py.get, Py.lift, Py.ret.
  rewrite commonpath_one, commonpath_two by now apply isabs_abspath.
  f_equal. f_equal.
  set (b := components (abspath (cwd w) base)).
  set (t := components (abspath (cwd w) target)).
  destruct (Fs.is_prefix b t) eqn:E.
  - apply common_prefix_is_prefix in E. rewrite E. apply String.eqb_refl.
  - apply String.eqb_neq. intros Heq. injection Heq as Heq.
    apply concat_components_inj in Heq.
    + symmetry in Heq. apply common_prefix_is_prefix in Heq. congruence.
    + apply components_are_components.
    + apply common_prefix_components, components_are_components.
Qed.

Lemma is_within_directory_same :
  Extract7z.is_within_directory = ExtractZip.is_within_directory.
Proof. reflexivity. Qed.
End Containment.

(* ===================================================================== *)
(** * Absolute paths in normal form *)
(* ===================================================================== *)

Section NormalForms.
Import PosixPath.

Lemma valid_name_inv c :
  valid_name c = true ->
  c <> "" /\ c <> "." /\ c <> ".." /\ contains sep c = false.
Proof.
  unfold valid_name. intros H.
  repeat (apply andb_true_iff in H; destruct H as [H ?]).
  repeat match goal with
         | H : negb (_ =? _) = true |- _ =>
             apply negb_true_iff, String.eqb_neq in H
         | H : negb _ = true |- _ => apply negb_true_iff in H
         end.
  auto.
Qed.

Lemma valid_names_no_sep cs :
  valid_names cs -> Forall (fun x => contains sep x = false) cs.
Proof. apply Forall_impl. intros c H. now apply valid_name_inv in H. Qed.

Lemma valid_names_app a b : valid_names (a ++ b) <-> valid_names a /\ valid_names b.
Proof. apply Forall_app. Qed.

Lemma split_abs_of cs :
  valid_names cs -> cs <> [] -> split sep (abs_of cs) = "" :: cs.
Proof.
  intros H Hne. unfold abs_of.
  change ("/" +++ concat "/" cs) with ("" +++ String sep (concat "/" cs)).
  rewrite split_append by reflexivity.
  f_equal. apply split_concat; [assumption | now apply valid_names_no_sep].
Qed.

Lemma filter_valid_names f cs :
  (forall c, valid_name c = true -> f c = true) ->
  valid_names cs -> filter f cs = cs.
Proof.
  intros Hf H. induction H as [|c cs Hc _ IH]; cbn; [reflexivity|].
  now rewrite (Hf _ Hc), IH.
Qed.

Lemma components_abs_of cs : valid_names cs -> components (abs_of cs) = cs.
Proof.
  intros H. destruct cs as [|c cs']; [reflexivity|].
  unfold components. rewrite split_abs_of by (auto; discriminate).
  set (f := fun c : string => negb ((c =? "") || (c =? "."))).
  change (filter f ("" :: c :: cs')) with (filter f (c :: cs')).
  apply filter_valid_names; [|assumption]. subst f. cbv beta.
  intros x Hx. apply valid_name_inv in Hx. destruct Hx as (H1 & H2 & _).
  apply String.eqb_neq in H1, H2. now rewrite H1, H2.
Qed.

Lemma fold_norm_step_valid rooted cs stack :
  valid_names cs -> Forall (fun c => c <> "..") stack ->
  fold_left (norm_step rooted) cs stack = rev cs ++ stack.
Proof.
  intros H. revert stack. induction H as [|c cs Hc _ IH]; intros stack Hs.
  - reflexivity.
  - cbn [fold_left]. apply valid_name_inv in Hc.
    destruct Hc as (H1 & H2 & H3 & _).
    assert (Hstep : norm_step rooted stack c = c :: stack).
    { unfold norm_step. apply String.eqb_neq in H1, H2, H3.
      rewrite H1, H2, H3. cbn. destruct stack; reflexivity. }
    rewrite Hstep, IH by (constructor; assumption).
    cbn [rev]. now rewrite <- app_assoc.
Qed.

Lemma norm_comps_valid rooted cs :
  valid_names cs -> norm_comps rooted ("" :: cs) = cs.
Proof.
  intros H. unfold norm_comps. cbn [fold_left].
  change (norm_step rooted [] "") with (@nil string).
  rewrite fold_norm_step_valid by (auto; constructor).
  now rewrite app_nil_r, rev_involutive.
Qed.

Lemma abs_of_not_double cs :
  valid_names cs -> prefix "//" (abs_of cs) = false.
Proof.
  intros H. destruct cs as [|c cs]; [reflexivity|].
  apply Forall_cons_iff in H. destruct H as [Hc _].
  apply valid_name_inv in Hc. destruct Hc as (H1 & _ & _ & H4).
  destruct c as [|a c]; [contradiction|].
  cbn in H4. apply orb_false_iff in H4. destruct H4 as [Ha _].
  assert (Hp : forall s, prefix "//" ("/" +++ String a s) = false).
  { intros s.
    change (prefix "//" ("/" +++ String a s))
      with (if ascii_dec "/" "/"
            then (if ascii_dec "/" a then prefix "" s else false)
            else false).
    destruct (ascii_dec "/" "/"); [|reflexivity].
    destruct (ascii_dec "/" a) as [<-|]; [|reflexivity].
    unfold sep in Ha. now rewrite Ascii.eqb_refl in Ha. }
  unfold abs_of. destruct cs as [|d cs]; [apply Hp|].
  rewrite concat_cons2. cbn [append]. apply Hp.
Qed.

Lemma normpath_abs_of cs : valid_names cs -> normpath (abs_of cs) = abs_of cs.
Proof.
  intros H. unfold normpath.
  change (abs_of cs =? "") with false. cbv iota.
  unfold initial_slashes.
  change (startswith_sep (abs_of cs)) with true.
  rewrite abs_of_not_double by assumption. cbn [negb andb Nat.eqb].
  destruct cs as [|c cs'].
  - reflexivity.
  - rewrite split_abs_of by (auto; discriminate).
    now rewrite norm_comps_valid.
Qed.

Lemma abspath_abs_of dir cs : valid_names cs -> abspath dir (abs_of cs) = abs_of cs.
Proof. intros H. unfold abspath. cbn [isabs abs_of append startswith_sep].
  rewrite Ascii.eqb_refl. now apply normpath_abs_of. Qed.

Lemma resolve_abs_of w cs : valid_names cs -> Os.resolve w (abs_of cs) = Some cs.
Proof.
  intros H. unfold Os.resolve. change (abs_of cs =? "") with false. cbv iota.
  now rewrite abspath_abs_of, components_abs_of.
Qed.

Lemma endswith_sep_append_char a c :
  endswith_sep (a +++ String c "") = Ascii.eqb c sep.
Proof.
  induction a as [|x a IH]; [reflexivity|].
  cbn [append]. cbn [endswith_sep]. rewrite IH.
  destruct (a +++ String c "") eqn:E; [|reflexivity].
  destruct a; discriminate E.
Qed.

Lemma endswith_sep_append a b :
  b <> "" -> endswith_sep (a +++ b) = endswith_sep b.
Proof.
  intros Hb. induction a as [|x a IH]; [reflexivity|].
  cbn [append]. cbn [endswith_sep]. rewrite IH.
  destruct (a +++ b) eqn:E; [|reflexivity].
  apply append_eq_nil in E. destruct E as [_ E]. contradiction.
Qed.

Lemma endswith_sep_no_sep c : contains sep c = false -> endswith_sep c = false.
Proof.
  induction c as [|a c IH]; [reflexivity|]. cbn [contains].
  intros H. apply orb_false_iff in H. destruct H as [Ha Hc].
  cbn [endswith_sep]. destruct c; [assumption | now apply IH].
Qed.

Lemma endswith_sep_abs_of cs :
  valid_names cs -> cs <> [] -> endswith_sep (abs_of cs) = false.
Proof.
  intros H Hne.
  destruct (exists_last Hne) as (cs' & c & ->).
  apply valid_names_app in H. destruct H as [_ H].
  apply Forall_cons_iff in H. destruct H as [Hc _].
  apply valid_name_inv in Hc. destruct Hc as (H1 & _ & _ & H4).
  unfold abs_of. destruct cs' as [|d cs'].
  - cbn [app concat]. rewrite endswith_sep_append by assumption.
    now apply endswith_sep_no_sep.
  - rewrite concat_app_one by discriminate.
    rewrite <- !append_assoc. rewrite endswith_sep_append by assumption.
    now apply endswith_sep_no_sep.
Qed.

Lemma abs_of_snoc cs c :
  cs <> [] -> abs_of (cs ++ [c]) = abs_of cs +++ "/" +++ c.
Proof.
  intros Hne. unfold abs_of. rewrite concat_app_one by assumption.
  now rewrite !append_assoc.
Qed.

Lemma startswith_sep_no_sep c : contains sep c = false -> startswith_sep c = false.
Proof.
  destruct c as [|a c]; [reflexivity|]. cbn. intros H.
  now apply orb_false_iff in H.
Qed.

Lemma join_abs_of cs c :
  valid_names cs -> valid_name c = true -> join (abs_of cs) c = abs_of (cs ++ [c]).
Proof.
  intros H Hc. apply valid_name_inv in Hc. destruct Hc as (_ & _ & _ & H4).
  unfold join. rewrite startswith_sep_no_sep by assumption.
  destruct cs as [|d cs'].
  - reflexivity.
  - change (abs_of (d :: cs') =? "") with false. cbn [orb].
    rewrite endswith_sep_abs_of by (auto; discriminate).
    now rewrite abs_of_snoc by discriminate.
Qed.

Lemma rsplit1_append c a b :
  contains c b = false -> rsplit1 c (a +++ String c b) = Some (a, b).
Proof.
  intros Hb. induction a as [|x a IH]; cbn [append rsplit1].
  - assert (E : rsplit1 c b = None).
    { clear -Hb. induction b as [|y b IH]; [reflexivity|]. cbn in *.
      apply orb_false_iff in Hb. destruct Hb as [Hy Hb].
      now rewrite (IH Hb), Hy. }
    now rewrite E, Ascii.eqb_refl.
  - now rewrite IH.
Qed.

Lemma rstrip_no_trailing s :
  s <> "" -> endswith_sep s = false -> rstrip sep (s +++ "/") = s.
Proof.
  induction s as [|a s IH]; [contradiction|]. intros _ He.
  cbn [append rstrip].
  destruct s as [|b s].
  - cbn. cbn in He. unfold sep in *. now rewrite He.
  - rewrite IH; [|discriminate | exact He].
    reflexivity.
Qed.

Lemma all_sep_false s : startswith_sep s = true -> endswith_sep s = false ->
  s <> "/" -> all_sep (s +++ "/") = false.
Proof.
  intros Hs He Hne.
  induction s as [|a s IH]; [discriminate Hs|].
  cbn [append all_sep].
  destruct (Ascii.eqb a sep) eqn:Ea; [|reflexivity]. cbn [andb].
  destruct s as [|b s].
  - cbn in He. congruence.
  - destruct (Ascii.eqb b sep) eqn:Eb.
    + apply IH; [cbn; exact Eb | exact He |].
      intros E. injection E as -> ->. cbn in He. discriminate He.
    + cbn [append all_sep]. now rewrite Eb.
Qed.

Lemma dirname_abs_of cs c :
  valid_names cs -> valid_name c = true -> dirname (abs_of (cs ++ [c])) = abs_of cs.
Proof.
  intros H Hc. apply valid_name_inv in Hc. destruct Hc as (_ & _ & _ & H4).
  unfold dirname. destruct cs as [|d cs'].
  - cbn [app]. unfold abs_of. cbn [concat].
    change ("/" +++ c) with ("" +++ String sep c).
    now rewrite rsplit1_append.
  - rewrite abs_of_snoc by discriminate.
    change (abs_of (d :: cs') +++ "/" +++ c)
      with (abs_of (d :: cs') +++ String sep c).
    rewrite rsplit1_append by assumption.
    assert (He : endswith_sep (abs_of (d :: cs')) = false)
      by (apply endswith_sep_abs_of; auto; discriminate).
    rewrite all_sep_false; [| reflexivity | exact He |].
    + apply rstrip_no_trailing; [discriminate | exact He].
    + intros E. rewrite E in He. discriminate He.
Qed.
End NormalForms.

(* ===================================================================== *)
(** * Padding and the cipher on file contents *)
(* ===================================================================== *)

Section Padding.
Import Crypto.

Lemma pad_length_bounds (d : list byte) :
  let k := (block_size - List.length d mod block_size)%nat in
  (1 <= k <= 16)%nat /\ ((List.length d + k) mod block_size = 0)%nat.
Proof.
  cbv zeta. unfold block_size.
  pose proof (Nat.mod_upper_bound (List.length d) 16 ltac:(lia)) as Hm.
  split; [lia|].
  pose proof (Nat.div_mod_eq (List.length d) 16) as Hd.
  replace (List.length d + (16 - List.length d mod 16))%nat
    with ((List.length d / 16 + 1) * 16)%nat by lia.
  apply Nat.Div0.mod_mul.
Qed.

Lemma length_pad d :
  List.length (pad d block_size) =
  (List.length d + (block_size - List.length d mod block_size))%nat.
Proof. unfold pad. now rewrite length_app, repeat_length. Qed.

Lemma last_app_repeat {A} (l : list A) x k d :
  (0 < k)%nat -> last (l ++ repeat x k) d = x.
Proof.
  intros Hk. destruct k as [|k]; [lia|].
  replace (repeat x (S k)) with (repeat x k ++ [x]).
  - now rewrite app_assoc, last_last.
  - clear. induction k; cbn in *; [reflexivity | now rewrite IHk].
Qed.

(** Unpadding undoes padding. *)
Lemma unpad_pad d : unpad (pad d block_size) block_size = Py.Ret d.
Proof.
  destruct (pad_length_bounds d) as [Hk Hmod].
  set (k := (block_size - List.length d mod block_size)%nat) in *.
  unfold unpad. rewrite length_pad. fold k.
  destruct (Nat.eqb_spec (List.length d + k) 0) as [E|_]; [lia|].
  rewrite Hmod. cbn [Nat.eqb negb].
  unfold pad. fold k.
  rewrite last_app_repeat by lia.
  rewrite to_nat_byte_of_N by lia.
  destruct (Nat.ltb_spec k 1) as [?|_]; [lia|].
  destruct (Nat.ltb_spec (Nat.min block_size (List.length d + k)) k) as [H|_].
  { unfold block_size in *. lia. }
  cbn [orb].
  replace (List.length d + k - k)%nat with (List.length d) by lia.
  rewrite skipn_app, skipn_all, Nat.sub_diag, skipn_O. cbn [app].
  rewrite firstn_app, firstn_all, Nat.sub_diag, firstn_O, app_nil_r.
  destruct (list_eq_dec Byte.byte_eq_dec _ _) as [_|Hne];
    [reflexivity | contradiction].
Qed.

(** What [unpad] returns is a proper prefix of its input. *)
Lemma unpad_prefix data out :
  unpad data block_size = Py.Ret out ->
  exists k, (1 <= k <= 16)%nat /\ out = firstn (List.length data - k) data.
Proof.
  unfold unpad.
  destruct (Nat.eqb (List.length data) 0); [discriminate|].
  destruct (negb (Nat.eqb (List.length data mod block_size) 0)); [discriminate|].
  set (k := Byte.to_nat (last data x00)).
  destruct (Nat.ltb_spec k 1); [discriminate|].
  destruct (Nat.ltb_spec (Nat.min block_size (List.length data)) k);
    [discriminate|]. cbn [orb].
  destruct (list_eq_dec _ _ _); [|discriminate].
  intros [= <-]. exists k. unfold block_size in *. split; [lia | reflexivity].
Qed.

Lemma unpad_raises_ValueError data e :
  unpad data block_size = Py.Raise e -> exists msg, e = Py.Exception Py.ValueError msg.
Proof.
  unfold unpad.
  repeat match goal with
         | |- context [if ?c then _ else _] => destruct c
         end; intros [= <-]; eauto; discriminate.
Qed.

Lemma cbc_decrypt_raises_ValueError key iv data e :
  cbc_decrypt key iv data = Py.Raise e -> exists msg, e = Py.Exception Py.ValueError msg.
Proof.
  unfold cbc_decrypt. destruct (Nat.eqb _ _); [discriminate|].
  intros [= <-]. eauto.
Qed.
End Padding.

Section CipherRoundTrip.
Import Crypto.

(** CBC decryption under the key and IV of the encryption returns the
    padded data; the ciphertext is as long as that. *)
Lemma cbc_decrypt_encrypt key iv data :
  List.length iv = 16%nat ->
  (List.length data mod block_size = 0)%nat ->
  exists ciphertext,
    cbc_encrypt key iv data = Py.Ret ciphertext /\
    List.length ciphertext = List.length data /\
    cbc_decrypt key iv ciphertext = Py.Ret data.
Proof.
  intros Hiv Hmod. unfold cbc_encrypt, cbc_decrypt. rewrite Hmod. cbn [Nat.eqb].
  eexists. split; [reflexivity|].
  assert (Hfull : Forall (fun c => List.length c = 16%nat) (chunks block_size data)).
  { apply chunks_full with (k := (List.length data / 16)%nat); [unfold block_size; lia|].
    unfold block_size in *.
    pose proof (Nat.div_mod_eq (List.length data) 16). lia. }
  assert (Hlen : List.length
            (List.concat (cbc_encrypt_blocks (aes_encrypt_block key) iv
                                             (chunks block_size data)))
          = List.length data).
  { rewrite length_concat_full with (n := 16%nat).
    - rewrite length_cbc_encrypt_blocks.
      rewrite <- (length_concat_full _ _ Hfull).
      now rewrite concat_chunks by (unfold block_size; lia).
    - apply cbc_encrypt_blocks_full, length_aes_encrypt_block. }
  split; [exact Hlen|].
  rewrite Hlen, Hmod. cbn [Nat.eqb].
  f_equal.
  rewrite chunks_of_concat;
    [| unfold block_size; lia
     | apply cbc_encrypt_blocks_full, length_aes_encrypt_block].
  rewrite cbc_decrypt_encrypt_blocks;
    [ apply concat_chunks; unfold block_size; lia
    | intros; now apply aes_decrypt_encrypt_block
    | apply length_aes_encrypt_block
    | assumption
    | assumption ].
Qed.

(** [decrypt(encrypt(B, P), P) = B] on the contents of the files. *)
Lemma decrypted_encrypted password iv B :
  List.length iv = 16%nat ->
  exists ciphertext,
    cbc_encrypt (Aes.derive_key password) iv (pad B block_size) = Py.Ret ciphertext /\
    Aes.decrypted password (iv ++ ciphertext) = Py.Ret B.
Proof.
  intros Hiv.
  destruct (cbc_decrypt_encrypt (Aes.derive_key password) iv (pad B block_size) Hiv)
    as (ct & Henc & _ & Hdec).
  { rewrite length_pad. apply pad_length_bounds. }
  exists ct. split; [assumption|].
  unfold Aes.decrypted.
  rewrite firstn_app, skipn_app, Hiv, Nat.sub_diag, firstn_O, skipn_O, app_nil_r.
  rewrite <- Hiv at 1. rewrite firstn_all.
  rewrite <- Hiv at 1. rewrite skipn_all. cbn [app].
  rewrite Hdec. apply unpad_pad.
Qed.
End CipherRoundTrip.

(* ===================================================================== *)
(** * The [os] calls on normal paths *)
(* ===================================================================== *)

Section OsFacts.
Import Fs PosixPath.

Lemma stat_abs_of w cs : valid_names cs -> Os.stat w (abs_of cs) = lookup cs (tree w).
Proof. intros H. unfold Os.stat. now rewrite resolve_abs_of. Qed.

Lemma lookup_parent d c t x :
  lookup (d ++ [c]) t = Some x -> exists es, lookup d t = Some (Dir es).
Proof.
  rewrite lookup_app. destruct (lookup d t) as [[data|es]|]; try discriminate.
  eauto.
Qed.

Lemma read_bytes_file w path data :
  Os.stat w path = Some (File data) -> Os.read_bytes path w = (Py.Ret data, w).
Proof.
  intros H. unfold Os.read_bytes, Py.bind, Py.get. now rewrite H.
Qed.

Lemma path_isfile_eval w path :
  Os.path_isfile path w = (Py.Ret (is_file (Os.stat w path)), w).
Proof. reflexivity. Qed.

Lemma path_isdir_eval w path :
  Os.path_isdir path w = (Py.Ret (is_dir (Os.stat w path)), w).
Proof. reflexivity. Qed.


(** Writing a file into an existing directory, over no directory. *)
Lemma write_bytes_ok w d c data :
  valid_names (d ++ [c]) ->
  is_dir (lookup d (tree w)) = true ->
  is_dir (lookup (d ++ [c]) (tree w)) = false ->
  exists t, place (d ++ [c]) (File data) (tree w) = Some t /\
            Os.write_bytes (abs_of (d ++ [c])) data w = (Py.Ret tt, set_tree t w).
Proof.
  intros Hv Hd Hc.
  destruct (lookup d (tree w)) as [[?|es]|] eqn:E; try discriminate Hd.
  destruct (place_in_directory d c (File data) (tree w) es E) as [t Ht].
  exists t. split; [assumption|].
  unfold Os.write_bytes, Py.bind, Py.get.
  rewrite resolve_abs_of by assumption.
  remember (d ++ [c]) as p eqn:Ep.
  destruct p as [|x p]; [now destruct d|].
  destruct (lookup (x :: p) (tree w)) as [[?|?]|]; try discriminate Hc;
    now rewrite Ht.
Qed.

Lemma lookup_place_sibling d c c' new t t' :
  place (d ++ [c]) new t = Some t' -> c <> c' ->
  lookup (d ++ [c']) t' = lookup (d ++ [c']) t.
Proof.
  intros Hp Hne. apply (lookup_place_other _ _ _ _ _ Hp).
  - clear -Hne. induction d; cbn.
    + apply andb_false_iff. left. now apply String.eqb_neq.
    + now rewrite String.eqb_refl.
  - clear -Hne. induction d; cbn.
    + apply andb_false_iff. left. apply String.eqb_neq. congruence.
    + now rewrite String.eqb_refl.
Qed.
End OsFacts.

Section Suffix.
Import PosixPath.

Lemma substring_prefix a b : substring 0 (String.length a) (a +++ b) = a.
Proof.
  induction a as [|x a IH]; cbn.
  - destruct b; reflexivity.
  - now rewrite IH.
Qed.

Lemma substring_suffix a b :
  substring (String.length a) (String.length b) (a +++ b) = b.
Proof.
  induction a as [|x a IH]; cbn; [|assumption].
  clear. induction b as [|y b IH]; cbn; [reflexivity | now rewrite IH].
Qed.

Lemma endswith_append p s : endswith (p +++ s) s = true.
Proof.
  unfold endswith. rewrite length_append.
  replace (String.length p + String.length s - String.length s)%nat
    with (String.length p) by lia.
  rewrite substring_suffix, String.eqb_refl.
  apply andb_true_iff. split; [apply Nat.leb_le; lia | reflexivity].
Qed.

Lemma drop_last_append p s : Aes.drop_last (String.length s) (p +++ s) = p.
Proof.
  unfold Aes.drop_last. rewrite length_append.
  replace (String.length p + String.length s - String.length s)%nat
    with (String.length p) by lia.
  apply substring_prefix.
Qed.

Lemma abs_of_append_last d c sfx :
  abs_of (d ++ [c]) +++ sfx = abs_of (d ++ [c +++ sfx]).
Proof.
  destruct d as [|x d].
  - reflexivity.
  - rewrite !abs_of_snoc by discriminate. now rewrite !append_assoc.
Qed.

Lemma valid_name_aes c : valid_name c = true -> valid_name (c +++ ".aes") = true.
Proof.
  intros H. apply valid_name_inv in H. destruct H as (_ & _ & _ & H4).
  unfold valid_name. rewrite contains_append, H4. cbn [orb contains].
  assert (Hl : (4 <= String.length (c +++ ".aes"))%nat)
    by (rewrite length_append; cbn; lia).
  destruct (String.eqb_spec (c +++ ".aes") "") as [E|_];
    [rewrite E in Hl; cbn in Hl; lia|].
  destruct (String.eqb_spec (c +++ ".aes") ".") as [E|_];
    [rewrite E in Hl; cbn in Hl; lia|].
  destruct (String.eqb_spec (c +++ ".aes") "..") as [E|_];
    [rewrite E in Hl; cbn in Hl; lia|].
  reflexivity.
Qed.

Lemma append_aes_neq c : c <> c +++ ".aes".
Proof.
  intros E. apply (f_equal String.length) in E.
  rewrite length_append in E. cbn in E. lia.
Qed.
End Suffix.

(* ===================================================================== *)
(** * Whole-file encryption and decryption *)
(* ===================================================================== *)

Section MonadFacts.
Context {W A B : Type}.

Lemma bind_ret (m : Py.M W A) (k : A -> Py.M W B) w a w' :
  m w = (Py.Ret a, w') -> Py.bind m k w = k a w'.
Proof. intros H. unfold Py.bind. now rewrite H. Qed.

Lemma bind_raise (m : Py.M W A) (k : A -> Py.M W B) w e w' :
  m w = (Py.Raise e, w') -> Py.bind m k w = (Py.Raise e, w').
Proof. intros H. unfold Py.bind. now rewrite H. Qed.

Lemma try_except_ret (m : Py.M W A) handles handler w a w' :
  m w = (Py.Ret a, w') -> Py.try_except m handles handler w = (Py.Ret a, w').
Proof. intros H. unfold Py.try_except. now rewrite H. Qed.

Lemma try_except_raise (m : Py.M W A) handles handler w e w' :
  m w = (Py.Raise e, w') ->
  Py.try_except m handles handler w =
    if handles e then handler e w' else (Py.Raise e, w').
Proof. intros H. unfold Py.try_except. now rewrite H. Qed.
End MonadFacts.

Section AesFiles.
Import Fs PosixPath Crypto Aes.

Lemma length_urandom_bytes w n :
  List.length (map (entropy w) (seq (drawn w) n)) = n.
Proof. now rewrite length_map, length_seq. Qed.

(** [encrypt_file] on a regular file whose [.aes] name is free or a
    regular file. *)
Lemma encrypt_file_ok w d c password B :
  valid_names (d ++ [c]) ->
  lookup (d ++ [c]) (tree w) = Some (File B) ->
  is_dir (lookup (d ++ [c +++ ".aes"]) (tree w)) = false ->
  let iv := map (entropy w) (seq (drawn w) 16) in
  exists ciphertext t,
    cbc_encrypt (derive_key password) iv (pad B block_size) = Py.Ret ciphertext /\
    decrypted password (iv ++ ciphertext) = Py.Ret B /\
    place (d ++ [c +++ ".aes"]) (File (iv ++ ciphertext)) (tree w) = Some t /\
    encrypt_file (abs_of (d ++ [c])) password w =
      (Py.Ret tt, set_tree t (set_drawn (drawn w + 16) w)).
Proof.
  intros Hv Hfile Hfree iv.
  destruct (decrypted_encrypted password iv B (length_urandom_bytes w 16))
    as (ct & Henc & Hdec).
  assert (Hv' : valid_names (d ++ [c +++ ".aes"])).
  { apply valid_names_app in Hv. destruct Hv as [Hd Hc].
    apply valid_names_app. split; [assumption|].
    apply Forall_cons_iff in Hc. destruct Hc as [Hc _].
    constructor; [now apply valid_name_aes | constructor]. }
  destruct (lookup_parent _ _ _ _ Hfile) as [es Hdir].
  set (w1 := set_drawn (drawn w + 16) w).
  destruct (write_bytes_ok w1 d (c +++ ".aes") (iv ++ ct) Hv') as (t & Hplace & Hwrite).
  { cbn. now rewrite Hdir. }
  { exact Hfree. }
  exists ct, t. repeat split; try assumption.
  unfold encrypt_file. apply try_except_ret.
  rewrite (bind_ret _ _ _ _ _ (path_isfile_eval w _)).
  rewrite stat_abs_of, Hfile by assumption. cbn [is_file negb].
  rewrite (bind_ret _ _ w tt w eq_refl).
  assert (Hur : urandom 16 w = (Py.Ret iv, w1)) by reflexivity.
  rewrite (bind_ret _ _ _ _ _ Hur).
  assert (Hstat : Os.stat w1 (abs_of (d ++ [c])) = Some (File B))
    by (rewrite stat_abs_of by assumption; exact Hfile).
  rewrite (bind_ret _ _ _ _ _ (read_bytes_file _ _ _ Hstat)).
  assert (Hl : Py.lift (cbc_encrypt (derive_key password) iv (pad B block_size)) w1
               = (Py.Ret ct, w1)) by (unfold Py.lift; now rewrite Henc).
  rewrite (bind_ret _ _ _ _ _ Hl).
  rewrite abs_of_append_last. exact Hwrite.
Qed.

(** [decrypt_file] when the content is long enough and decrypts: the
    plaintext goes to the name without [.aes]. *)
Lemma decrypt_file_ok w d c password data plaintext :
  valid_names (d ++ [c]) ->
  lookup (d ++ [c +++ ".aes"]) (tree w) = Some (File data) ->
  (16 <= List.length data)%nat ->
  decrypted password data = Py.Ret plaintext ->
  is_dir (lookup (d ++ [c]) (tree w)) = false ->
  exists t,
    place (d ++ [c]) (File plaintext) (tree w) = Some t /\
    decrypt_file (abs_of (d ++ [c]) +++ ".aes") password w =
      (Py.Ret tt, set_tree t w).
Proof.
  intros Hv Hfile Hlen Hdec Hfree.
  assert (Hv' : valid_names (d ++ [c +++ ".aes"])).
  { apply valid_names_app in Hv. destruct Hv as [Hd Hc].
    apply valid_names_app. split; [assumption|].
    apply Forall_cons_iff in Hc. destruct Hc as [Hc _].
    constructor; [now apply valid_name_aes | constructor]. }
  destruct (lookup_parent _ _ _ _ Hfile) as [es Hdir].
  destruct (write_bytes_ok w d c plaintext Hv) as (t & Hplace & Hwrite).
  { now rewrite Hdir. }
  { exact Hfree. }
  exists t. split; [assumption|].
  assert (Hstat : Os.stat w (abs_of (d ++ [c]) +++ ".aes") = Some (File data)).
  { rewrite abs_of_append_last, stat_abs_of by assumption. exact Hfile. }
  unfold decrypt_file. apply try_except_ret.
  rewrite (bind_ret _ _ _ _ _ (path_isfile_eval w _)).
  rewrite Hstat. cbn [is_file negb].
  rewrite (bind_ret _ _ w tt w eq_refl).
  rewrite (bind_ret _ _ _ _ _ (read_bytes_file _ _ _ Hstat)).
  destruct (Nat.ltb_spec (List.length data) 16) as [?|_]; [lia|].
  rewrite (bind_ret _ _ w tt w eq_refl).
  unfold decrypted in Hdec.
  destruct (cbc_decrypt (derive_key password) (firstn 16 data) (skipn 16 data))
    as [dec|e] eqn:Hcbc; [|discriminate].
  rewrite (bind_ret _ _ w dec w eq_refl).
  assert (Hl : Py.lift (unpad dec block_size) w = (Py.Ret plaintext, w))
    by (unfold Py.lift; now rewrite Hdec).
  rewrite (bind_ret _ _ _ _ _ Hl).
  rewrite endswith_append.
  change 4%nat with (String.length ".aes"). rewrite drop_last_append.
  exact Hwrite.
Qed.

(** [decrypt_file] when [decrypt] or [unpad] raises: one record, exit
    status 1, nothing written. *)
Lemma decrypt_file_fails w path password data e :
  Os.stat w path = Some (File data) ->
  (16 <= List.length data)%nat ->
  decrypted password data = Py.Raise e ->
  decrypt_file path password w =
    (Py.Raise (Py.SystemExit 1),
     set_errors_log
       (errors_log w ++
          ["[!] Decryption failed: incorrect password or corrupted data "
           +++ Py.str_exn e]) w).
Proof.
  intros Hstat Hlen Hdec.
  assert (He : exists msg, e = Py.Exception Py.ValueError msg).
  { unfold decrypted in Hdec.
    destruct (cbc_decrypt _ _ _) eqn:Hcbc.
    - now apply unpad_raises_ValueError in Hdec.
    - injection Hdec as <-. now apply cbc_decrypt_raises_ValueError in Hcbc. }
  destruct He as [msg ->].
  unfold decrypt_file.
  etransitivity.
  { apply try_except_raise.
    rewrite (bind_ret _ _ _ _ _ (path_isfile_eval w _)).
    rewrite Hstat. cbn [is_file negb].
    rewrite (bind_ret _ _ w tt w eq_refl).
    rewrite (bind_ret _ _ _ _ _ (read_bytes_file _ _ _ Hstat)).
    destruct (Nat.ltb_spec (List.length data) 16) as [?|_]; [lia|].
    rewrite (bind_ret _ _ w tt w eq_refl).
    unfold decrypted in Hdec.
    destruct (cbc_decrypt (derive_key password) (firstn 16 data) (skipn 16 data))
      as [dec|e] eqn:Hcbc.
    - rewrite (bind_ret _ _ w dec w eq_refl).
      apply bind_raise. unfold Py.lift. now rewrite Hdec.
    - injection Hdec as ->. now apply bind_raise. }
  reflexivity.
Qed.

(** [decrypt_file] on a file of fewer than 16 bytes. *)
Lemma decrypt_file_too_short w path password data :
  Os.stat w path = Some (File data) ->
  (List.length data < 16)%nat ->
  decrypt_file path password w =
    (Py.Raise (Py.SystemExit 1),
     set_errors_log
       (errors_log w ++ ["[!] Encrypted file too short or corrupted: " +++ path]) w).
Proof.
  intros Hstat Hlen.
  unfold decrypt_file.
  etransitivity.
  { apply try_except_raise.
    rewrite (bind_ret _ _ _ _ _ (path_isfile_eval w _)).
    rewrite Hstat. cbn [is_file negb].
    rewrite (bind_ret _ _ w tt w eq_refl).
    rewrite (bind_ret _ _ _ _ _ (read_bytes_file _ _ _ Hstat)).
    destruct (Nat.ltb_spec (List.length data) 16) as [_|?]; [|lia].
    reflexivity. }
  reflexivity.
Qed.
End AesFiles.

Section DecryptionMessages.
Import Fs PosixPath Crypto Aes.

Lemma cbc_decrypt_blocks_full key prev blocks :
  List.length prev = 16%nat ->
  Forall (fun c => List.length c = 16%nat) blocks ->
  Forall (fun c => List.length c = 16%nat)
         (cbc_decrypt_blocks (aes_decrypt_block key) prev blocks).
Proof.
  intros Hprev Hblocks. revert prev Hprev.
  induction Hblocks as [|c rest Hc _ IH]; intros prev Hprev; cbn.
  - constructor.
  - constructor; [|now apply IH].
    assert (Hd : List.length (aes_decrypt_block key c) = 16%nat)
      by apply length_block_of_state.
    rewrite length_xor_block; congruence.
Qed.

Lemma length_cbc_decrypt_blocks (f : list byte -> list byte) prev blocks :
  List.length (cbc_decrypt_blocks f prev blocks) = List.length blocks.
Proof.
  revert prev. induction blocks as [|c rest IH]; intros prev; cbn; auto.
Qed.

(** CBC decryption keeps the length of what it is given. *)
Lemma length_cbc_decrypt key iv data out :
  List.length iv = 16%nat ->
  cbc_decrypt key iv data = Py.Ret out ->
  List.length out = List.length data /\ (List.length data mod 16 = 0)%nat.
Proof.
  intros Hiv. unfold cbc_decrypt, block_size.
  destruct (Nat.eqb_spec (List.length data mod 16) 0) as [Hal|]; [|discriminate].
  intros [= <-]. split; [|exact Hal].
  assert (Hk : List.length data = (List.length data / 16 * 16)%nat).
  { pose proof (Nat.div_mod_eq (List.length data) 16). lia. }
  pose proof (chunks_full 16 (List.length data / 16) data ltac:(lia) Hk) as Hfull.
  pose proof (cbc_decrypt_blocks_full key iv (chunks 16 data) Hiv Hfull) as Hd.
  rewrite (length_concat_full 16 _ Hd), length_cbc_decrypt_blocks.
  rewrite <- (length_concat_full 16 _ Hfull), concat_chunks by lia.
  reflexivity.
Qed.

Lemma decrypted_not_aligned password data :
  (16 <= List.length data)%nat -> (List.length data mod 16 <> 0)%nat ->
  decrypted password data =
    Py.Raise (Py.Exception Py.ValueError
                "Data must be padded to 16 byte boundary in CBC mode").
Proof.
  intros Hlen Hmod. unfold decrypted, cbc_decrypt, block_size.
  rewrite length_skipn.
  destruct (Nat.eqb_spec ((List.length data - 16) mod 16) 0) as [E|_];
    [|reflexivity].
  exfalso. apply Hmod.
  replace (List.length data) with ((List.length data - 16) + 1 * 16)%nat by lia.
  now rewrite Nat.Div0.mod_add.
Qed.

Lemma decrypted_iv_only password data :
  List.length data = 16%nat ->
  decrypted password data =
    Py.Raise (Py.Exception Py.ValueError "Zero-length input cannot be unpadded").
Proof.
  intros Hlen. unfold decrypted.
  rewrite (skipn_all2 data) by lia. reflexivity.
Qed.

Lemma decrypted_bad_padding password data e :
  (16 < List.length data)%nat -> (List.length data mod 16 = 0)%nat ->
  decrypted password data = Py.Raise e ->
  e = Py.Exception Py.ValueError "Padding is incorrect." \/
  e = Py.Exception Py.ValueError "PKCS#7 padding is incorrect.".
Proof.
  intros Hlen Hmod. unfold decrypted.
  destruct (cbc_decrypt _ _ _) as [out|e'] eqn:Hcbc.
  - apply length_cbc_decrypt in Hcbc; [|rewrite length_firstn; lia].
    destruct Hcbc as [Hout Hal]. rewrite length_skipn in Hout, Hal.
    unfold unpad, block_size. rewrite Hout.
    destruct (Nat.eqb_spec (List.length data - 16) 0) as [?|_]; [lia|].
    rewrite Hal. cbn [Nat.eqb negb].
    destruct (_ || _); [intros [= <-]; now left|].
    destruct (list_eq_dec _ _ _); [discriminate|].
    intros [= <-]. now right.
  - unfold cbc_decrypt, block_size in Hcbc. rewrite length_skipn in Hcbc.
    destruct (Nat.eqb_spec ((List.length data - 16) mod 16) 0) as [_|Hne];
      [discriminate|].
    exfalso. apply Hne.
    replace (List.length data) with ((List.length data - 16) + 1 * 16)%nat
      in Hmod by lia.
    now rewrite Nat.Div0.mod_add in Hmod.
Qed.
End DecryptionMessages.

Section CipherClaims.
Import Fs PosixPath Crypto Aes.

(** The last part of C3 fails: the file encrypted under "correct horse"
    decrypts under the wrong password "guess82" without any error, to 15
    bytes of garbage that replace the plaintext file. *)
Lemma wrong_password_yields_garbage :
  let r := decrypt_file "/srv/backup.7z.aes" "guess82" Examples.encrypted_world in
  fst (encrypt_file "/srv/backup.7z" "correct horse" Examples.plain_world) = Py.Ret tt /\
  Os.stat Examples.encrypted_world "/srv/backup.7z"
    = Some (File (list_byte_of_string "backup data")) /\
  fst r = Py.Ret tt /\
  errors_log (snd r) = [] /\
  Os.stat (snd r) "/srv/backup.7z"
    = Some (File [x8d; x24; xda; x71; x91; xe7; x3f; x32; x38; x0e; xd2; x9a;
                  xb5; xab; xa7]).
Proof. cbv zeta. vm_compute. repeat split. Qed.

(** C3, in the form that holds.  For a regular file [path] with content [B] whose name
    with [.aes] appended is not a directory: [encrypt_file] succeeds;
    [path.aes] then holds the 16 bytes drawn from [os.urandom] followed by
    the AES-256-CBC encryption of the padded [B] under the SHA-256 digest of
    the password; [path] still holds [B]; [decrypt_file] with the same
    password succeeds and [path] holds [B] again.  With any password,
    [decrypt_file] ends with exit status 1 and the one record "Decryption
    failed" exactly when CBC decryption or unpadding raises; otherwise it
    succeeds and writes whatever unpadding returned: nothing authenticates
    the plaintext. *)
Theorem encrypt_then_decrypt w d c password B :
  valid_names (d ++ [c]) ->
  Os.stat w (abs_of (d ++ [c])) = Some (File B) ->
  is_dir (Os.stat w (abs_of (d ++ [c]) +++ ".aes")) = false ->
  let path := abs_of (d ++ [c]) in
  let iv := map (entropy w) (seq (drawn w) 16) in
  exists ciphertext w1,
    cbc_encrypt (sha256 (encode password)) iv (pad B 16) = Py.Ret ciphertext /\
    encrypt_file path password w = (Py.Ret tt, w1) /\
    Os.stat w1 (path +++ ".aes") = Some (File (iv ++ ciphertext)) /\
    Os.stat w1 path = Some (File B) /\
    (exists w2,
        decrypt_file (path +++ ".aes") password w1 = (Py.Ret tt, w2) /\
        Os.stat w2 path = Some (File B)) /\
    (forall other,
        match decrypted other (iv ++ ciphertext) with
        | Py.Raise e =>
            decrypt_file (path +++ ".aes") other w1 =
              (Py.Raise (Py.SystemExit 1),
               set_errors_log
                 (errors_log w1 ++
                    ["[!] Decryption failed: incorrect password or corrupted data "
                     +++ Py.str_exn e]) w1)
        | Py.Ret plaintext =>
            exists w2,
              decrypt_file (path +++ ".aes") other w1 = (Py.Ret tt, w2) /\
              Os.stat w2 path = Some (File plaintext)
        end).
Proof.
  intros Hv Hfile Hfree path iv.
  assert (Hv' : valid_names (d ++ [c +++ ".aes"])).
  { apply valid_names_app in Hv. destruct Hv as [Hd Hc].
    apply valid_names_app. split; [assumption|].
    apply Forall_cons_iff in Hc. destruct Hc as [Hc _].
    constructor; [now apply valid_name_aes | constructor]. }
  rewrite stat_abs_of in Hfile by assumption.
  rewrite abs_of_append_last, stat_abs_of in Hfree by assumption.
  destruct (encrypt_file_ok w d c password B Hv Hfile Hfree)
    as (ct & t1 & Henc & Hdec & Hplace & Hrun).
  fold iv in Henc, Hdec, Hplace.
  set (w1 := set_tree t1 (set_drawn (drawn w + 16) w)) in *.
  assert (Haes : lookup (d ++ [c +++ ".aes"]) (tree w1) = Some (File (iv ++ ct)))
    by (apply (lookup_place_same _ _ _ _ Hplace)).
  assert (Hplain : lookup (d ++ [c]) (tree w1) = Some (File B)).
  { cbn [tree w1 set_tree].
    rewrite (lookup_place_sibling _ _ c _ _ _ Hplace); [exact Hfile|].
    intros E. symmetry in E. now apply append_aes_neq in E. }
  assert (Hlen : (16 <= List.length (iv ++ ct))%nat).
  { rewrite length_app. unfold iv. rewrite length_urandom_bytes. lia. }
  assert (Hdecrypts : forall other plaintext,
             decrypted other (iv ++ ct) = Py.Ret plaintext ->
             exists w2,
               decrypt_file (path +++ ".aes") other w1 = (Py.Ret tt, w2) /\
               Os.stat w2 path = Some (File plaintext)).
  { intros other plaintext Ho.
    destruct (decrypt_file_ok w1 d c other (iv ++ ct) plaintext Hv Haes Hlen Ho)
      as (t2 & Hplace2 & Hrun2).
    { now rewrite Hplain. }
    exists (set_tree t2 w1). split; [exact Hrun2|].
    unfold path. rewrite stat_abs_of by assumption.
    apply (lookup_place_same _ _ _ _ Hplace2). }
  exists ct, w1. repeat split.
  - exact Henc.
  - exact Hrun.
  - unfold path. rewrite abs_of_append_last, stat_abs_of by assumption. exact Haes.
  - unfold path. rewrite stat_abs_of by assumption. exact Hplain.
  - now apply Hdecrypts.
  - intros other. destruct (decrypted other (iv ++ ct)) as [plaintext|e] eqn:Ho.
    + now apply Hdecrypts.
    + apply decrypt_file_fails with (data := iv ++ ct); try assumption.
      unfold path. rewrite abs_of_append_last, stat_abs_of by assumption.
      exact Haes.
Qed.

Lemma encrypt_then_decrypt_witness :
  exists ciphertext w1,
    cbc_encrypt (sha256 (encode "correct horse"))
                (map (entropy Examples.plain_world) (seq 0 16))
                (pad (list_byte_of_string "backup data") 16) = Py.Ret ciphertext /\
    encrypt_file "/srv/backup.7z" "correct horse" Examples.plain_world = (Py.Ret tt, w1).
Proof.
  destruct (encrypt_then_decrypt Examples.plain_world ["srv"] "backup.7z"
              "correct horse" (list_byte_of_string "backup data"))
    as (ct & w1 & H1 & H2 & _).
  - repeat constructor.
  - reflexivity.
  - reflexivity.
  - exists ct, w1. split; assumption.
Defined.

(** C7 as stated fails: a file of 3 bytes and a file of 32 zero bytes both
    end the run with exit status 1, but the records they leave in the error
    log differ. *)
Lemma decryption_failures_are_told_apart :
  let short := decrypt_file "/srv/backup.7z.aes" "correct horse"
                 (Examples.aes_world [x00; x01; x02]) in
  let unpadded := decrypt_file "/srv/backup.7z.aes" "correct horse"
                    (Examples.aes_world (repeat x00 32)) in
  fst short = Py.Raise (Py.SystemExit 1) /\
  fst unpadded = Py.Raise (Py.SystemExit 1) /\
  errors_log (snd short) =
    ["[!] Encrypted file too short or corrupted: /srv/backup.7z.aes"] /\
  errors_log (snd unpadded) =
    ["[!] Decryption failed: incorrect password or corrupted data Padding is incorrect."] /\
  errors_log (snd short) <> errors_log (snd unpadded).
Proof. cbv zeta. vm_compute. repeat split. discriminate. Qed.

(** C7, in the form that holds.  Decrypting a regular file that has fewer than 16
    bytes, or whose CBC decryption or unpadding raises, ends with exit
    status 1, writes no file and leaves exactly one record in the error
    log.  The records tell the causes apart: "Encrypted file too short or
    corrupted" with the path when the file has fewer than 16 bytes;
    otherwise "Decryption failed: incorrect password or corrupted data"
    followed by the text of the library's [ValueError].  That text is "Data
    must be padded to 16 byte boundary in CBC mode" whenever the length of
    the file is not a multiple of 16 and "Zero-length input cannot be
    unpadded" whenever the file has exactly 16 bytes, whatever the
    password, and one of the two messages of a wrong padding in every other
    case. *)
Theorem decryption_failures w path password data :
  Os.stat w path = Some (File data) ->
  ((List.length data < 16)%nat ->
     decrypt_file path password w =
       (Py.Raise (Py.SystemExit 1),
        set_errors_log
          (errors_log w ++
             ["[!] Encrypted file too short or corrupted: " +++ path]) w)) /\
  ((16 <= List.length data)%nat ->
     forall e, decrypted password data = Py.Raise e ->
     decrypt_file path password w =
       (Py.Raise (Py.SystemExit 1),
        set_errors_log
          (errors_log w ++
             ["[!] Decryption failed: incorrect password or corrupted data "
              +++ Py.str_exn e]) w)) /\
  ((16 <= List.length data)%nat -> (List.length data mod 16 <> 0)%nat ->
     decrypted password data =
       Py.Raise (Py.Exception Py.ValueError
                   "Data must be padded to 16 byte boundary in CBC mode")) /\
  (List.length data = 16%nat ->
     decrypted password data =
       Py.Raise (Py.Exception Py.ValueError
                   "Zero-length input cannot be unpadded")) /\
  ((16 < List.length data)%nat -> (List.length data mod 16 = 0)%nat ->
     forall e, decrypted password data = Py.Raise e ->
     e = Py.Exception Py.ValueError "Padding is incorrect." \/
     e = Py.Exception Py.ValueError "PKCS#7 padding is incorrect.").
Proof.
  intros Hstat. split; [|split; [|split; [|split]]].
  - now apply decrypt_file_too_short.
  - intros Hlen e He. now apply decrypt_file_fails with (data := data).
  - apply decrypted_not_aligned.
  - apply decrypted_iv_only.
  - intros Hlen Hmod e. now apply decrypted_bad_padding.
Qed.

Lemma decryption_failures_witness :
  decrypt_file "/srv/backup.7z.aes" "correct horse" (Examples.aes_world [x00; x01; x02]) =
    (Py.Raise (Py.SystemExit 1),
     set_errors_log
       (errors_log (Examples.aes_world [x00; x01; x02]) ++
          ["[!] Encrypted file too short or corrupted: " +++ "/srv/backup.7z.aes"])
       (Examples.aes_world [x00; x01; x02])).
Proof.
  apply (decryption_failures (Examples.aes_world [x00; x01; x02])
           "/srv/backup.7z.aes" "correct horse" [x00; x01; x02]).
  - reflexivity.
  - cbn. lia.
Defined.
End CipherClaims.

(* ===================================================================== *)
(** * The length limits of the settings *)
(* ===================================================================== *)

Section FieldLimits.
Import Fs.

Lemma prefix_append a b : prefix a (a +++ b) = true.
Proof.
  induction a as [|x a IH]; cbn [append prefix].
  - destruct b; reflexivity.
  - destruct (ascii_dec x x); [exact IH | contradiction].
Qed.

Lemma backupx_check_field name v w :
  let max_length :=
    match find (fun e => fst e =? name) Backupx.field_limits with
    | Some e => snd e
    | None => O
    end in
  let len := PyStr.len
               (Backupx.str (if Backupx.falsy v then Backupx.VStr "" else v)) in
  if (max_length <=? len)%nat
  then aborted_with_record (Backupx.check_field name v w) w
  else Backupx.check_field name v w = (Py.Ret tt, w).
Proof.
  cbv zeta. unfold Backupx.check_field.
  destruct (_ <=? _)%nat; [|reflexivity].
  eexists. split; [|reflexivity]. apply prefix_append.
Qed.

Lemma backupx_len_str s : backupx_len (Backupx.VStr s) = PyStr.len s.
Proof.
  unfold backupx_len. cbn [Backupx.falsy].
  destruct (String.eqb_spec s ""); [now subst | reflexivity].
Qed.

Lemma backupx_len_option o :
  backupx_len (Backupx.of_option o) = Backupx.length_of o.
Proof. destruct o; [apply backupx_len_str | reflexivity]. Qed.

Lemma backupx_len_int n :
  (10 <=? backupx_len (Backupx.VInt n))%nat =
  (10 <=? PyStr.len (Backupx.str (Backupx.VInt n)))%nat.
Proof.
  unfold backupx_len. cbn [Backupx.falsy].
  destruct (Z.eqb_spec n 0); [now subst | reflexivity].
Qed.

Lemma for_each_checks_abort (l : list (string * Backupx.value)) w :
  existsb (fun fv => (backupx_max (fst fv) <=? backupx_len (snd fv))%nat) l = true ->
  aborted_with_record
    (Py.for_each l (fun fv => Backupx.check_field (fst fv) (snd fv)) w) w.
Proof.
  induction l as [|[name v] l IH]; cbn [existsb Py.for_each fst snd];
    [discriminate|].
  intros H. pose proof (backupx_check_field name v w) as Hc. cbv zeta in Hc.
  fold (backupx_max name) (backupx_len v) in Hc.
  destruct (backupx_max name <=? backupx_len v)%nat.
  - destruct Hc as (record & Hrec & Hrun).
    exists record. split; [exact Hrec|]. unfold Py.bind. now rewrite Hrun.
  - rewrite (bind_ret _ _ _ _ _ Hc). apply IH. exact H.
Qed.

Lemma for_each_checks_pass (l : list (string * Backupx.value)) w :
  existsb (fun fv => (backupx_max (fst fv) <=? backupx_len (snd fv))%nat) l = false ->
  Py.for_each l (fun fv => Backupx.check_field (fst fv) (snd fv)) w = (Py.Ret tt, w).
Proof.
  induction l as [|[name v] l IH]; cbn [existsb Py.for_each fst snd];
    [reflexivity|].
  intros H. apply orb_false_iff in H. destruct H as [Hv Hl].
  pose proof (backupx_check_field name v w) as Hc. cbv zeta in Hc.
  fold (backupx_max name) (backupx_len v) in Hc. rewrite Hv in Hc.
  rewrite (bind_ret _ _ _ _ _ Hc). now apply IH.
Qed.

Lemma backupx_checks_over_limit c :
  existsb (fun fv => (backupx_max (fst fv) <=? backupx_len (snd fv))%nat)
          (combine (map fst Backupx.field_limits) (Backupx.backup_config c))
  = Backupx.over_limit c.
Proof.
  unfold Backupx.backup_config, Backupx.over_limit.
  cbn [Backupx.field_limits map fst combine existsb snd].
  rewrite !backupx_len_str, !backupx_len_option.
  change (backupx_max "source") with 1024%nat.
  change (backupx_max "destination") with 1024%nat.
  change (backupx_max "compression") with 20%nat.
  change (backupx_max "compression_level") with 10%nat.
  change (backupx_max "password_path") with 1024%nat.
  change (backupx_max "ssh_host") with 255%nat.
  change (backupx_max "ssh_port") with 10%nat.
  change (backupx_max "ssh_user") with 255%nat.
  change (backupx_max "ssh_key_path") with 1024%nat.
  change (backupx_max "ssh_remote_path") with 1024%nat.
  change (backupx_max "ssh_local_path") with 1024%nat.
  rewrite backupx_len_int.
  destruct (Backupx.ssh_port c) as [n|].
  - rewrite backupx_len_int, orb_false_r, !orb_assoc. reflexivity.
  - rewrite orb_false_r, !orb_assoc. reflexivity.
Qed.

Lemma enforce_field_limits_aborts c w :
  Backupx.over_limit c = true ->
  aborted_with_record (Backupx.enforce_field_limits c w) w.
Proof.
  intros Hover. unfold Backupx.enforce_field_limits.
  apply for_each_checks_abort. now rewrite backupx_checks_over_limit.
Qed.

Lemma enforce_field_limits_passes c w :
  Backupx.over_limit c = false ->
  Backupx.enforce_field_limits c w = (Py.Ret tt, w).
Proof.
  intros Hover. unfold Backupx.enforce_field_limits.
  apply for_each_checks_pass. now rewrite backupx_checks_over_limit.
Qed.

Lemma set_errors_log_nil w : set_errors_log (errors_log w ++ []) w = w.
Proof. destruct w. unfold set_errors_log. cbn. now rewrite app_nil_r. Qed.
End FieldLimits.

Section FieldLimitClaims.
Import Fs.

Lemma aborted_raises {A} (r : Py.outcome A * world) w :
  aborted_with_record r w ->
  fst r = Py.Raise (Py.SystemExit 1) /\
  exists records, snd r = set_errors_log (errors_log w ++ records) w.
Proof. intros (record & _ & ->). split; [reflexivity|]. now exists [record]. Qed.

Lemma decypherx_check_field `{L : Libraries} name v w :
  let max_length :=
    match find (fun e => fst e =? name) Decypherx.field_limits with
    | Some e => snd e
    | None => O
    end in
  if (max_length <=? PyStr.len (Decypherx.or_empty v))%nat
  then aborted_with_record (Decypherx.check_field name v w) w
  else Decypherx.check_field name v w = (Py.Ret tt, w).
Proof.
  cbv zeta. unfold Decypherx.check_field.
  destruct (_ <=? _)%nat; [|reflexivity].
  eexists. split; [|reflexivity]. apply prefix_append.
Qed.

Lemma decypherx_checks_pass `{L : Libraries} extract destination decipher w :
  ((1024 <=? PyStr.len extract)%nat
   || (1024 <=? PyStr.len destination)%nat
   || (1024 <=? PyStr.len (Decypherx.or_empty decipher))%nat) = false ->
  Py.for_each (combine (map fst Decypherx.field_limits)
                       [Some extract; Some destination; decipher])
              (fun fv => Decypherx.check_field (fst fv) (snd fv)) w
  = (Py.Ret tt, w).
Proof.
  intros H. apply orb_false_iff in H. destruct H as [H H3].
  apply orb_false_iff in H. destruct H as [H1 H2].
  cbn [Decypherx.field_limits map fst combine Py.for_each snd].
  unfold Decypherx.check_field, Py.bind.
  cbn [find fst snd String.eqb Ascii.eqb Bool.eqb Decypherx.field_limits
       Decypherx.or_empty].
  now rewrite H1, H2, H3.
Qed.

Lemma decypherx_checks_abort `{L : Libraries} extract destination decipher w :
  ((1024 <=? PyStr.len extract)%nat
   || (1024 <=? PyStr.len destination)%nat
   || (1024 <=? PyStr.len (Decypherx.or_empty decipher))%nat) = true ->
  aborted_with_record
    (Py.for_each (combine (map fst Decypherx.field_limits)
                          [Some extract; Some destination; decipher])
                 (fun fv => Decypherx.check_field (fst fv) (snd fv)) w) w.
Proof.
  intros H.
  cbn [Decypherx.field_limits map fst combine Py.for_each snd].
  pose proof (decypherx_check_field "extract" (Some extract) w) as H1.
  pose proof (decypherx_check_field "destination" (Some destination) w) as H2.
  pose proof (decypherx_check_field "decipher" decipher w) as H3.
  cbv zeta in H1, H2, H3.
  change (match find (fun e => fst e =? "extract") Decypherx.field_limits with
          | Some e => snd e | None => O end) with 1024%nat in H1.
  change (match find (fun e => fst e =? "destination") Decypherx.field_limits with
          | Some e => snd e | None => O end) with 1024%nat in H2.
  change (match find (fun e => fst e =? "decipher") Decypherx.field_limits with
          | Some e => snd e | None => O end) with 1024%nat in H3.
  cbn [Decypherx.or_empty] in H1, H2.
  destruct (1024 <=? PyStr.len extract)%nat.
  { destruct H1 as (record & Hrec & Hrun). exists record.
    split; [exact Hrec|]. unfold Py.bind. now rewrite Hrun. }
  rewrite (bind_ret _ _ _ _ _ H1).
  destruct (1024 <=? PyStr.len destination)%nat.
  { destruct H2 as (record & Hrec & Hrun). exists record.
    split; [exact Hrec|]. unfold Py.bind. now rewrite Hrun. }
  rewrite (bind_ret _ _ _ _ _ H2).
  destruct (1024 <=? PyStr.len (Decypherx.or_empty decipher))%nat;
    [|discriminate H].
  destruct H3 as (record & Hrec & Hrun). exists record.
  split; [exact Hrec|]. unfold Py.bind. now rewrite Hrun.
Qed.

(** C8 as stated fails: started in a directory that holds [config.ini]
    only, with a 20-character [compression] setting, [backupx.py] ends with
    exit status 1 after it has created the [logs] directory with both log
    files and the [backups] directory, and has appended its record to
    [logs/errors.log]. *)
Lemma field_limit_abort_follows_mutations :
  let r := Backupx.script (Some Examples.long_settings)
             (fun _ => Py.ret tt) (fun _ => Py.ret tt) Examples.fresh_install in
  Backupx.over_limit Examples.long_settings = true /\
  fst r = Py.Raise (Py.SystemExit 1) /\
  tree (snd r) =
    Dir [("app", Dir [("config.ini", File []);
                      ("logs", Dir [("errors.log", File []); ("info.log", File [])]);
                      ("backups", Dir [])])] /\
  tree (snd r) <> tree Examples.fresh_install /\
  errors_log Examples.fresh_install = [] /\
  errors_log (snd r) =
    ["[SECURITY] Field 'compression' exceeds safe length: 20 >= 20"
     +++ PyStr.newline +++ "Possible overflow or malformed input"].
Proof. cbv zeta. vm_compute. repeat split. discriminate. Qed.

(** The limits count characters: a [source] of 600 characters that take
    two bytes each passes the check of its limit of 1024, and one of 1024
    such characters does not. *)
Example limits_count_characters :
  let e_acute := String (ascii_of_nat 195) (String (ascii_of_nat 169) "") in
  let source n := concat "" (repeat e_acute n) in
  String.length (source 600%nat) = 1200%nat /\
  PyStr.len (source 600%nat) = 600%nat /\
  (forall w,
      Backupx.check_field "source" (Backupx.VStr (source 600%nat)) w = (Py.Ret tt, w)) /\
  (forall w,
      fst (Backupx.check_field "source" (Backupx.VStr (source 1024%nat)) w)
      = Py.Raise (Py.SystemExit 1)).
Proof.
  cbv zeta. split; [|split; [|split]]; try (intros w); vm_compute; reflexivity.
Qed.

(** C8, in the form that holds.  A setting of [backupx.py] (an argument of
    [decypherx.py]) that has as many characters as its declared limit
    allows, or more, ends the run by an exception before the rest of the
    script runs.  By then the preamble of the script has run (it makes the
    [logs] directory with its two log files and the [backups] directory
    when they are missing), and all the run has changed after the preamble
    is that it has appended records to [logs/errors.log]: when the
    preamble succeeded (and, for [backupx.py], [config.ini] is there), that
    is the one "[SECURITY] Field" record, after which the run ends with
    [sys.exit(1)].  A setting that was not loaded, an empty one and the
    number 0 count as empty: when no setting reaches its limit, the check
    changes nothing and the run goes on. *)
Theorem field_limit_abort :
  (forall (c : Backupx.settings) (w : world) (A : Type)
          (prepare : Backupx.settings -> IO A) (run : A -> IO unit),
      Backupx.over_limit c = true ->
      let r := Backupx.script (Some c) prepare run w in
      let p := Backupx.preamble w in
      (exists e, fst r = Py.Raise e) /\
      (exists records,
          snd r = set_errors_log (errors_log (snd p) ++ records) (snd p)) /\
      (fst p = Py.Ret tt ->
       is_file (Os.stat (snd p) "config.ini") = true ->
       aborted_with_record r (snd p)))
  /\
  (forall (c : Backupx.settings) (w : world),
      Backupx.over_limit c = false ->
      Backupx.enforce_field_limits c w = (Py.Ret tt, w))
  /\
  (forall (L : Libraries) (args : Decypherx.arguments) (w : world),
      let r := Decypherx.script args w in
      let p := Decypherx.preamble w in
      Decypherx.over_limit (snd p) args = true ->
      (exists e, fst r = Py.Raise e) /\
      (exists records,
          snd r = set_errors_log (errors_log (snd p) ++ records) (snd p)) /\
      (fst p = Py.Ret tt -> aborted_with_record r (snd p)))
  /\
  (forall (L : Libraries) (args : Decypherx.arguments) (w : world),
      let p := Decypherx.preamble w in
      Decypherx.over_limit (snd p) args = false ->
      fst p = Py.Ret tt ->
      Decypherx.script args w =
      Decypherx.main (Decypherx.arg_extract args)
        (Decypherx.destination_of (snd p) args)
        (Decypherx.arg_decipher args)
        (Decypherx.arg_listen args) (Decypherx.arg_force args) (snd p)).
Proof.
  split; [|split; [|split]].
  - intros c w A prepare run Hover r p.
    subst r p. unfold Backupx.script.
    destruct (Backupx.preamble w) as [[[]|e] w1] eqn:Hp.
    + rewrite (bind_ret _ _ _ _ _ Hp).
      rewrite (bind_ret _ _ _ _ _ (path_isfile_eval w1 _)).
      cbn [fst snd].
      destruct (is_file (Os.stat w1 "config.ini")) eqn:Hcfg; cbn [negb].
      * rewrite (bind_ret _ _ w1 tt w1 eq_refl).
        assert (Hrun : aborted_with_record
                  (Py.bind
                     (Py.try_except
                        (Py.bind (Backupx.enforce_field_limits c) (fun _ => prepare c))
                        Py.is_Exception
                        (fun error =>
                           Py.bind (Log.error ("Error: " +++ Py.str_exn error))
                                   (fun _ => Py.sys_exit 1)))
                     run w1) w1).
        { destruct (enforce_field_limits_aborts c w1 Hover)
            as (record & Hrec & Hrun).
          exists record. split; [exact Hrec|].
          apply bind_raise.
          rewrite try_except_raise
            with (e := Py.SystemExit 1)
                 (w' := set_errors_log (errors_log w1 ++ [record]) w1);
            [reflexivity|].
          now apply bind_raise. }
        destruct (aborted_raises _ _ Hrun) as [Hfst Hsnd].
        split; [eexists; exact Hfst|]. split; [exact Hsnd|].
        intros _ _. exact Hrun.
      * split; [eexists; reflexivity|].
        split; [now exists ["config.ini not found"]|].
        intros _ Hfalse. discriminate Hfalse.
    + rewrite (bind_raise _ _ _ _ _ Hp). cbn [fst snd].
      split; [eexists; reflexivity|].
      split; [exists []; now rewrite set_errors_log_nil|].
      intros Hfalse. discriminate Hfalse.
  - intros c w. apply enforce_field_limits_passes.
  - intros L args w r p Hover.
    subst r p. unfold Decypherx.script.
    destruct (Decypherx.preamble w) as [[[]|e] w1] eqn:Hp.
    + rewrite (bind_ret _ _ _ _ _ Hp).
      rewrite (bind_ret Py.get _ w1 w1 w1 eq_refl).
      cbn [fst snd] in *.
      assert (Hrun : aborted_with_record
                (Py.bind
                   (Py.for_each
                      (combine (map fst Decypherx.field_limits)
                               [Some (Decypherx.arg_extract args);
                                Some (Decypherx.destination_of w1 args);
                                Decypherx.arg_decipher args])
                      (fun fv => Decypherx.check_field (fst fv) (snd fv)))
                   (fun _ =>
                      Decypherx.main (Decypherx.arg_extract args)
                        (Decypherx.destination_of w1 args)
                        (Decypherx.arg_decipher args)
                        (Decypherx.arg_listen args) (Decypherx.arg_force args))
                   w1) w1).
      { destruct (decypherx_checks_abort _ _ _ w1 Hover)
          as (record & Hrec & Hrun).
        exists record. split; [exact Hrec|]. now apply bind_raise. }
      destruct (aborted_raises _ _ Hrun) as [Hfst Hsnd].
      split; [eexists; exact Hfst|]. split; [exact Hsnd|].
      intros _. exact Hrun.
    + rewrite (bind_raise _ _ _ _ _ Hp). cbn [fst snd].
      split; [eexists; reflexivity|].
      split; [exists []; now rewrite set_errors_log_nil|].
      intros Hfalse. discriminate Hfalse.
  - intros L args w p Hpass Hp. subst p. unfold Decypherx.script.
    destruct (Decypherx.preamble w) as [[[]|e] w1] eqn:Hpre;
      [|discriminate Hp].
    cbn [fst snd] in *.
    rewrite (bind_ret _ _ _ _ _ Hpre).
    rewrite (bind_ret Py.get _ w1 w1 w1 eq_refl).
    now rewrite (bind_ret _ _ _ _ _ (decypherx_checks_pass _ _ _ w1 Hpass)).
Qed.

Lemma field_limit_abort_witness :
  Backupx.over_limit Examples.long_settings = true /\
  aborted_with_record
    (Backupx.script (Some Examples.long_settings)
       (fun _ => Py.ret tt) (fun _ => Py.ret tt) Examples.fresh_install)
    (snd (Backupx.preamble Examples.fresh_install)).
Proof.
  split; [reflexivity|].
  apply (proj1 field_limit_abort Examples.long_settings Examples.fresh_install
               unit (fun _ => Py.ret tt) (fun _ => Py.ret tt));
    reflexivity.
Defined.
End FieldLimitClaims.

(* ===================================================================== *)
(** * Properties of the ZIP extraction                                *)
(* ===================================================================== *)

Section Loops.
Context {W A : Type}.

Lemma for_each_app (xs ys : list A) (body : A -> Py.M W unit) w :
  Py.for_each (xs ++ ys) body w =
  match Py.for_each xs body w with
  | (Py.Ret _, w1) => Py.for_each ys body w1
  | (Py.Raise e, w1) => (Py.Raise e, w1)
  end.
Proof.
  revert w. induction xs as [|x xs IH]; intros w; cbn [app Py.for_each].
  - reflexivity.
  - unfold Py.bind. destruct (body x w) as [[[]|e] w']; [apply IH | reflexivity].
Qed.

(** A property of the world that every turn of a loop keeps is kept by
    the loop. *)
Lemma for_each_invariant (P : W -> Prop) (Q : Py.exn -> Prop)
      (xs : list A) (body : A -> Py.M W unit) :
  (forall x w, P w -> P (snd (body x w)) /\
               forall e, fst (body x w) = Py.Raise e -> Q e) ->
  forall w, P w ->
    P (snd (Py.for_each xs body w)) /\
    forall e, fst (Py.for_each xs body w) = Py.Raise e -> Q e.
Proof.
  intros Hbody. induction xs as [|x xs IH]; intros w Hw; cbn [Py.for_each].
  - split; [exact Hw | discriminate].
  - unfold Py.bind. destruct (Hbody x w Hw) as [HP HQ].
    destruct (body x w) as [[[]|e] w']; cbn [fst snd] in *.
    + now apply IH.
    + split; [exact HP | intros e' [= <-]; now apply HQ].
Qed.
End Loops.

Section Extraction.
Import Fs PosixPath.
Context {L : Libraries}.


Lemma makedirs_cwd path w :
  cwd (snd (Os.makedirs path w)) = cwd w /\
  forall e, fst (Os.makedirs path w) = Py.Raise e -> Py.is_Exception e = true.
Proof.
  unfold Os.makedirs, Py.bind, Py.get, Os.os_error, Py.raise, Py.put.
  destruct (Os.resolve w path) as [p|]; [|split; [reflexivity | now intros e [= <-]]].
  destruct (mkdirs p (tree w)); [split; [reflexivity | discriminate]|].
  destruct (is_file _); split; try reflexivity; now intros e [= <-].
Qed.

Lemma write_bytes_cwd path data w :
  cwd (snd (Os.write_bytes path data w)) = cwd w /\
  forall e, fst (Os.write_bytes path data w) = Py.Raise e -> Py.is_Exception e = true.
Proof.
  unfold Os.write_bytes, Py.bind, Py.get, Os.os_error, Py.raise, Py.put.
  destruct (Os.resolve w path) as [p|]; [|split; [reflexivity | now intros e [= <-]]].
  destruct (lookup p (tree w)) as [[?|?]|];
    try (split; [reflexivity | now intros e [= <-]]);
    (destruct p; [|destruct (place _ _ _)]);
    try (split; [reflexivity | discriminate]);
    destruct (is_file _); split; try reflexivity; now intros e [= <-].
Qed.

Lemma zip_read_raises a password member e :
  Zip.read a password member = Py.Raise e -> Py.is_Exception e = true.
Proof.
  unfold Zip.read. destruct (Zip.getinfo a member); [|now intros [= <-]].
  destruct (Zip.encryption a); [|discriminate].
  destruct password as [p|]; [|now intros [= <-]].
  destruct (_ && _); [discriminate | now intros [= <-]].
Qed.

Lemma extract_member_inside w archive destination password member :
  isabs (cwd w) = true ->
  nested_under w destination (join destination member) = true ->
  ExtractZip.extract_member archive destination password member w =
    Py.bind (Os.makedirs (dirname (join destination member)))
      (fun _ => Py.bind (Py.lift (Zip.read archive password member))
         (fun data => Os.write_bytes (join destination member) data)) w.
Proof.
  intros Habs Hin. unfold ExtractZip.extract_member.
  rewrite (bind_ret _ _ _ _ _ (is_within_directory_spec w _ _ Habs)).
  unfold nested_under in Hin. rewrite Hin. cbn [negb].
  now rewrite (bind_ret _ _ w tt w eq_refl).
Qed.

Lemma extract_member_outside w archive destination password member :
  isabs (cwd w) = true ->
  nested_under w destination (join destination member) = false ->
  ExtractZip.extract_member archive destination password member w =
    (Py.Raise (Py.SystemExit 1),
     set_errors_log (errors_log w ++ ["Zip-Slip attempt detected: " +++ member]) w).
Proof.
  intros Habs Hout. unfold ExtractZip.extract_member.
  rewrite (bind_ret _ _ _ _ _ (is_within_directory_spec w _ _ Habs)).
  unfold nested_under in Hout. rewrite Hout. cbn [negb].
  reflexivity.
Qed.

Lemma extract_member_keeps_cwd archive destination password member w :
  isabs (cwd w) = true ->
  cwd (snd (ExtractZip.extract_member archive destination password member w)) = cwd w /\
  forall e,
    fst (ExtractZip.extract_member archive destination password member w) = Py.Raise e ->
    extraction_error e.
Proof.
  intros Habs.
  destruct (nested_under w destination (join destination member)) eqn:Hin.
  - rewrite extract_member_inside by assumption.
    unfold Py.bind, Py.lift.
    destruct (makedirs_cwd (dirname (join destination member)) w) as [Hc He].
    destruct (Os.makedirs _ w) as [[[]|e] w1]; cbn [fst snd] in *.
    + destruct (Zip.read archive password member) as [data|e] eqn:Hread.
      * destruct (write_bytes_cwd (join destination member) data w1) as [Hc2 He2].
        split; [congruence|]. intros e H. left. now apply He2.
      * split; [exact Hc|]. intros e' [= <-]. left.
        now apply zip_read_raises in Hread.
    + split; [exact Hc|]. intros e' [= <-]. left. now apply He.
  - rewrite extract_member_outside by assumption. cbn [fst snd].
    split; [reflexivity|]. intros e [= <-]. now right.
Qed.

Lemma extract_members_keep_cwd archive destination password members w :
  isabs (cwd w) = true ->
  cwd (snd (Py.for_each members
              (ExtractZip.extract_member archive destination password) w)) = cwd w /\
  forall e,
    fst (Py.for_each members
           (ExtractZip.extract_member archive destination password) w) = Py.Raise e ->
    extraction_error e.
Proof.
  intros Habs.
  pose proof (for_each_invariant (fun w' => cwd w' = cwd w) extraction_error members
                (ExtractZip.extract_member archive destination password)) as H.
  apply H; [|reflexivity].
  intros x w' Hw'.
  destruct (extract_member_keeps_cwd archive destination password x w') as [Hc He];
    [congruence|].
  split; [congruence | exact He].
Qed.

Lemma open_zip_ok w archive_name data archive :
  Os.stat w archive_name = Some (File data) ->
  zip_read data = Some archive ->
  FileList.open_zip archive_name w = (Py.Ret archive, w).
Proof.
  intros Hstat Hread. unfold FileList.open_zip.
  rewrite (bind_ret _ _ _ _ _ (read_bytes_file _ _ _ Hstat)).
  now rewrite Hread.
Qed.
End Extraction.

(* ===================================================================== *)
(** * The ZIP extraction where directories hold symbolic links             *)
(* ===================================================================== *)

Section MakedirsFuel.
Import PosixPath.

Lemma length_rstrip c s : (String.length (rstrip c s) <= String.length s)%nat.
Proof.
  induction s as [|a s IH]; [apply le_n|]. cbn [rstrip].
  destruct ((rstrip c s =? "") && Ascii.eqb a c); cbn [String.length]; lia.
Qed.

Lemma rsplit1_parts c s h t :
  rsplit1 c s = Some (h, t) -> s = h +++ String c t.
Proof.
  revert h. induction s as [|a s IH]; intros h; [discriminate|].
  cbn [rsplit1]. destruct (rsplit1 c s) as [[h' t']|] eqn:E.
  - intros [= <- <-]. now rewrite (IH h' eq_refl).
  - destruct (Ascii.eqb_spec a c) as [->|Hne]; [|discriminate].
    now intros [= <- <-].
Qed.

(** The head and the tail that [os.path.split] makes of a name are not
    longer than the name, taken together. *)
Lemma length_path_split name :
  (String.length (dirname name) + String.length (basename name)
   <= String.length name)%nat.
Proof.
  unfold dirname, basename.
  destruct (rsplit1 sep name) as [[h t]|] eqn:E; [|cbn; lia].
  apply rsplit1_parts in E. subst name.
  rewrite !length_append. cbn [String.length].
  destruct (all_sep (h +++ "/")).
  - rewrite length_append. cbn. lia.
  - pose proof (length_rstrip sep (h +++ "/")) as H.
    rewrite length_append in H. cbn [String.length] in H. lia.
Qed.

Lemma length_nonempty s : (s =? "") = false -> (0 < String.length s)%nat.
Proof. destruct s; [discriminate | cbn; lia]. Qed.

Lemma bind_same {W A B} (m : Py.M W A) (k k' : A -> Py.M W B) w :
  (forall a w', k a w' = k' a w') -> Py.bind m k w = Py.bind m k' w.
Proof. intros H. unfold Py.bind. destruct (m w) as [[a|e] w']; [apply H | reflexivity]. Qed.

Lemma bind_first {W A B} (m m' : Py.M W A) (k : A -> Py.M W B) w :
  m w = m' w -> Py.bind m k w = Py.bind m' k w.
Proof. intros H. unfold Py.bind. now rewrite H. Qed.

(** [makedirs] never runs out of fuel: with the length of the name, or
    more, the outcome is the same whatever the fuel. *)
Lemma makedirs_within_enough : forall fuel fuel' name w,
  (String.length name <= fuel)%nat -> (String.length name <= fuel')%nat ->
  Linked.Os.makedirs_within fuel name w = Linked.Os.makedirs_within fuel' name w.
Proof.
  induction fuel as [|fuel IH]; intros fuel' name w Hf Hf'.
  - destruct name; [|cbn in Hf; lia].
    destruct fuel'; reflexivity.
  - destruct fuel' as [|fuel'].
    { destruct name; [reflexivity | cbn in Hf'; lia]. }
    cbn [Linked.Os.makedirs_within]. unfold Linked.Os.path_split.
    pose proof (length_path_split name) as Hsplit.
    set (head := dirname name) in *. set (tail := basename name) in *.
    assert (Hrec : forall head' tail',
               (if tail =? "" then (dirname head, basename head) else (head, tail))
               = (head', tail') ->
               (tail' =? "") = false ->
               (String.length head' <= fuel)%nat /\ (String.length head' <= fuel')%nat).
    { intros head' tail' E Ht.
      destruct (tail =? "") eqn:Etail.
      - injection E as <- <-. pose proof (length_path_split head) as H2.
        apply length_nonempty in Ht. lia.
      - injection E as <- <-. apply length_nonempty in Ht. lia. }
    destruct (if tail =? "" then (dirname head, basename head) else (head, tail))
      as [head' tail'].
    specialize (Hrec head' tail' eq_refl).
    apply bind_same; intros head_exists w1.
    apply bind_first.
    destruct (negb (head' =? "") && negb (tail' =? "") && negb head_exists) eqn:Hc;
      [|reflexivity].
    apply andb_true_iff in Hc. destruct Hc as [Hc _].
    apply andb_true_iff in Hc. destruct Hc as [_ Ht].
    apply negb_true_iff in Ht. destruct (Hrec Ht) as [H1 H2].
    apply bind_first. unfold Py.try_except.
    now rewrite (IH fuel' head' w1 H1 H2).
Qed.
End MakedirsFuel.

Section LinkedExtraction.
Import PosixPath.
Context {L : Libraries}.

Lemma tame_ret {A} (a : A) : tame (Py.ret a).
Proof. intros w. split; [reflexivity | discriminate]. Qed.

Lemma tame_raise {A} cls msg : tame (A := A) (Py.raise (Py.Exception cls msg)).
Proof. intros w. split; [reflexivity | now intros e [= <-]]. Qed.

Lemma tame_os_error {A} e path : tame (A := A) (Linked.Os.os_error e path).
Proof. apply tame_raise. Qed.

Lemma tame_bind {A B} (m : Linked.IO A) (k : A -> Linked.IO B) :
  tame m -> (forall a, tame (k a)) -> tame (Py.bind m k).
Proof.
  intros Hm Hk w. unfold Py.bind. destruct (Hm w) as [Hc He].
  destruct (m w) as [[a|e] w1]; cbn [fst snd] in *.
  - destruct (Hk a w1) as [Hc1 He1]. split; [congruence | exact He1].
  - split; [exact Hc | intros e' [= <-]; now apply He].
Qed.

Lemma tame_try_except {A} (m : Linked.IO A) handles handler :
  tame m -> (forall e, tame (handler e)) -> tame (Py.try_except m handles handler).
Proof.
  intros Hm Hh w. unfold Py.try_except. destruct (Hm w) as [Hc He].
  destruct (m w) as [[a|e] w1]; cbn [fst snd] in *.
  - split; [exact Hc | discriminate].
  - destruct (handles e).
    + destruct (Hh e w1) as [Hc1 He1]. split; [congruence | exact He1].
    + split; [exact Hc | exact He].
Qed.

Lemma tame_get_ret {A} (f : Linked.world -> A) :
  tame (Py.bind Py.get (fun w => Py.ret (f w))).
Proof. intros w. split; [reflexivity | discriminate]. Qed.

Lemma tame_mkdir path : tame (Linked.Os.mkdir path).
Proof.
  intros w. unfold Linked.Os.mkdir, Py.bind, Py.get.
  destruct (Linked.Os.locate false w path) as [p|p rest|p target rest|e];
    try apply tame_os_error.
  destruct (Linked.Os.trailing rest); [|apply tame_os_error].
  destruct (Linked.place p _ _); [|apply tame_os_error].
  split; [reflexivity | discriminate].
Qed.

Lemma tame_write_bytes path data : tame (Linked.Os.write_bytes path data).
Proof.
  intros w. unfold Linked.Os.write_bytes, Py.bind, Py.get.
  destruct (Linked.Os.locate true w path) as [p|p rest|p target rest|e];
    try apply tame_os_error.
  - destruct (Linked.lookup p _) as [[?|?|?]|]; try apply tame_os_error.
    destruct (Linked.place p _ _); [|apply tame_os_error].
    split; [reflexivity | discriminate].
  - destruct rest; [|apply tame_os_error].
    destruct (Linked.place p _ _); [|apply tame_os_error].
    split; [reflexivity | discriminate].
Qed.

Lemma tame_path_exists path : tame (Linked.Os.path_exists path).
Proof. apply tame_get_ret. Qed.

Lemma tame_path_isdir path : tame (Linked.Os.path_isdir path).
Proof. apply tame_get_ret. Qed.

Lemma tame_makedirs_within fuel : forall name,
  tame (Linked.Os.makedirs_within fuel name).
Proof.
  assert (Hlast : forall name done,
             tame (if done : bool then Py.ret tt
                   else Py.try_except (Linked.Os.mkdir name)
                          (fun e => Py.is_instance e [Py.OSError])
                          (fun e =>
                             Py.bind (Linked.Os.path_isdir name)
                               (fun isdir =>
                                  if negb isdir then Py.raise e else Py.ret tt)))).
  { intros name [|]; [apply tame_ret|].
    intros w. unfold Py.try_except.
    destruct (tame_mkdir name w) as [Hc He].
    destruct (Linked.Os.mkdir name w) as [[[]|e] w1]; cbn [fst snd] in *;
      [split; [exact Hc | discriminate]|].
    specialize (He e eq_refl).
    destruct (Py.is_instance e [Py.OSError]);
      [|split; [exact Hc | intros e' [= <-]; exact He]].
    destruct e as [code| |cls msg]; try discriminate He.
    destruct (tame_bind (Linked.Os.path_isdir name)
                (fun isdir : bool =>
                   if negb isdir then Py.raise (Py.Exception cls msg)
                   else Py.ret tt)
                (tame_path_isdir name)
                ltac:(intros [|]; [apply tame_ret | apply tame_raise]) w1)
      as [Hc1 He1].
    cbv beta. split; [exact (eq_trans Hc1 Hc) | exact He1]. }
  induction fuel as [|fuel IH]; intros name; cbn [Linked.Os.makedirs_within];
    destruct (Linked.Os.path_split name) as [head tail];
    destruct (if tail =? "" then Linked.Os.path_split head else (head, tail))
      as [head' tail'];
    (apply tame_bind; [apply tame_path_exists|]); intros head_exists;
    (apply tame_bind; [|intros done; apply Hlast]).
  - destruct (_ && _); [apply tame_raise | apply tame_ret].
  - destruct (_ && _); [|apply tame_ret].
    apply tame_bind; [|intros; apply tame_ret].
    apply tame_try_except; [apply IH | intros; apply tame_ret].
Qed.

Lemma tame_makedirs name : tame (Linked.Os.makedirs name).
Proof. apply tame_makedirs_within. Qed.

Lemma linked_is_within_directory_spec w base target :
  isabs (Linked.cwd w) = true ->
  Linked.ExtractZip.is_within_directory base target w =
    (Py.Ret (textually_under (Linked.cwd w) base target), w).
Proof.
  intros Habs.
  unfold Linked.ExtractZip.is_within_directory, Py.bind, Py.get, Py.lift, Py.ret.
  rewrite commonpath_one, commonpath_two by now apply isabs_abspath.
  f_equal. f_equal. unfold textually_under.
  set (b := components (abspath (Linked.cwd w) base)).
  set (t := components (abspath (Linked.cwd w) target)).
  destruct (Fs.is_prefix b t) eqn:E.
  - apply common_prefix_is_prefix in E. rewrite E. apply String.eqb_refl.
  - apply String.eqb_neq. intros Heq. injection Heq as Heq.
    apply concat_components_inj in Heq.
    + symmetry in Heq. apply common_prefix_is_prefix in Heq. congruence.
    + apply components_are_components.
    + apply common_prefix_components, components_are_components.
Qed.

Lemma linked_extract_member_inside w archive destination password member :
  isabs (Linked.cwd w) = true ->
  textually_under (Linked.cwd w) destination (join destination member) = true ->
  Linked.ExtractZip.extract_member archive destination password member w =
    Py.bind (Linked.Os.makedirs (dirname (join destination member)))
      (fun _ => Py.bind (Py.lift (Zip.read archive password member))
         (fun data => Linked.Os.write_bytes (join destination member) data)) w.
Proof.
  intros Habs Hin. unfold Linked.ExtractZip.extract_member.
  rewrite (bind_ret _ _ _ _ _ (linked_is_within_directory_spec w _ _ Habs)).
  rewrite Hin. cbn [negb].
  now rewrite (bind_ret _ _ w tt w eq_refl).
Qed.

Lemma linked_extract_member_outside w archive destination password member :
  isabs (Linked.cwd w) = true ->
  textually_under (Linked.cwd w) destination (join destination member) = false ->
  Linked.ExtractZip.extract_member archive destination password member w =
    (Py.Raise (Py.SystemExit 1),
     Linked.set_errors_log
       (Linked.errors_log w ++ ["Zip-Slip attempt detected: " +++ member]) w).
Proof.
  intros Habs Hout. unfold Linked.ExtractZip.extract_member.
  rewrite (bind_ret _ _ _ _ _ (linked_is_within_directory_spec w _ _ Habs)).
  rewrite Hout. cbn [negb].
  reflexivity.
Qed.

Lemma linked_extract_member_keeps_cwd archive destination password member w :
  isabs (Linked.cwd w) = true ->
  Linked.cwd (snd (Linked.ExtractZip.extract_member archive destination password member w))
  = Linked.cwd w /\
  forall e,
    fst (Linked.ExtractZip.extract_member archive destination password member w)
    = Py.Raise e ->
    extraction_error e.
Proof.
  intros Habs.
  destruct (textually_under (Linked.cwd w) destination (join destination member))
    eqn:Hin.
  - rewrite linked_extract_member_inside by assumption.
    assert (Ht : tame
              (Py.bind (Linked.Os.makedirs (dirname (join destination member)))
                 (fun _ => Py.bind (Py.lift (Zip.read archive password member))
                    (fun data =>
                       Linked.Os.write_bytes (join destination member) data)))).
    { apply tame_bind; [apply tame_makedirs|]. intros _.
      apply tame_bind; [|intros data; apply tame_write_bytes].
      intros w'. unfold Py.lift. split; [reflexivity|]. cbn [fst].
      intros e He. now apply zip_read_raises in He. }
    destruct (Ht w) as [Hc He]. split; [exact Hc|].
    intros e H. left. now apply He.
  - rewrite linked_extract_member_outside by assumption. cbn [fst snd].
    split; [reflexivity|]. intros e [= <-]. now right.
Qed.

Lemma linked_extract_members_keep_cwd archive destination password members w :
  isabs (Linked.cwd w) = true ->
  Linked.cwd (snd (Py.for_each members
              (Linked.ExtractZip.extract_member archive destination password) w))
  = Linked.cwd w /\
  forall e,
    fst (Py.for_each members
           (Linked.ExtractZip.extract_member archive destination password) w)
    = Py.Raise e ->
    extraction_error e.
Proof.
  intros Habs.
  pose proof (for_each_invariant (fun w' => Linked.cwd w' = Linked.cwd w)
                extraction_error members
                (Linked.ExtractZip.extract_member archive destination password)) as H.
  apply H; [|reflexivity].
  intros x w' Hw'.
  destruct (linked_extract_member_keeps_cwd archive destination password x w')
    as [Hc He]; [congruence|].
  split; [congruence | exact He].
Qed.

Lemma linked_open_zip_ok w archive_name data archive :
  Linked.Os.stat w archive_name = Some (Linked.File data) ->
  zip_read data = Some archive ->
  Linked.ExtractZip.open_zip archive_name w = (Py.Ret archive, w).
Proof.
  intros Hstat Hread.
  unfold Linked.ExtractZip.open_zip, Linked.Os.read_bytes, Py.bind, Py.get.
  unfold Linked.Os.stat in Hstat.
  destruct (Linked.Os.locate true w archive_name); try discriminate.
  rewrite Hstat. unfold Py.ret. now rewrite Hread.
Qed.

(** C1, in the form that holds.  A ZIP archive has a member whose path, joined to
    the destination, is not the destination or a path below it as far as
    the strings tell ([os.path.abspath], which follows no symbolic link).
    Then the extraction ends with [sys.exit(1)], and the file system,
    symbolic links included, is left exactly as the extraction of the
    members before that one left it: nothing is written for the member or
    after it, and what was written before it stays.  When the members
    before it were extracted without error, the run logs the record
    "Zip-Slip attempt detected" with the member's name. *)
Theorem zip_slip_aborts w archive_name destination password data archive
        pre member post :
  isabs (Linked.cwd w) = true ->
  Linked.Os.stat w archive_name = Some (Linked.File data) ->
  zip_read data = Some archive ->
  Zip.namelist archive = pre ++ member :: post ->
  textually_under (Linked.cwd w) destination (join destination member) = false ->
  let before :=
    Py.for_each pre
      (Linked.ExtractZip.extract_member archive destination password) w in
  let r := Linked.ExtractZip.extract_zip_aes archive_name destination password w in
  fst r = Py.Raise (Py.SystemExit 1) /\
  Linked.tree (snd r) = Linked.tree (snd before) /\
  (fst before = Py.Ret tt ->
   snd r = Linked.set_errors_log
             (Linked.errors_log (snd before)
                ++ ["Zip-Slip attempt detected: " +++ member])
             (snd before)).
Proof.
  intros Habs Hstat Hread Hnames Hout before r. subst r.
  unfold Linked.ExtractZip.extract_zip_aes.
  destruct (linked_extract_members_keep_cwd archive destination password pre w Habs)
    as [Hcwd Herr].
  fold before in Hcwd, Herr.
  assert (Hloop :
    Py.for_each (Zip.namelist archive)
      (Linked.ExtractZip.extract_member archive destination password) w =
    match before with
    | (Py.Ret _, w1) =>
        (Py.Raise (Py.SystemExit 1),
         Linked.set_errors_log
           (Linked.errors_log w1 ++ ["Zip-Slip attempt detected: " +++ member]) w1)
    | (Py.Raise e, w1) => (Py.Raise e, w1)
    end).
  { rewrite Hnames, for_each_app. fold before.
    destruct before as [[[]|e] w1]; [|reflexivity]. cbn [snd] in Hcwd.
    cbn [Py.for_each].
    assert (Habs1 : isabs (Linked.cwd w1) = true) by congruence.
    apply bind_raise. apply linked_extract_member_outside; [exact Habs1|].
    now rewrite Hcwd. }
  destruct before as [[[]|e] w1] eqn:Hbefore; cbn [fst snd] in *.
  - rewrite try_except_raise
      with (e := Py.SystemExit 1)
           (w' := Linked.set_errors_log
                    (Linked.errors_log w1
                       ++ ["Zip-Slip attempt detected: " +++ member]) w1).
    + cbn [Py.is_Exception fst snd]. repeat split.
    + rewrite (bind_ret _ _ _ _ _ (linked_open_zip_ok _ _ _ _ Hstat Hread)).
      apply bind_raise. exact Hloop.
  - rewrite try_except_raise with (e := e) (w' := w1).
    + destruct (Herr e eq_refl) as [He| ->].
      * rewrite He. cbn. repeat split. discriminate.
      * cbn. repeat split. discriminate.
    + rewrite (bind_ret _ _ _ _ _ (linked_open_zip_ok _ _ _ _ Hstat Hread)).
      apply bind_raise. exact Hloop.
Qed.
End LinkedExtraction.

Lemma zip_slip_aborts_witness :
  let L := Examples.toy_libraries in
  let w := Examples.linked_restore_world in
  let r := Linked.ExtractZip.extract_zip_aes "in.zip" "out" None w in
  textually_under "/srv" "out" (PosixPath.join "out" "../../etc/evil.txt") = false /\
  fst r = Py.Raise (Py.SystemExit 1) /\
  Linked.tree (snd r) =
    Linked.tree
      (snd (Py.for_each ["docs/readme.txt"]
              (Linked.ExtractZip.extract_member Examples.evil_archive "out" None) w)).
Proof.
  cbv zeta.
  split; [reflexivity|].
  destruct (@zip_slip_aborts Examples.toy_libraries
              Examples.linked_restore_world "in.zip" "out" None
              (Examples.toy_write Examples.evil_archive) Examples.evil_archive
              ["docs/readme.txt"] "../../etc/evil.txt" ["docs/later.txt"]
              eq_refl eq_refl eq_refl eq_refl eq_refl)
    as (H1 & H2 & _).
  split; assumption.
Defined.

(** C1 as stated fails: the destination [/srv/out] holds a symbolic link
    [link] to [/etc], and the archive a member [link/evil.txt].  The path
    of the member leads to [/etc/evil.txt], which is not below the
    destination, yet it passes the test on the strings: the extraction
    ends without error and without a record, and has written the file
    [/etc/evil.txt]. *)
Lemma zip_slip_through_a_symbolic_link :
  let L := Examples.toy_libraries in
  let w := Examples.linked_world in
  let r := Linked.ExtractZip.extract_zip_aes "/srv/in.zip" "/srv/out" None w in
  zip_read (Examples.toy_write Examples.link_archive) = Some Examples.link_archive /\
  Linked.Os.locate true w (PosixPath.join "/srv/out" "link/evil.txt")
    = Linked.Absent ["etc"; "evil.txt"] [] /\
  Fs.is_prefix ["srv"; "out"] ["etc"; "evil.txt"] = false /\
  fst r = Py.Ret tt /\
  Linked.errors_log (snd r) = [] /\
  Linked.lookup ["etc"; "evil.txt"] (Linked.tree w) = None /\
  Linked.lookup ["etc"; "evil.txt"] (Linked.tree (snd r))
    = Some (Linked.File (list_byte_of_string "evil")) /\
  Linked.lookup ["srv"; "out"] (Linked.tree (snd r))
    = Some (Linked.Dir [("link", Linked.Link "/etc")]).
Proof. cbv zeta. vm_compute. repeat split. Qed.



(* ===================================================================== *)
(** * Properties of the 7z extraction                                 *)
(* ===================================================================== *)

Section Extraction7z.
Import Fs PosixPath.
Context {L : Libraries}.

Lemma check_member_eval w destination member :
  isabs (cwd w) = true ->
  Extract7z.check_member destination member w =
    if nested_under w destination (join destination member)
    then (Py.Ret tt, w)
    else (Py.Raise (Py.SystemExit 1),
          set_errors_log
            (errors_log w ++ ["Zip-Slip attempt detected in: " +++ member]) w).
Proof.
  intros Habs. unfold Extract7z.check_member.
  rewrite is_within_directory_same.
  rewrite (bind_ret _ _ _ _ _ (is_within_directory_spec w _ _ Habs)).
  unfold nested_under.
  destruct (is_prefix _ _); reflexivity.
Qed.

Lemma check_members_pass w destination members :
  isabs (cwd w) = true ->
  forallb (fun m => nested_under w destination (join destination m)) members = true ->
  Py.for_each members (Extract7z.check_member destination) w = (Py.Ret tt, w).
Proof.
  intros Habs. induction members as [|m ms IH]; cbn [forallb Py.for_each];
    [reflexivity|].
  intros H. apply andb_true_iff in H. destruct H as [Hm Hms].
  rewrite (bind_ret _ _ w tt w).
  - now apply IH.
  - rewrite check_member_eval by assumption. now rewrite Hm.
Qed.

Lemma check_members_fail w destination pre member post :
  isabs (cwd w) = true ->
  forallb (fun m => nested_under w destination (join destination m)) pre = true ->
  nested_under w destination (join destination member) = false ->
  Py.for_each (pre ++ member :: post) (Extract7z.check_member destination) w =
    (Py.Raise (Py.SystemExit 1),
     set_errors_log
       (errors_log w ++ ["Zip-Slip attempt detected in: " +++ member]) w).
Proof.
  intros Habs Hpre Hout.
  rewrite for_each_app, check_members_pass by assumption.
  cbn [Py.for_each]. apply bind_raise.
  rewrite check_member_eval by assumption. now rewrite Hout.
Qed.

Lemma first_outside w destination members :
  forallb (fun m => nested_under w destination (join destination m)) members = false ->
  exists pre member post,
    members = pre ++ member :: post /\
    forallb (fun m => nested_under w destination (join destination m)) pre = true /\
    nested_under w destination (join destination member) = false.
Proof.
  induction members as [|m ms IH]; cbn [forallb]; [discriminate|].
  destruct (nested_under w destination (join destination m)) eqn:Hm; cbn [andb].
  - intros H. destruct (IH H) as (pre & member & post & -> & Hpre & Hout).
    exists (m :: pre), member, post. cbn [forallb]. rewrite Hm. auto.
  - intros _. exists [], m, ms. auto.
Qed.

Lemma open_7z_ok w source_file data names :
  Os.stat w source_file = Some (File data) ->
  sevenz_getnames data = Some names ->
  FileList.open_7z source_file w = (Py.Ret data, w) /\
  FileList.getnames data = names.
Proof.
  intros Hstat Hnames. unfold FileList.open_7z, FileList.getnames.
  rewrite (bind_ret _ _ _ _ _ (read_bytes_file _ _ _ Hstat)).
  now rewrite Hnames.
Qed.

(** C2.  For a 7z archive all members are tested before [extractall] is
    called.  When a member's path, joined to the destination, does not
    resolve to the destination or below it, the run ends with [sys.exit(1)]
    and the record "Zip-Slip attempt detected in" with the first such
    member; the world is otherwise untouched, so that no member at all is
    extracted.  When every member passes, [extractall] runs on the world as
    it was found: nothing was written before it. *)
Theorem sevenz_all_or_nothing w source_file destination data names :
  isabs (cwd w) = true ->
  Os.stat w source_file = Some (File data) ->
  sevenz_getnames data = Some names ->
  (forallb (fun m => nested_under w destination (join destination m)) names = false ->
   exists member,
     In member names /\
     nested_under w destination (join destination member) = false /\
     Extract7z.extract_7z source_file destination w =
       (Py.Raise (Py.SystemExit 1),
        set_errors_log
          (errors_log w ++ ["Zip-Slip attempt detected in: " +++ member]) w))
  /\
  (forallb (fun m => nested_under w destination (join destination m)) names = true ->
   Extract7z.extract_7z source_file destination w =
     Py.try_except
       (Py.bind (sevenz_extractall data destination)
          (fun _ => Log.info ("Archive '" +++ source_file
                              +++ "' extracted successfully to '"
                              +++ destination +++ "'.")))
       Py.is_Exception
       (fun error =>
          Py.bind (Log.error ("Error extracting archive '" +++ source_file
                              +++ "': " +++ Py.str_exn error))
                  (fun _ => Py.sys_exit 1)) w).
Proof.
  intros Habs Hstat Hnames.
  destruct (open_7z_ok _ _ _ _ Hstat Hnames) as [Hopen Hget].
  split.
  - intros Hfail.
    destruct (first_outside _ _ _ Hfail) as (pre & member & post & -> & Hpre & Hout).
    exists member. split; [apply in_or_app; right; now left|].
    split; [exact Hout|].
    unfold Extract7z.extract_7z.
    rewrite try_except_raise
      with (e := Py.SystemExit 1)
           (w' := set_errors_log
                    (errors_log w ++ ["Zip-Slip attempt detected in: " +++ member]) w);
      [reflexivity|].
    rewrite (bind_ret _ _ _ _ _ Hopen). rewrite Hget.
    apply bind_raise. now apply check_members_fail.
  - intros Hpass.
    unfold Extract7z.extract_7z, Py.try_except.
    rewrite (bind_ret _ _ _ _ _ Hopen). rewrite Hget.
    rewrite (bind_ret _ _ _ _ _ (check_members_pass _ _ _ Habs Hpass)).
    reflexivity.
Qed.
End Extraction7z.

Lemma sevenz_all_or_nothing_witness :
  let L := Examples.fixed_libraries Examples.evil_archive
             ["docs/readme.txt"; "/etc/passwd"] in
  exists member,
    In member ["docs/readme.txt"; "/etc/passwd"] /\
    Extract7z.extract_7z "in.7z" "out" Examples.restore_world =
      (Py.Raise (Py.SystemExit 1),
       set_errors_log
         (errors_log Examples.restore_world
            ++ ["Zip-Slip attempt detected in: " +++ member])
         Examples.restore_world).
Proof.
  cbv zeta.
  destruct (@sevenz_all_or_nothing
              (Examples.fixed_libraries Examples.evil_archive
                 ["docs/readme.txt"; "/etc/passwd"])
              Examples.restore_world "in.7z" "out" []
              ["docs/readme.txt"; "/etc/passwd"]) as [H _]; try reflexivity.
  destruct (H eq_refl) as (member & Hin & _ & Hrun).
  exists member. split; assumption.
Defined.


(* ===================================================================== *)
(** * Renaming an entry of a directory                                *)
(* ===================================================================== *)

Section DirectoryEntries.
Import Fs.

Lemma unlink_cons x q es child c1 :
  q <> [] -> find_entry x es = Some child -> unlink q child = Some c1 ->
  unlink (x :: q) (Dir es) = Some (Dir (set_entry x c1 es)).
Proof.
  intros Hq E Hu. cbn [unlink]. rewrite E.
  destruct q; [contradiction|]. now rewrite Hu.
Qed.

Lemma unlink_child d a t des n :
  lookup d t = Some (Dir des) -> find_entry a des = Some n ->
  exists t1, unlink (d ++ [a]) t = Some t1 /\
             lookup d t1 = Some (Dir (del_entry a des)).
Proof.
  revert t. induction d as [|x d IH]; intros t Hd Ha; cbn [app] in *.
  - cbn in Hd. injection Hd as ->. cbn. rewrite Ha. eauto.
  - cbn in Hd. destruct t as [|es]; [discriminate|].
    destruct (find_entry x es) as [child|] eqn:E; [|discriminate].
    destruct (IH child Hd Ha) as (c1 & Hu & Hl).
    rewrite (unlink_cons x (d ++ [a]) es child c1); [| now destruct d | exact E | exact Hu].
    eexists. split; [reflexivity|]. cbn. now rewrite find_set_entry_same.
Qed.


Lemma lookup_unlink_other p q t t' :
  unlink p t = Some t' ->
  is_prefix p q = false -> is_prefix q p = false ->
  lookup q t' = lookup q t.
Proof.
  revert q t t'. induction p as [|c p IH]; intros q t t' H Hpq Hqp.
  - discriminate Hpq.
  - destruct q as [|e q]; [discriminate Hqp|].
    cbn [unlink] in H. destruct t as [|es]; [discriminate|].
    cbn [is_prefix] in Hpq, Hqp.
    destruct (find_entry c es) as [child|] eqn:E; [|discriminate].
    destruct (String.eqb_spec c e) as [->|Hne].
    + rewrite String.eqb_refl in Hqp. cbn [andb] in Hpq, Hqp.
      destruct p as [|c' p]; [discriminate Hpq|].
      destruct (unlink (c' :: p) child) as [child'|] eqn:U; [|discriminate].
      injection H as <-. cbn [lookup]. rewrite find_set_entry_same, E. eauto.
    + destruct p as [|c' p].
      * injection H as <-. cbn [lookup]. now rewrite find_del_entry_other.
      * destruct (unlink (c' :: p) child) as [child'|] eqn:U; [|discriminate].
        injection H as <-. cbn [lookup]. now rewrite find_set_entry_other.
Qed.

Lemma is_prefix_shorter d c q : is_prefix d q = false -> is_prefix (d ++ [c]) q = false.
Proof.
  revert q. induction d as [|x d IH]; intros q H; [discriminate|].
  destruct q as [|y q]; [reflexivity|]. cbn [app is_prefix] in *.
  destruct (x =? y); [cbn [andb] in *; now apply IH | reflexivity].
Qed.

Lemma lookup_child d c t des :
  lookup d t = Some (Dir des) -> lookup (d ++ [c]) t = find_entry c des.
Proof.
  intros H. rewrite lookup_app, H. cbn. now destruct (find_entry c des).
Qed.


End DirectoryEntries.

Section RenameFacts.
Import Fs PosixPath.



Lemma valid_names_snoc d c :
  valid_names d -> valid_name c = true -> valid_names (d ++ [c]).
Proof.
  intros Hd Hc. apply valid_names_app. split; [assumption|].
  constructor; [assumption | constructor].
Qed.


End RenameFacts.


(* ===================================================================== *)
(** * The turns of the conflict loop                                  *)
(* ===================================================================== *)

Section ConflictRenames.
Import Fs PosixPath.







End ConflictRenames.


(* ===================================================================== *)
(** * The conflict loop over the top-level directories                *)
(* ===================================================================== *)

Section ConflictRenameClaims.
Context {L : Libraries}.
Import Fs PosixPath.





End ConflictRenameClaims.


(* ===================================================================== *)
(** * The run of [main] up to the renames                             *)
(* ===================================================================== *)

Section RestoreRuns.
Context {L : Libraries}.
Import Fs PosixPath.

Lemma set_tree_same w : set_tree (tree w) w = w.
Proof. now destruct w. Qed.







End RestoreRuns.


(* ===================================================================== *)
(** * The conflict loop over the entries of a flat archive            *)
(* ===================================================================== *)

Section FlatArchives.
Context {L : Libraries}.
Import Fs PosixPath.








End FlatArchives.


(* ===================================================================== *)
(** * Properties of the restore run                                   *)
(* ===================================================================== *)

Section RestoreClaims.
Context {L : Libraries}.
Import Fs PosixPath.





End RestoreClaims.





(* ===================================================================== *)
(** * Relative paths in normal form                                   *)
(* ===================================================================== *)

Section RelativePaths.
Import PosixPath.

Lemma rel_of_cons c cs : cs <> [] -> rel_of (c :: cs) = c +++ "/" +++ rel_of cs.
Proof. destruct cs; [contradiction | reflexivity]. Qed.

Lemma rel_of_not_empty cs : valid_names cs -> cs <> [] -> rel_of cs <> "".
Proof.
  intros H Hne. destruct cs as [|c cs]; [contradiction|].
  apply Forall_cons_iff in H. destruct H as [Hc _].
  apply valid_name_inv in Hc. destruct Hc as (H1 & _).
  destruct c as [|a c]; [contradiction|].
  destruct cs; discriminate.
Qed.

Lemma startswith_sep_rel_of cs : valid_names cs -> startswith_sep (rel_of cs) = false.
Proof.
  intros H. destruct cs as [|c cs]; [reflexivity|].
  apply Forall_cons_iff in H. destruct H as [Hc _].
  apply valid_name_inv in Hc. destruct Hc as (H1 & _ & _ & H4).
  destruct c as [|a c]; [contradiction|].
  cbn in H4. apply orb_false_iff in H4. destruct H4 as [Ha _].
  destruct cs; exact Ha.
Qed.

Lemma concat_app sp (a b : list string) :
  a <> [] -> b <> [] -> concat sp (a ++ b) = concat sp a +++ sp +++ concat sp b.
Proof.
  intros Ha Hb. induction a as [|x a IH]; [contradiction|].
  destruct a as [|y a].
  - cbn [app]. destruct b; [contradiction | reflexivity].
  - change ((x :: y :: a) ++ b) with (x :: y :: (a ++ b)).
    rewrite !concat_cons2.
    change (y :: a ++ b) with ((y :: a) ++ b).
    rewrite IH by discriminate. now rewrite !append_assoc.
Qed.

Lemma abs_of_app d cs :
  d <> [] -> cs <> [] -> abs_of (d ++ cs) = abs_of d +++ "/" +++ rel_of cs.
Proof.
  intros Hd Hcs. unfold abs_of, rel_of.
  rewrite concat_app by assumption. now rewrite !append_assoc.
Qed.

(** Joining a relative path in normal form to an absolute one. *)
Lemma join_abs_rel d cs :
  valid_names d -> valid_names cs -> cs <> [] ->
  join (abs_of d) (rel_of cs) = abs_of (d ++ cs).
Proof.
  intros Hd Hcs Hne. unfold join.
  rewrite startswith_sep_rel_of by assumption.
  destruct d as [|x d].
  - reflexivity.
  - change (abs_of (x :: d) =? "") with false. cbn [orb].
    rewrite endswith_sep_abs_of by (auto; discriminate).
    now rewrite abs_of_app by (auto; discriminate).
Qed.

Lemma split_rel_of cs : valid_names cs -> cs <> [] -> split sep (rel_of cs) = cs.
Proof.
  intros H Hne. apply split_concat; [assumption | now apply valid_names_no_sep].
Qed.

Lemma rel_of_inj a b :
  valid_names a -> valid_names b -> a <> [] -> b <> [] ->
  rel_of a = rel_of b -> a = b.
Proof.
  intros Ha Hb Hna Hnb E.
  rewrite <- (split_rel_of a), <- (split_rel_of b) by assumption.
  now rewrite E.
Qed.

Lemma normpath_rel_of cs :
  valid_names cs -> cs <> [] -> normpath (rel_of cs) = rel_of cs.
Proof.
  intros H Hne. unfold normpath.
  pose proof (rel_of_not_empty cs H Hne) as Hs. apply String.eqb_neq in Hs.
  rewrite Hs. unfold initial_slashes.
  rewrite startswith_sep_rel_of by assumption. cbn [negb Nat.eqb slashes append].
  rewrite split_rel_of by assumption.
  unfold norm_comps. rewrite fold_norm_step_valid by (auto; constructor).
  rewrite app_nil_r, rev_involutive. fold (rel_of cs). now rewrite Hs.
Qed.

Lemma stored_name_rel_of cs :
  valid_names cs -> cs <> [] -> Zip.stored_name (rel_of cs) = rel_of cs.
Proof.
  intros H Hne. unfold Zip.stored_name. rewrite normpath_rel_of by assumption.
  pose proof (startswith_sep_rel_of cs H) as Hs.
  destruct (rel_of cs) as [|a s]; [reflexivity|].
  cbn in Hs. cbn [Zip.lstrip_sep]. now rewrite Hs.
Qed.

Lemma nonempty_abs_of cs :
  valid_names cs ->
  filter (fun c => negb (c =? "")) (split sep (abs_of cs)) = cs.
Proof.
  intros H. destruct cs as [|c cs]; [reflexivity|].
  rewrite split_abs_of by (auto; discriminate).
  set (f := fun c : string => negb (c =? "")).
  change (filter f ("" :: c :: cs)) with (filter f (c :: cs)).
  apply filter_valid_names; [|assumption]. subst f. cbv beta.
  intros x Hx. apply valid_name_inv in Hx. destruct Hx as (H1 & _).
  apply String.eqb_neq in H1. now rewrite H1.
Qed.

Lemma common_prefix_app a b : common_prefix a (a ++ b) = a.
Proof.
  induction a as [|x a IH]; [now destruct b|].
  cbn. now rewrite String.eqb_refl, IH.
Qed.

Lemma join_rel_of cs c :
  valid_names cs -> cs <> [] -> valid_name c = true ->
  join (rel_of cs) c = rel_of (cs ++ [c]).
Proof.
  intros H Hne Hc.
  pose proof (rel_of_not_empty cs H Hne) as Hs. apply String.eqb_neq in Hs.
  apply valid_name_inv in Hc. destruct Hc as (_ & _ & _ & H4).
  unfold join. rewrite startswith_sep_no_sep by assumption.
  rewrite Hs. cbn [orb].
  assert (He : endswith_sep (rel_of cs) = false).
  { pose proof (endswith_sep_abs_of cs H Hne) as E.
    unfold abs_of in E. rewrite endswith_sep_append in E; [exact E|].
    now apply rel_of_not_empty. }
  rewrite He. unfold rel_of. now rewrite concat_app_one by assumption.
Qed.

Lemma join_all_valid cs : valid_names cs -> cs <> [] -> join_all cs = rel_of cs.
Proof.
  intros H Hne. destruct cs as [|c cs]; [contradiction|]. cbn [join_all].
  apply Forall_cons_iff in H. destruct H as [Hc Hcs].
  assert (G : forall pre, valid_names pre -> pre <> [] ->
                          fold_left join cs (rel_of pre) = rel_of (pre ++ cs)).
  { clear Hne. induction Hcs as [|x cs Hx _ IH]; intros pre Hp Hpn.
    - now rewrite app_nil_r.
    - cbn [fold_left]. rewrite join_rel_of by assumption.
      rewrite IH.
      + now rewrite <- app_assoc.
      + apply valid_names_app. split; [assumption | now repeat constructor].
      + now destruct pre. }
  apply (G [c]); [now repeat constructor | discriminate].
Qed.

(** The path of a node relative to a directory above it. *)
Lemma relpath_below dir a b :
  valid_names a -> valid_names b -> b <> [] ->
  relpath dir (abs_of (a ++ b)) (abs_of a) = Py.Ret (rel_of b).
Proof.
  intros Ha Hb Hne.
  assert (Hab : valid_names (a ++ b)) by (apply valid_names_app; now split).
  unfold relpath. change (abs_of (a ++ b) =? "") with false. cbv iota zeta.
  rewrite !abspath_abs_of by assumption.
  rewrite !nonempty_abs_of by assumption.
  rewrite common_prefix_app, Nat.sub_diag. cbn [repeat app].
  rewrite skipn_app, Nat.sub_diag, skipn_all. cbn [skipn app].
  rewrite join_all_valid by assumption.
  now destruct b.
Qed.
End RelativePaths.


(* ===================================================================== *)
(** * The shape of trees, and the files an archive holds              *)
(* ===================================================================== *)

Section TreeShapes.
Import Fs PosixPath.

Lemma node_induction (P : node -> Prop) :
  (forall data, P (File data)) ->
  (forall es, Forall (fun e => P (snd e)) es -> P (Dir es)) ->
  forall n, P n.
Proof.
  intros HF HD.
  refine (fix IH (n : node) : P n :=
            match n with
            | File data => HF data
            | Dir es =>
                HD es ((fix all (es : list (string * node))
                        : Forall (fun e => P (snd e)) es :=
                          match es with
                          | [] => Forall_nil _
                          | (name, child) :: es' =>
                              Forall_cons (name, child) (IH child) (all es')
                          end) es)
            end).
Qed.

Lemma distinct_spec names : distinct names = true <-> NoDup names.
Proof.
  induction names as [|x names IH]; cbn [distinct].
  - split; [constructor | reflexivity].
  - rewrite andb_true_iff, negb_true_iff, IH, NoDup_cons_iff.
    assert (E : existsb (String.eqb x) names = false <-> ~ In x names).
    { split.
      - intros H Hin. assert (existsb (String.eqb x) names = true); [|congruence].
        apply existsb_exists. exists x. split; [assumption | apply String.eqb_refl].
      - intros H. destruct (existsb _ names) eqn:E; [|reflexivity].
        apply existsb_exists in E. destruct E as (y & Hy & E).
        apply String.eqb_eq in E. subst y. contradiction. }
    now rewrite E.
Qed.

Lemma well_formed_dir es :
  well_formed (Dir es) = true <->
  NoDup (map fst es) /\
  Forall (fun e => valid_name (fst e) = true /\ well_formed (snd e) = true) es.
Proof.
  cbn [well_formed]. rewrite andb_true_iff, distinct_spec.
  apply and_iff_compat_l.
  induction es as [|[name child] es IH].
  - split; [constructor | reflexivity].
  - rewrite !andb_true_iff, IH, Forall_cons_iff. cbn [fst snd]. tauto.
Qed.

Lemma find_entry_in name child es :
  find_entry name es = Some child -> In (name, child) es.
Proof.
  induction es as [|[k n] es IH]; cbn [find_entry]; [discriminate|].
  destruct (String.eqb_spec k name) as [->|Hne].
  - intros [= ->]. now left.
  - intros H. right. now apply IH.
Qed.

Lemma in_find_entry name child es :
  NoDup (map fst es) -> In (name, child) es -> find_entry name es = Some child.
Proof.
  induction es as [|[k n] es IH]; intros Hnd Hin; [destruct Hin|].
  cbn [map fst] in Hnd. apply NoDup_cons_iff in Hnd. destruct Hnd as [Hk Hnd].
  cbn [find_entry]. destruct Hin as [[= -> ->]|Hin].
  - now rewrite String.eqb_refl.
  - destruct (String.eqb_spec k name) as [->|Hne]; [|now apply IH].
    exfalso. apply Hk. apply (in_map fst) in Hin. exact Hin.
Qed.

(** Below a directory that is as a file system holds it, paths are made
    of names, and lead to such nodes. *)
Lemma lookup_well_formed q : forall n x,
  well_formed n = true -> lookup q n = Some x ->
  valid_names q /\ well_formed x = true.
Proof.
  induction q as [|c q IH]; intros n x Hwf H.
  - injection H as <-. split; [constructor | assumption].
  - cbn [lookup] in H. destruct n as [|es]; [discriminate|].
    destruct (find_entry c es) as [child|] eqn:E; [|discriminate].
    apply well_formed_dir in Hwf. destruct Hwf as [_ Hall].
    apply find_entry_in in E.
    pose proof (proj1 (Forall_forall _ _) Hall _ E) as [Hc Hchild].
    destruct (IH _ _ Hchild H) as [Hq Hx].
    split; [constructor; assumption | assumption].
Qed.

Lemma lookup_prefix_dir a b n y :
  lookup (a ++ b) n = Some y -> b <> [] -> is_dir (lookup a n) = true.
Proof.
  rewrite lookup_app. intros H Hb.
  destruct (lookup a n) as [[data|es]|]; [|reflexivity | discriminate].
  destruct b; [contradiction | discriminate].
Qed.

Lemma is_prefix_app_same a x y : is_prefix (a ++ x) (a ++ y) = is_prefix x y.
Proof.
  induction a as [|c a IH]; [reflexivity|].
  cbn [app is_prefix]. now rewrite String.eqb_refl.
Qed.

Lemma is_prefix_app_inv x a b :
  is_prefix x (a ++ b) = true ->
  is_prefix x a = true \/ exists q, x = a ++ q /\ is_prefix q b = true.
Proof.
  revert a. induction x as [|c x IH]; intros a H; [now left|].
  destruct a as [|d a].
  - right. exists (c :: x). now split.
  - cbn [app is_prefix] in *. apply andb_true_iff in H. destruct H as [Hc H].
    rewrite Hc. cbn [andb]. apply String.eqb_eq in Hc. subst d.
    destruct (IH _ H) as [Hp | (q & -> & Hq)]; [now left|].
    right. exists q. now split.
Qed.

Lemma kind_file n data : kind n = Some (Some data) <-> n = Some (File data).
Proof.
  destruct n as [[d|es]|]; cbn; split; intros H; try discriminate; congruence.
Qed.

Lemma kind_dir n : kind n = Some None <-> is_dir n = true.
Proof.
  destruct n as [[d|es]|]; cbn; split; intros H; try discriminate; reflexivity.
Qed.

(** What [mkdirs] leaves: directories along the path, and everything
    else as it was. *)
Lemma mkdirs_spec p : forall t,
  (forall x, is_prefix x p = true -> is_file (lookup x t) = false) ->
  exists t',
    mkdirs p t = Some t' /\
    forall x, kind (lookup x t') =
              if is_prefix x p then Some None else kind (lookup x t).
Proof.
  induction p as [|c p IH]; intros t Hfree.
  - pose proof (Hfree [] eq_refl) as Hroot. cbn in Hroot.
    destruct t as [data|es]; [discriminate|].
    exists (Dir es). split; [reflexivity|].
    intros [|y x]; reflexivity.
  - pose proof (Hfree [] eq_refl) as Hroot. cbn in Hroot.
    destruct t as [data|es]; [discriminate|].
    cbn [mkdirs].
    set (child := match find_entry c es with Some child => child | None => Dir [] end).
    destruct (IH child) as (child' & Hmk & Hkind).
    { intros x Hx. specialize (Hfree (c :: x)).
      cbn [is_prefix lookup] in Hfree. rewrite String.eqb_refl in Hfree.
      specialize (Hfree Hx). subst child.
      destruct (find_entry c es) as [n|]; [exact Hfree|].
      destruct x; reflexivity. }
    rewrite Hmk. eexists. split; [reflexivity|].
    intros [|y x]; [reflexivity|].
    cbn [is_prefix lookup].
    destruct (String.eqb_spec y c) as [->|Hne].
    + rewrite find_set_entry_same. cbn [andb]. rewrite Hkind.
      destruct (is_prefix x p) eqn:Ex; [reflexivity|].
      subst child. destruct (find_entry c es) as [n|]; [reflexivity|].
      destruct x; [discriminate Ex | reflexivity].
    + cbn [andb]. rewrite find_set_entry_other by congruence. reflexivity.
Qed.

(** What writing a regular file leaves: the file, and everything else as
    it was. *)
Lemma place_file_spec p data : forall t t',
  place p (File data) t = Some t' ->
  is_dir (lookup p t) = false -> is_dir (Some t) = true ->
  forall x, kind (lookup x t') =
            if list_eq_dec string_dec x p then Some (Some data)
            else kind (lookup x t).
Proof.
  induction p as [|c p IH]; intros t t' H Hnd Hroot x.
  - cbn [lookup] in Hnd. rewrite Hroot in Hnd. discriminate.
  - destruct t as [d|es]; [discriminate|]. cbn [place] in H.
    destruct (find_entry c es) as [child|] eqn:E.
    + destruct (place p (File data) child) as [child'|] eqn:Hp; [|discriminate].
      injection H as <-.
      cbn [lookup] in Hnd. rewrite E in Hnd.
      destruct x as [|y x].
      * destruct (list_eq_dec string_dec [] (c :: p)); [discriminate | reflexivity].
      * cbn [lookup]. destruct (String.eqb_spec c y) as [<-|Hne].
        -- rewrite find_set_entry_same, E.
           destruct child as [d|ces].
           ++ (* the entry is a regular file: [p] is empty *)
              destruct p as [|c' p]; [|discriminate Hp].
              injection Hp as <-.
              destruct (list_eq_dec string_dec (c :: x) [c]) as [[= ->]|Hx];
                [reflexivity|].
              destruct x; [contradiction | reflexivity].
           ++ rewrite (IH _ _ Hp Hnd eq_refl).
              destruct (list_eq_dec string_dec x p) as [->|Hx];
                destruct (list_eq_dec string_dec (c :: _) (c :: p)) as [Ey|Ey];
                try reflexivity; try congruence.
        -- rewrite find_set_entry_other by assumption.
           destruct (list_eq_dec string_dec (y :: x) (c :: p)) as [[= -> ->]|_];
             [contradiction | reflexivity].
    + destruct p as [|c' p]; [|discriminate].
      injection H as <-.
      destruct x as [|y x].
      * destruct (list_eq_dec string_dec [] [c]); [discriminate | reflexivity].
      * cbn [lookup]. destruct (String.eqb_spec c y) as [<-|Hne].
        -- rewrite find_set_entry_same, E.
           destruct (list_eq_dec string_dec (c :: x) [c]) as [[= ->]|Hx];
             [reflexivity|].
           destruct x; [contradiction | reflexivity].
        -- rewrite find_set_entry_other by assumption.
           destruct (list_eq_dec string_dec (y :: x) [c]) as [[= -> ->]|_];
             [contradiction | reflexivity].
Qed.
End TreeShapes.

Section ArchivedFiles.
Import Fs PosixPath.

Lemma archived_dir rel es :
  archived rel (Dir es) =
  files_in rel es ++ flat_map (fun e => archived (rel ++ [fst e]) (snd e)) es.
Proof.
  cbn [archived]. f_equal.
  induction es as [|[name child] es IH]; [reflexivity|].
  cbn [flat_map fst snd]. rewrite IH. now destruct child.
Qed.

Lemma in_files_in rel es m c :
  In (m, c) (files_in rel es) <->
  exists name, In (name, File c) es /\ m = rel_of (rel ++ [name]).
Proof.
  unfold files_in. rewrite in_flat_map. split.
  - intros ([name [d|ces]] & Hin & H); cbn [fst snd] in H; [|destruct H].
    destruct H as [[= <- <-]|[]]. now exists name.
  - intros (name & Hin & ->). exists (name, File c). split; [assumption|].
    now left.
Qed.

(** The entries of the archive of a directory are its regular files,
    each under its path from the parent of the directory. *)
Lemma archived_spec n : forall rel m c,
  well_formed n = true ->
  (In (m, c) (archived rel n) <->
   exists q, q <> [] /\ m = rel_of (rel ++ q) /\ lookup q n = Some (File c)).
Proof.
  induction n as [data|es IH] using node_induction; intros rel m c Hwf.
  - split; [intros [] | intros (q & Hq & _ & H)].
    destruct q; [contradiction | discriminate].
  - apply well_formed_dir in Hwf. destruct Hwf as [Hnd Hall].
    rewrite archived_dir, in_app_iff, in_files_in, in_flat_map. split.
    + intros [(name & Hin & ->) | ([name child] & Hin & Hm)].
      * exists [name]. split; [discriminate|]. split; [reflexivity|].
        cbn [lookup]. now rewrite (in_find_entry _ _ _ Hnd Hin).
      * cbn [fst snd] in Hm.
        pose proof (proj1 (Forall_forall _ _) IH _ Hin) as IHc.
        pose proof (proj1 (Forall_forall _ _) Hall _ Hin) as [_ Hwc].
        cbn [snd] in IHc, Hwc.
        apply (IHc _ _ _ Hwc) in Hm. destruct Hm as (q & Hq & -> & Hl).
        exists (name :: q). split; [discriminate|].
        split; [now rewrite <- app_assoc|].
        cbn [lookup]. now rewrite (in_find_entry _ _ _ Hnd Hin).
    + intros (q & Hq & -> & Hl).
      destruct q as [|name q]; [contradiction|].
      cbn [lookup] in Hl.
      destruct (find_entry name es) as [child|] eqn:E; [|discriminate].
      apply find_entry_in in E.
      destruct q as [|c' q].
      * injection Hl as ->. left. now exists name.
      * right. exists (name, child). split; [assumption|]. cbn [fst snd].
        pose proof (proj1 (Forall_forall _ _) IH _ E) as IHc.
        pose proof (proj1 (Forall_forall _ _) Hall _ E) as [_ Hwc].
        cbn [snd] in IHc, Hwc.
        apply (IHc _ _ _ Hwc). exists (c' :: q).
        split; [discriminate|]. split; [|assumption].
        now rewrite <- app_assoc.
Qed.
End ArchivedFiles.


(* ===================================================================== *)
(** * The walk of [create_zip_aes]                                    *)
(* ===================================================================== *)

Section Building.
Context {L : Libraries}.
Import Fs PosixPath.

Lemma is_prefix_dir p q t es :
  is_prefix p q = true -> lookup q t = Some (Dir es) -> is_dir (lookup p t) = true.
Proof.
  intros Hp Hq. apply is_prefix_spec in Hp. destruct Hp as [r ->].
  destruct r as [|c r].
  - rewrite app_nil_r in Hq. now rewrite Hq.
  - eapply lookup_prefix_dir; [exact Hq | discriminate].
Qed.

Lemma root_is_dir p t : is_dir (lookup p t) = true -> is_dir (Some t) = true.
Proof.
  destruct t as [d|es]; [|reflexivity]. destruct p; [intros H; exact H | discriminate].
Qed.

Lemma chdir_ok w d :
  valid_names d -> is_dir (lookup d (tree w)) = true ->
  Os.chdir (abs_of d) w = (Py.Ret tt, set_cwd (abs_of d) w).
Proof.
  intros Hv Hd. unfold Os.chdir.
  rewrite (bind_ret Py.get _ w w w eq_refl).
  rewrite stat_abs_of by assumption.
  destruct (lookup d (tree w)) as [[?|es]|]; try discriminate Hd.
  now rewrite abspath_abs_of.
Qed.

Lemma walk_ok w d es :
  valid_names d -> lookup d (tree w) = Some (Dir es) ->
  Os.walk (abs_of d) w = (Py.Ret (Os.walk_node (abs_of d) (Dir es)), w).
Proof.
  intros Hv Hd. unfold Os.walk.
  rewrite (bind_ret Py.get _ w w w eq_refl).
  now rewrite stat_abs_of, Hd.
Qed.

Lemma walk_node_dir top es :
  Os.walk_node top (Dir es) =
  (top, map fst (filter (fun e => is_dir (Some (snd e))) es),
        map fst (filter (fun e => is_file (Some (snd e))) es))
  :: flat_map (fun e => Os.walk_node (join top (fst e)) (snd e)) es.
Proof.
  cbn [Os.walk_node]. f_equal.
  induction es as [|[name child] es IH]; [reflexivity|].
  cbn [flat_map fst snd]. rewrite IH. now destruct child.
Qed.

Lemma archive_write_eval w filepath arcname data :
  Os.stat w filepath = Some (File data) ->
  CreateZip.archive_write filepath arcname w =
    (Py.Ret (Zip.stored_name arcname, data), w).
Proof.
  intros Hstat. unfold CreateZip.archive_write.
  now rewrite (bind_ret _ _ _ _ _ (read_bytes_file _ _ _ Hstat)).
Qed.

(** The inner loop adds the regular files of one directory. *)
Lemma add_files_eval w a rel es :
  valid_names a -> valid_names rel -> rel <> [] ->
  lookup (a ++ rel) (tree w) = Some (Dir es) ->
  NoDup (map fst es) ->
  Forall (fun e => valid_name (fst e) = true) es ->
  forall sub, incl sub es ->
    CreateZip.add_files (abs_of a) (abs_of (a ++ rel))
      (map fst (filter (fun e => is_file (Some (snd e))) sub)) w =
    (Py.Ret (files_in rel sub), w).
Proof.
  intros Ha Hrel Hne Hd Hnd Hnames.
  assert (Har : valid_names (a ++ rel)) by (apply valid_names_app; now split).
  induction sub as [|[name child] sub IH]; intros Hincl; [reflexivity|].
  assert (Hin : In (name, child) es) by (apply Hincl; now left).
  assert (Hsub : incl sub es) by (intros e He; apply Hincl; now right).
  destruct child as [data|ces]; cbn [filter snd is_file map fst]; [|now apply IH].
  pose proof (proj1 (Forall_forall _ _) Hnames _ Hin) as Hname. cbn [fst] in Hname.
  cbn [CreateZip.add_files].
  rewrite (bind_ret Py.get _ w w w eq_refl).
  rewrite join_abs_of by assumption. rewrite <- app_assoc.
  assert (Hrn : valid_names (rel ++ [name])).
  { apply valid_names_app. split; [assumption | now repeat constructor]. }
  rewrite (bind_ret _ _ w (rel_of (rel ++ [name])) w).
  2:{ unfold Py.lift. rewrite relpath_below; auto. now destruct rel. }
  assert (Hstat : Os.stat w (abs_of (a ++ rel ++ [name])) = Some (File data)).
  { rewrite stat_abs_of by (apply valid_names_app; now split).
    rewrite app_assoc, lookup_app, Hd. cbn [lookup].
    now rewrite (in_find_entry _ _ _ Hnd Hin). }
  rewrite (bind_ret _ _ _ _ _ (archive_write_eval _ _ _ _ Hstat)).
  rewrite (bind_ret _ _ _ _ _ (IH Hsub)).
  rewrite stored_name_rel_of by (auto; now destruct rel).
  reflexivity.
Qed.

Lemma add_files_world parent root files w :
  snd (CreateZip.add_files parent root files w) = w.
Proof.
  induction files as [|file files IH]; [reflexivity|].
  cbn [CreateZip.add_files].
  unfold Py.bind at 1. cbn [Py.get]. unfold Py.bind at 1. unfold Py.lift at 1.
  destruct (relpath _ _ _) as [arcname|e]; [|reflexivity].
  unfold Py.bind at 1. unfold CreateZip.archive_write, Os.read_bytes.
  unfold Py.bind at 1. unfold Py.bind at 1. cbn [Py.get].
  destruct (Os.stat w _) as [[data|es]|]; try reflexivity.
  cbn [Py.ret]. unfold Py.bind at 1.
  destruct (CreateZip.add_files parent root files w) as [[es|e] w1];
    cbn [snd] in IH; subst w1; reflexivity.
Qed.

Lemma add_walk_app parent l1 l2 r1 r2 w :
  CreateZip.add_walk parent l1 w = (Py.Ret r1, w) ->
  CreateZip.add_walk parent l2 w = (Py.Ret r2, w) ->
  CreateZip.add_walk parent (l1 ++ l2) w = (Py.Ret (r1 ++ r2), w).
Proof.
  revert r1. induction l1 as [|[[root dirs] files] l1 IH]; intros r1 H1 H2.
  - cbn in H1. injection H1 as <-. exact H2.
  - cbn [app CreateZip.add_walk] in *.
    unfold Py.bind at 1 in H1. unfold Py.bind at 1.
    pose proof (add_files_world parent root files w) as Hw.
    destruct (CreateZip.add_files parent root files w) as [[es|e] w1] eqn:E;
      [|discriminate].
    cbn [snd] in Hw. subst w1.
    unfold Py.bind at 1 in H1. unfold Py.bind at 1.
    destruct (CreateZip.add_walk parent l1 w) as [[es'|e] w2] eqn:E';
      [|discriminate].
    cbn in H1. injection H1 as <- ->.
    rewrite (IH es' eq_refl H2). cbn. now rewrite app_assoc.
Qed.

(** The walk adds the regular files below the directory. *)
Lemma add_walk_eval n : forall w a rel,
  valid_names a -> valid_names rel -> rel <> [] ->
  well_formed n = true ->
  lookup (a ++ rel) (tree w) = Some n ->
  CreateZip.add_walk (abs_of a) (Os.walk_node (abs_of (a ++ rel)) n) w =
    (Py.Ret (archived rel n), w).
Proof.
  induction n as [data|es IH] using node_induction;
    intros w a rel Ha Hrel Hne Hwf Hd; [reflexivity|].
  apply well_formed_dir in Hwf. destruct Hwf as [Hnd Hall].
  assert (Hnames : Forall (fun e => valid_name (fst e) = true) es).
  { eapply Forall_impl; [|exact Hall]. now intros e [He _]. }
  assert (Har : valid_names (a ++ rel)) by (apply valid_names_app; now split).
  rewrite walk_node_dir, archived_dir. cbn [CreateZip.add_walk].
  rewrite (bind_ret _ _ _ _ _
             (add_files_eval w a rel es Ha Hrel Hne Hd Hnd Hnames es (incl_refl es))).
  assert (Hbelow : forall sub, incl sub es ->
    CreateZip.add_walk (abs_of a)
      (flat_map (fun e => Os.walk_node (join (abs_of (a ++ rel)) (fst e)) (snd e)) sub) w =
    (Py.Ret (flat_map (fun e => archived (rel ++ [fst e]) (snd e)) sub), w)).
  { induction sub as [|[name child] sub IHs]; intros Hincl; [reflexivity|].
    assert (Hin : In (name, child) es) by (apply Hincl; now left).
    cbn [flat_map fst snd]. apply add_walk_app.
    - pose proof (proj1 (Forall_forall _ _) Hall _ Hin) as [Hname Hwc].
      cbn [fst snd] in Hname, Hwc.
      rewrite join_abs_of by assumption. rewrite <- app_assoc.
      apply (proj1 (Forall_forall _ _) IH _ Hin); auto.
      + apply valid_names_app. split; [assumption | now repeat constructor].
      + now destruct rel.
      + rewrite app_assoc, lookup_app, Hd. cbn [lookup].
        now rewrite (in_find_entry _ _ _ Hnd Hin).
    - apply IHs. intros e He. apply Hincl. now right. }
  rewrite (bind_ret _ _ _ _ _ (Hbelow es (incl_refl es))).
  reflexivity.
Qed.
End Building.


(* ===================================================================== *)
(** * The run of [create_zip_aes] on a directory                      *)
(* ===================================================================== *)

Section BuildRun.
Context {L : Libraries}.
Import Fs PosixPath.

(** Writing a regular file where no directory is: the file is there and
    everything else is as it was. *)
Lemma write_file w d c data :
  valid_names (d ++ [c]) ->
  is_dir (lookup d (tree w)) = true ->
  is_dir (lookup (d ++ [c]) (tree w)) = false ->
  exists t,
    Os.write_bytes (abs_of (d ++ [c])) data w = (Py.Ret tt, set_tree t w) /\
    forall x, kind (lookup x t) =
              if list_eq_dec string_dec x (d ++ [c]) then Some (Some data)
              else kind (lookup x (tree w)).
Proof.
  intros Hv Hd Hc.
  destruct (write_bytes_ok w d c data Hv Hd Hc) as (t & Hp & Hw).
  exists t. split; [exact Hw|].
  apply (place_file_spec _ _ _ _ Hp Hc). now apply (root_is_dir d).
Qed.

(** The run of [create_zip_aes] on a directory: the archive file holds
    the regular files below the directory, each under its path from the
    parent of the directory, and nothing else of the file system
    changes. *)
Lemma create_zip_aes_dir w ccs ads aname scs top es password level :
  valid_names ccs -> valid_names (ads ++ [aname]) -> valid_names (scs ++ [top]) ->
  is_dir (lookup ccs (tree w)) = true ->
  is_dir (lookup ads (tree w)) = true ->
  is_dir (lookup (ads ++ [aname]) (tree w)) = false ->
  lookup (scs ++ [top]) (tree w) = Some (Dir es) ->
  well_formed (Dir es) = true ->
  is_prefix (scs ++ [top]) (ads ++ [aname]) = false ->
  exists w',
    CreateZip.create_zip_aes (abs_of ccs) (abs_of (ads ++ [aname]))
      (abs_of (scs ++ [top])) password level w = (Py.Ret tt, w') /\
    cwd w' = abs_of ccs /\
    forall x, kind (lookup x (tree w')) =
              if list_eq_dec string_dec x (ads ++ [aname])
              then Some (Some (zip_write
                                 (Zip.mkArchive
                                    (if Zip.truthy password then password else None)
                                    (archived [top] (Dir es)))))
              else kind (lookup x (tree w)).
Proof.
  intros Hvc Hva Hvs Hc Had Hna Hsrc Hwf Hout.
  assert (Hvscs : valid_names scs) by (apply valid_names_app in Hvs; tauto).
  assert (Hvtop : valid_name top = true).
  { apply valid_names_app in Hvs. destruct Hvs as [_ H].
    now apply Forall_cons_iff in H. }
  assert (Hparent : is_dir (lookup scs (tree w)) = true).
  { eapply lookup_prefix_dir; [exact Hsrc | discriminate]. }
  assert (Hne : scs ++ [top] <> ads ++ [aname]).
  { intros E. rewrite <- E, Hsrc in Hna. discriminate. }
  set (w1 := set_cwd (abs_of scs) w).
  destruct (write_file w1 ads aname [] Hva Had Hna) as (t1 & Hw1 & Hk1).
  set (w2 := set_tree t1 w1) in *.
  assert (Hsrc2 : lookup (scs ++ [top]) (tree w2) = Some (Dir es)).
  { destruct (write_bytes_ok w1 ads aname [] Hva Had Hna) as (t1' & Hp & Hw1').
    rewrite Hw1 in Hw1'. injection Hw1' as E. subst t1'.
    change (tree w2) with t1.
    rewrite (lookup_place_other _ _ _ _ _ Hp); [exact Hsrc | |exact Hout].
    destruct (is_prefix (ads ++ [aname]) (scs ++ [top])) eqn:E'; [|reflexivity].
    rewrite (is_prefix_dir _ _ _ _ E' Hsrc) in Hna. discriminate. }
  assert (Had2 : is_dir (lookup ads (tree w2)) = true).
  { apply kind_dir. change (tree w2) with t1. rewrite Hk1.
    destruct (list_eq_dec string_dec ads (ads ++ [aname])) as [E|_].
    - apply (f_equal (@List.length _)) in E. rewrite length_app in E. cbn in E. lia.
    - now apply kind_dir. }
  assert (Hna2 : is_dir (lookup (ads ++ [aname]) (tree w2)) = false).
  { change (tree w2) with t1. specialize (Hk1 (ads ++ [aname])).
    destruct (list_eq_dec string_dec (ads ++ [aname]) (ads ++ [aname]));
      [|contradiction].
    apply kind_file in Hk1. now rewrite Hk1. }
  set (content := zip_write
                    (Zip.mkArchive (if Zip.truthy password then password else None)
                                   (archived [top] (Dir es)))).
  destruct (write_file w2 ads aname content Hva Had2 Hna2) as (t2 & Hw2 & Hk2).
  set (w3 := set_tree t2 w2) in *.
  assert (Hkind : forall x, kind (lookup x t2) =
                            if list_eq_dec string_dec x (ads ++ [aname])
                            then Some (Some content)
                            else kind (lookup x (tree w))).
  { intros x. rewrite Hk2. destruct (list_eq_dec string_dec x (ads ++ [aname]));
      [reflexivity|].
    change (tree w2) with t1. rewrite Hk1.
    destruct (list_eq_dec string_dec x (ads ++ [aname])); [contradiction|].
    reflexivity. }
  assert (Hc3 : is_dir (lookup ccs (tree w3)) = true).
  { apply kind_dir. change (tree w3) with t2. rewrite Hkind.
    destruct (list_eq_dec string_dec ccs (ads ++ [aname])) as [E|_].
    - rewrite E, Hna in Hc. discriminate.
    - now apply kind_dir. }
  eexists. split; [|split].
  - unfold CreateZip.create_zip_aes. apply try_except_ret.
    cbv zeta. rewrite dirname_abs_of by assumption.
    rewrite (bind_ret _ _ _ _ _ (chdir_ok w scs Hvscs Hparent)). fold w1.
    rewrite (bind_ret _ _ _ _ _ Hw1). fold w2.
    rewrite (bind_ret _ _ _ _ _ (path_isdir_eval w2 _)).
    rewrite stat_abs_of, Hsrc2 by assumption. cbn [is_dir].
    rewrite (bind_ret _ _ w2 (archived [top] (Dir es)) w2).
    2:{ rewrite (bind_ret _ _ _ _ _ (walk_ok w2 _ es Hvs Hsrc2)).
        apply (add_walk_eval (Dir es) w2 scs [top]); auto.
        - now repeat constructor.
        - discriminate. }
    fold content. rewrite (bind_ret _ _ _ _ _ Hw2). fold w3.
    rewrite (bind_ret _ _ _ _ _ (chdir_ok w3 ccs Hvc Hc3)).
    reflexivity.
  - reflexivity.
  - intros x. cbn [tree set_info_log set_cwd]. apply Hkind.
Qed.
End BuildRun.


(* ===================================================================== *)
(** * The run of [extract_zip_aes] on the archive of a directory      *)
(* ===================================================================== *)

Section ReadingMembers.
Lemma getinfo_in a m :
  In m (Zip.namelist a) ->
  exists c, Zip.getinfo a m = Some c /\ In (m, c) (Zip.members a).
Proof.
  intros Hin. unfold Zip.getinfo.
  destruct (find (fun e => fst e =? m) (rev (Zip.members a))) as [[k c]|] eqn:E.
  - apply find_some in E. destruct E as [He Hk]. cbn [fst] in Hk.
    apply String.eqb_eq in Hk. subst k.
    exists c. split; [reflexivity | now apply in_rev].
  - exfalso. unfold Zip.namelist in Hin. apply in_map_iff in Hin.
    destruct Hin as ([k c] & Hk & He). cbn [fst] in Hk. subst k.
    apply in_rev in He. pose proof (find_none _ _ E (m, c) He) as Hf.
    cbn [fst] in Hf. rewrite String.eqb_refl in Hf. discriminate.
Qed.

Lemma zip_read_ok a password m c :
  Zip.getinfo a m = Some c ->
  Zip.encryption a = (if Zip.truthy password then password else None) ->
  Zip.read a password m = Py.Ret c.
Proof.
  intros Hg He. unfold Zip.read. rewrite Hg, He.
  destruct password as [[|x p]|]; cbn [Zip.truthy]; try reflexivity.
  cbn [andb]. now rewrite String.eqb_refl.
Qed.
End ReadingMembers.

Section ExtractionRun.
Context {L : Libraries}.
Import Fs PosixPath.

Variables (dcs : list string) (top : string) (es : list (string * node)).
Variables (a : Zip.archive) (password : option string).

Hypothesis dcs_valid : valid_names dcs.
Hypothesis top_valid : valid_name top = true.
Hypothesis es_well_formed : well_formed (Dir es) = true.
Hypothesis a_encryption :
  Zip.encryption a = (if Zip.truthy password then password else None).
Hypothesis a_members : Zip.members a = archived [top] (Dir es).

Lemma below_dir q r x :
  lookup (r ++ [x]) (Dir es) <> None -> is_prefix q r = true ->
  is_dir (lookup q (Dir es)) = true.
Proof.
  intros Hl Hp. apply is_prefix_spec in Hp. destruct Hp as [r2 ->].
  destruct (lookup ((q ++ r2) ++ [x]) (Dir es)) as [y|] eqn:E; [|contradiction].
  rewrite <- app_assoc in E.
  eapply lookup_prefix_dir; [exact E | now destruct r2].
Qed.

Lemma extract_member_step w m :
  isabs (cwd w) = true ->
  partial_copy dcs top es (tree w) ->
  In m (Zip.namelist a) ->
  exists t,
    ExtractZip.extract_member a (abs_of dcs) password m w = (Py.Ret tt, set_tree t w) /\
    partial_copy dcs top es t /\
    forall S, extracted dcs top es S (tree w) -> extracted dcs top es (fun x => x = m \/ S x) t.
Proof.
  intros Habs (I0 & I1 & I2) Hin.
  destruct (getinfo_in a m Hin) as (c' & Hget & Hmem).
  rewrite a_members in Hmem.
  apply (archived_spec (Dir es) [top] m c' es_well_formed) in Hmem.
  destruct Hmem as (q' & Hq' & -> & Hl').
  destruct (lookup_well_formed q' _ _ es_well_formed Hl') as [Hvq' _].
  destruct (exists_last Hq') as (r & f & ->).
  assert (Hvr : valid_names r) by (apply valid_names_app in Hvq'; tauto).
  assert (Hvf : valid_name f = true).
  { apply valid_names_app in Hvq'. destruct Hvq' as [_ H].
    now apply Forall_cons_iff in H. }
  set (P := dcs ++ top :: r).
  assert (HvP : valid_names P).
  { apply valid_names_app. split; [assumption | now constructor]. }
  assert (HvPf : valid_names (P ++ [f])).
  { apply valid_names_app. split; [assumption | now repeat constructor]. }
  assert (Htarget : join (abs_of dcs) (rel_of ([top] ++ r ++ [f])) = abs_of (P ++ [f])).
  { rewrite join_abs_rel; auto.
    - subst P. now rewrite <- app_assoc.
    - constructor; assumption.
    - discriminate. }
  (* the directories *)
  destruct (mkdirs_spec P (tree w)) as (t1 & Hmk & Hk1).
  { intros x Hx. subst P. apply is_prefix_app_inv in Hx.
    destruct (lookup dcs (tree w)) as [[?|des]|] eqn:Ed; try discriminate I0.
    destruct Hx as [Hx | (q0 & -> & Hq0)].
    - pose proof (is_prefix_dir _ _ _ _ Hx Ed) as Hdir.
      destruct (lookup x (tree w)) as [[?|?]|]; try discriminate Hdir; reflexivity.
    - destruct q0 as [|y q1]; [now rewrite app_nil_r, Ed|].
      cbn [is_prefix] in Hq0. apply andb_true_iff in Hq0. destruct Hq0 as [Hy Hq1].
      apply String.eqb_eq in Hy. subst y.
      destruct (lookup (dcs ++ top :: q1) (tree w)) as [[c0|?]|] eqn:E0; try reflexivity.
      apply I1 in E0.
      assert (Hd : is_dir (lookup q1 (Dir es)) = true).
      { apply (below_dir q1 r f); [now rewrite Hl' | exact Hq1]. }
      rewrite E0 in Hd. discriminate. }
  set (w1 := set_tree t1 w).
  assert (Hmkdirs : Os.makedirs (abs_of P) w = (Py.Ret tt, w1)).
  { unfold Os.makedirs. rewrite (bind_ret Py.get _ w w w eq_refl).
    rewrite resolve_abs_of by assumption. now rewrite Hmk. }
  (* the file *)
  assert (HP1 : is_dir (lookup P (tree w1)) = true).
  { apply kind_dir. change (tree w1) with t1. rewrite Hk1.
    now rewrite is_prefix_refl. }
  assert (HnotP : is_prefix (P ++ [f]) P = false).
  { destruct (is_prefix (P ++ [f]) P) eqn:E; [|reflexivity].
    apply is_prefix_spec in E. destruct E as [r2 E].
    apply (f_equal (@List.length _)) in E. rewrite !length_app in E. cbn in E. lia. }
  assert (HPf1 : is_dir (lookup (P ++ [f]) (tree w1)) = false).
  { destruct (is_dir (lookup (P ++ [f]) (tree w1))) eqn:E; [|reflexivity].
    apply kind_dir in E. change (tree w1) with t1 in E.
    rewrite Hk1, HnotP in E. apply kind_dir in E.
    subst P. rewrite <- app_assoc in E. cbn [app] in E.
    apply I2 in E. destruct E as [E _]. rewrite Hl' in E. discriminate. }
  destruct (write_file w1 P f c' HvPf HP1 HPf1) as (t2 & Hw2 & Hk2).
  assert (Hkind : forall x, kind (lookup x t2) =
                            if list_eq_dec string_dec x (P ++ [f]) then Some (Some c')
                            else if is_prefix x P then Some None
                                 else kind (lookup x (tree w))).
  { intros x. rewrite Hk2. destruct (list_eq_dec string_dec x (P ++ [f]));
      [reflexivity|]. change (tree w1) with t1. apply Hk1. }
  assert (Hsame : forall q, dcs ++ top :: q = P ++ [f] -> q = r ++ [f]).
  { intros q E. subst P. rewrite <- app_assoc in E. cbn [app] in E.
    apply app_inv_head in E. now injection E. }
  assert (Habove : forall q, is_prefix (dcs ++ top :: q) P = true ->
                             is_dir (lookup q (Dir es)) = true).
  { intros q E. subst P.
    change (dcs ++ top :: q) with (dcs ++ [top] ++ q) in E.
    change (dcs ++ top :: r) with (dcs ++ [top] ++ r) in E.
    rewrite !app_assoc, is_prefix_app_same in E.
    apply (below_dir q r f); [now rewrite Hl' | exact E]. }
  assert (Hfilled : forall q, is_prefix (dcs ++ top :: q) P = true ->
                              holds_file es q).
  { intros q E. subst P.
    change (dcs ++ top :: q) with (dcs ++ [top] ++ q) in E.
    change (dcs ++ top :: r) with (dcs ++ [top] ++ r) in E.
    rewrite !app_assoc, is_prefix_app_same in E.
    apply is_prefix_spec in E. destruct E as [r2 ->].
    exists (r2 ++ [f]), c'. now rewrite app_assoc. }
  exists t2. split; [|split; [split; [|split]|]].
  - rewrite extract_member_inside; auto.
    2:{ unfold nested_under. rewrite Htarget.
        rewrite !abspath_abs_of, !components_abs_of by assumption.
        subst P. rewrite <- app_assoc. apply is_prefix_app. }
    rewrite Htarget, dirname_abs_of by assumption.
    rewrite (bind_ret _ _ _ _ _ Hmkdirs).
    rewrite (bind_ret _ _ w1 c' w1).
    2:{ unfold Py.lift. now rewrite (zip_read_ok _ _ _ _ Hget a_encryption). }
    exact Hw2.
  - apply kind_dir. rewrite Hkind.
    destruct (list_eq_dec string_dec dcs (P ++ [f])) as [E|_].
    + apply (f_equal (@List.length _)) in E. subst P.
      rewrite !length_app in E. cbn in E. lia.
    + subst P. now rewrite is_prefix_app.
  - intros q c Hl. apply kind_file in Hl. rewrite Hkind in Hl.
    destruct (list_eq_dec string_dec (dcs ++ top :: q) (P ++ [f])) as [E|_].
    + injection Hl as <-. now rewrite (Hsame _ E).
    + destruct (is_prefix (dcs ++ top :: q) P); [discriminate|].
      apply kind_file in Hl. now apply I1.
  - intros q Hl. apply kind_dir in Hl. rewrite Hkind in Hl.
    destruct (list_eq_dec string_dec (dcs ++ top :: q) (P ++ [f])) as [E|_];
      [discriminate|].
    destruct (is_prefix (dcs ++ top :: q) P) eqn:E;
      [split; [now apply Habove | now apply Hfilled]|].
    apply kind_dir in Hl. now apply I2.
  - intros S Hdone q c HS Hl. apply kind_file. rewrite Hkind.
    destruct (list_eq_dec string_dec (dcs ++ top :: q) (P ++ [f])) as [E|Hne].
    + rewrite (Hsame _ E), Hl' in Hl. congruence.
    + destruct (is_prefix (dcs ++ top :: q) P) eqn:E.
      * apply Habove in E. rewrite Hl in E. discriminate.
      * destruct HS as [HS|HS]; [|apply kind_file; now apply Hdone].
        exfalso. apply Hne.
        destruct (lookup_well_formed q _ _ es_well_formed Hl) as [Hvq _].
        apply rel_of_inj in HS; try discriminate.
        -- injection HS as ->. subst P. now rewrite <- app_assoc.
        -- constructor; assumption.
        -- constructor; assumption.
Qed.

Lemma extract_members ms : forall w,
  isabs (cwd w) = true ->
  partial_copy dcs top es (tree w) ->
  incl ms (Zip.namelist a) ->
  exists t,
    Py.for_each ms (ExtractZip.extract_member a (abs_of dcs) password) w =
      (Py.Ret tt, set_tree t w) /\
    partial_copy dcs top es t /\
    forall S, extracted dcs top es S (tree w) -> extracted dcs top es (fun x => In x ms \/ S x) t.
Proof.
  induction ms as [|m ms IH]; intros w Habs Hinv Hincl.
  - exists (tree w). split; [now rewrite set_tree_same|].
    split; [assumption|]. intros S HS q c [[]|H]. now apply HS.
  - destruct (extract_member_step w m Habs Hinv) as (t1 & Hstep & Hinv1 & Hdone1).
    { apply Hincl. now left. }
    destruct (IH (set_tree t1 w) Habs Hinv1) as (t & Hloop & Hinv2 & Hdone2).
    { intros x Hx. apply Hincl. now right. }
    exists t. split; [|split; [assumption|]].
    + cbn [Py.for_each]. rewrite (bind_ret _ _ _ _ _ Hstep). exact Hloop.
    + intros S HS q c Hq Hl. apply (Hdone2 _ (Hdone1 S HS) q c); [|exact Hl].
      cbv beta. destruct Hq as [[E|H]|H]; auto.
Qed.

(** The run of [extract_zip_aes] on the archive of a directory puts
    every regular file of the directory in place, and nothing that the
    directory does not have. *)
Lemma extract_zip_aes_dir w acs data :
  valid_names acs ->
  isabs (cwd w) = true ->
  lookup acs (tree w) = Some (File data) ->
  zip_read data = Some a ->
  is_dir (lookup dcs (tree w)) = true ->
  lookup (dcs ++ [top]) (tree w) = None ->
  exists w',
    ExtractZip.extract_zip_aes (abs_of acs) (abs_of dcs) password w = (Py.Ret tt, w') /\
    partial_copy dcs top es (tree w') /\
    extracted dcs top es (fun _ => True) (tree w').
Proof.
  intros Hva Habs Hfile Hread Hdest Hfree.
  assert (Hinv : partial_copy dcs top es (tree w)).
  { assert (Hnone : forall q, lookup (dcs ++ top :: q) (tree w) = None).
    { intros q. change (dcs ++ top :: q) with (dcs ++ [top] ++ q).
      now rewrite app_assoc, lookup_app, Hfree. }
    split; [assumption|].
    split; [intros q c H | intros q H]; rewrite Hnone in H; discriminate. }
  destruct (extract_members (Zip.namelist a) w Habs Hinv (incl_refl _))
    as (t & Hloop & Hinv' & Hdone).
  eexists. split; [|split].
  - unfold ExtractZip.extract_zip_aes. apply try_except_ret.
    assert (Hstat : Os.stat w (abs_of acs) = Some (File data))
      by now rewrite stat_abs_of.
    rewrite (bind_ret _ _ _ _ _ (open_zip_ok w _ data a Hstat Hread)).
    rewrite (bind_ret _ _ _ _ _ Hloop).
    reflexivity.
  - exact Hinv'.
  - intros q c _ Hl.
    apply (Hdone (fun _ => False)); [intros ? ? [] | | exact Hl].
    left. unfold Zip.namelist. rewrite a_members.
    apply in_map_iff. exists (rel_of (top :: q), c). split; [reflexivity|].
    apply (archived_spec (Dir es) [top] _ c es_well_formed).
    exists q. split; [|split; [reflexivity | exact Hl]].
    destruct q; [discriminate Hl | discriminate].
Qed.
End ExtractionRun.


(* ===================================================================== *)
(** * The round trip of a directory through a ZIP archive             *)
(* ===================================================================== *)

Section RoundTrip.
Context {L : Libraries}.
Import Fs PosixPath.

(** C4, in the form that holds.  A directory [top] under [scs], as a file system
    holds it, is archived into a new file outside of it and the archive is
    extracted, with the same password, into a directory [dcs] that has no
    entry [top]; the ZIP library reads the archive back as it wrote it.
    Both runs end normally.  The archive written has one member for every
    regular file below the directory, named by the path of the file from
    the parent of the directory, [top] first, with the content of the
    file.  After the extraction the regular files below [top] in the
    destination are those below [top] in the source, at the same paths and
    with the same contents; the directories below [top] in the destination
    are those directories of the source that hold a regular file, at any
    depth: a directory that holds none is not restored. *)
Theorem zip_round_trip w ccs ads aname scs top es dcs password level :
  zip_read (zip_write (archive_of password top es))
    = Some (archive_of password top es) ->
  valid_names ccs -> valid_names (ads ++ [aname]) ->
  valid_names (scs ++ [top]) -> valid_names dcs ->
  is_dir (lookup ccs (tree w)) = true ->
  is_dir (lookup ads (tree w)) = true ->
  is_dir (lookup (ads ++ [aname]) (tree w)) = false ->
  lookup (scs ++ [top]) (tree w) = Some (Dir es) ->
  well_formed (Dir es) = true ->
  is_prefix (scs ++ [top]) (ads ++ [aname]) = false ->
  is_dir (lookup dcs (tree w)) = true ->
  lookup (dcs ++ [top]) (tree w) = None ->
  ads ++ [aname] <> dcs ++ [top] ->
  let build :=
    CreateZip.create_zip_aes (abs_of ccs) (abs_of (ads ++ [aname]))
      (abs_of (scs ++ [top])) password level w in
  let restore :=
    ExtractZip.extract_zip_aes (abs_of (ads ++ [aname])) (abs_of dcs) password
      (snd build) in
  fst build = Py.Ret tt /\
  (exists a,
      lookup (ads ++ [aname]) (tree (snd build)) = Some (File (zip_write a)) /\
      forall m c,
        In (m, c) (Zip.members a) <->
        exists q, q <> [] /\ m = rel_of (top :: q) /\
                  lookup (scs ++ top :: q) (tree w) = Some (File c)) /\
  fst restore = Py.Ret tt /\
  (forall q c,
      lookup (dcs ++ top :: q) (tree (snd restore)) = Some (File c) <->
      lookup (scs ++ top :: q) (tree w) = Some (File c)) /\
  (forall q,
      is_dir (lookup (dcs ++ top :: q) (tree (snd restore))) = true <->
      is_dir (lookup (scs ++ top :: q) (tree w)) = true /\
      exists r c, lookup (scs ++ top :: q ++ r) (tree w) = Some (File c)).
Proof.
  intros Hback Hvc Hva Hvs Hvd Hc Had Hna Hsrc Hwf Hout Hdest Hfree Hne
         build restore.
  assert (Hvtop : valid_name top = true).
  { apply valid_names_app in Hvs. destruct Hvs as [_ H].
    now apply Forall_cons_iff in H. }
  assert (Hbelow : forall q, lookup (scs ++ top :: q) (tree w) = lookup q (Dir es)).
  { intros q. change (scs ++ top :: q) with (scs ++ [top] ++ q).
    now rewrite app_assoc, lookup_app, Hsrc. }
  destruct (create_zip_aes_dir w ccs ads aname scs top es password level)
    as (w1 & Hbuild & Hcwd & Hkind); auto.
  fold (archive_of password top es) in Hkind.
  set (a := archive_of password top es) in *.
  assert (Harchive : lookup (ads ++ [aname]) (tree w1) = Some (File (zip_write a))).
  { apply kind_file. rewrite Hkind.
    now destruct (list_eq_dec string_dec (ads ++ [aname]) (ads ++ [aname])). }
  assert (Hdest1 : is_dir (lookup dcs (tree w1)) = true).
  { apply kind_dir. rewrite Hkind.
    destruct (list_eq_dec string_dec dcs (ads ++ [aname])) as [E|_].
    - rewrite E, Hna in Hdest. discriminate.
    - now apply kind_dir. }
  assert (Hfree1 : lookup (dcs ++ [top]) (tree w1) = None).
  { specialize (Hkind (dcs ++ [top])).
    destruct (list_eq_dec string_dec (dcs ++ [top]) (ads ++ [aname])) as [E|_];
      [now symmetry in E|].
    rewrite Hfree in Hkind. now destruct (lookup (dcs ++ [top]) (tree w1)) as [[?|?]|]. }
  destruct (extract_zip_aes_dir dcs top es a password Hvd Hvtop Hwf eq_refl eq_refl
              w1 (ads ++ [aname]) (zip_write a))
    as (w2 & Hrestore & (_ & I1 & I2) & Hall); auto.
  { rewrite Hcwd. reflexivity. }
  subst build restore. rewrite Hbuild. cbn [fst snd]. rewrite Hrestore. cbn [fst snd].
  split; [reflexivity|]. split; [|split; [reflexivity|split]].
  - exists a. split; [exact Harchive|]. intros m c.
    change (Zip.members a) with (archived [top] (Dir es)).
    rewrite (archived_spec (Dir es) [top] m c Hwf).
    split; intros (q & Hq & Hm & Hl); exists q; (split; [exact Hq|]);
      (split; [exact Hm|]); [now rewrite Hbelow | now rewrite <- Hbelow].
  - intros q c. rewrite Hbelow. split; [apply I1 | now apply Hall].
  - intros q. rewrite Hbelow. split.
    + intros Hd. destruct (I2 q Hd) as [Hdir (r & c & Hf)].
      split; [exact Hdir|]. exists r, c. now rewrite Hbelow.
    + intros [Hdir (r & c & Hf)]. rewrite Hbelow in Hf.
      assert (Hr : r <> []).
      { intros ->. rewrite app_nil_r in Hf. rewrite Hf in Hdir. discriminate. }
      apply (Hall (q ++ r) c I) in Hf.
      change (dcs ++ top :: q ++ r) with (dcs ++ (top :: q) ++ r) in Hf.
      rewrite app_assoc in Hf.
      apply (lookup_prefix_dir _ _ _ _ Hf Hr).
Qed.
End RoundTrip.

Section ToyFormat.
Import Examples.

Lemma toy_parse_bytes_ok l rest :
  toy_parse_bytes (toy_bytes l ++ rest) = Some (l, rest).
Proof.
  unfold toy_bytes. induction l as [|b l IH]; [reflexivity|].
  cbn [flat_map app toy_parse_bytes].
  change (Byte.eqb x01 x00) with false. cbv iota.
  cbn [app] in IH. now rewrite IH.
Qed.

Lemma toy_parse_members_ok ms : forall fuel,
  (List.length ms < fuel)%nat ->
  toy_parse_members fuel (flat_map toy_member ms ++ [x00]) = Some ms.
Proof.
  induction ms as [|[name data] ms IH]; intros fuel Hfuel;
    (destruct fuel as [|fuel]; [cbn in Hfuel; lia|]).
  - reflexivity.
  - cbn [flat_map]. unfold toy_member at 1. cbn [fst snd app toy_parse_members].
    change (Byte.eqb x01 x00) with false. cbv iota.
    rewrite <- !app_assoc. rewrite !toy_parse_bytes_ok.
    rewrite IH by (cbn in Hfuel; lia).
    now rewrite string_of_list_byte_of_string.
Qed.

Lemma toy_members_length ms :
  (List.length ms < List.length (flat_map toy_member ms ++ [x00]))%nat.
Proof.
  rewrite length_app. cbn [List.length].
  induction ms as [|e ms IH]; cbn [flat_map List.length]; [lia|].
  rewrite length_app. unfold toy_member at 1. cbn [List.length]. lia.
Qed.

Lemma toy_reads_back : reads_back toy_libraries.
Proof.
  intros [[pw|] ms]; cbn [zip_read zip_write toy_libraries].
  - unfold toy_write. cbn [Zip.encryption Zip.members app toy_read].
    change (Byte.eqb x01 x00) with false. cbv iota.
    rewrite toy_parse_bytes_ok.
    rewrite toy_parse_members_ok by apply toy_members_length.
    cbn [option_map]. now rewrite string_of_list_byte_of_string.
  - unfold toy_write. cbn [Zip.encryption Zip.members app toy_read].
    change (Byte.eqb x00 x00) with true. cbv iota.
    now rewrite toy_parse_members_ok by apply toy_members_length.
Qed.
End ToyFormat.

Lemma zip_round_trip_witness :
  let L := Examples.toy_libraries in
  let build :=
    CreateZip.create_zip_aes "/srv" "/srv/backups/data.zip" "/home/ops/data"
      (Some "secret") 6 Examples.backup_world in
  let restore :=
    ExtractZip.extract_zip_aes "/srv/backups/data.zip" "/srv/out" (Some "secret")
      (snd build) in
  fst build = Py.Ret tt /\
  fst restore = Py.Ret tt /\
  Fs.lookup ["srv"; "out"; "data"; "sub"; "b.txt"] (tree (snd restore)) =
    Some (Fs.File (list_byte_of_string "beta")).
Proof.
  cbv zeta.
  assert (Hvc : PosixPath.valid_names ["srv"]) by (repeat constructor).
  assert (Hva : PosixPath.valid_names (["srv"; "backups"] ++ ["data.zip"]))
    by (repeat constructor).
  assert (Hvs : PosixPath.valid_names (["home"; "ops"] ++ ["data"]))
    by (repeat constructor).
  assert (Hvd : PosixPath.valid_names ["srv"; "out"]) by (repeat constructor).
  assert (Hne : ["srv"; "backups"] ++ ["data.zip"] <> ["srv"; "out"] ++ ["data"])
    by discriminate.
  destruct (@zip_round_trip Examples.toy_libraries Examples.backup_world
              ["srv"] ["srv"; "backups"] "data.zip" ["home"; "ops"] "data"
              Examples.ops_data ["srv"; "out"] (Some "secret") 6%Z
              (toy_reads_back _) Hvc Hva Hvs Hvd
              eq_refl eq_refl eq_refl eq_refl eq_refl eq_refl eq_refl eq_refl Hne)
    as (H1 & _ & H3 & H4 & _).
  split; [exact H1|]. split; [exact H3|].
  apply (H4 ["sub"; "b.txt"]). reflexivity.
Defined.

(** C4 as stated fails: the directory [/home/ops/data] has a subdirectory
    [empty] without regular files.  Archived and extracted into [/srv/out],
    both without error, it comes back without [empty]: the layout of the
    original tree is not reproduced. *)
Lemma zip_round_trip_loses_empty_directories :
  let L := Examples.toy_libraries in
  let build :=
    CreateZip.create_zip_aes "/srv" "/srv/backups/data.zip" "/home/ops/data"
      None 6 Examples.backup_world in
  let restore :=
    ExtractZip.extract_zip_aes "/srv/backups/data.zip" "/srv/out" None
      (snd build) in
  fst build = Py.Ret tt /\
  fst restore = Py.Ret tt /\
  Fs.lookup ["home"; "ops"; "data"; "empty"] (tree Examples.backup_world) =
    Some (Fs.Dir []) /\
  Fs.lookup ["srv"; "out"; "data"; "empty"] (tree (snd restore)) = None /\
  Fs.lookup ["srv"; "out"; "data"] (tree (snd restore)) =
    Some (Fs.Dir [("a.txt", Fs.File (list_byte_of_string "alpha"));
                  ("sub", Fs.Dir [("b.txt", Fs.File (list_byte_of_string "beta"))])]) /\
  Fs.lookup ["srv"; "out"; "data"] (tree (snd restore)) <>
  Fs.lookup ["home"; "ops"; "data"] (tree Examples.backup_world).
Proof. cbv zeta. vm_compute. repeat split. discriminate. Qed.

(* ===================================================================== *)
(** * The retention sweep on any directory                                *)
(* ===================================================================== *)

Section SweepRuns.
Import Fs PosixPath Retention.

Lemma strptime_raises s e : strptime s = Py.Raise e -> Py.is_Exception e = true.
Proof.
  unfold strptime, datetime, no_match.
  repeat match goal with
         | |- context [match ?x with _ => _ end] => destruct x
         end; intros [= <-]; reflexivity.
Qed.

Lemma os_remove_raises path w e :
  fst (Os.remove path w) = Py.Raise e -> Py.is_Exception e = true.
Proof.
  unfold Os.remove, Py.bind, Py.get, Os.os_error, Py.raise, Py.put.
  repeat match goal with
         | |- context [match ?x with _ => _ end] => destruct x
         end; cbn [fst]; intros [= <-]; reflexivity.
Qed.

(** A turn of the loop raises nothing but an [Exception]. *)
Lemma sweep_file_raises path_dir threshold file w e :
  fst (sweep_file path_dir threshold file w) = Py.Raise e ->
  Py.is_Exception e = true.
Proof.
  unfold sweep_file.
  rewrite (bind_ret _ _ _ _ _ (path_isfile_eval w _)).
  destruct (is_file _); [|discriminate].
  destruct (_ <? 3)%nat; [discriminate|].
  unfold Py.bind at 1. unfold Py.lift at 1.
  destruct (strptime _) as [t|e'] eqn:E; cbn [fst].
  - destruct (t <? threshold)%Z; [|discriminate].
    unfold Py.bind. destruct (Os.remove _ w) as [[[]|e'] w'] eqn:R; cbn [fst].
    + discriminate.
    + intros [= <-]. apply (os_remove_raises (join path_dir file) w).
      now rewrite R.
  - intros [= <-]. now apply strptime_raises in E.
Qed.

Lemma sweep_files_raise path_dir threshold files : forall w e,
  fst (Py.for_each files (sweep_file path_dir threshold) w) = Py.Raise e ->
  Py.is_Exception e = true.
Proof.
  induction files as [|f files IH]; intros w e; cbn [Py.for_each]; [discriminate|].
  unfold Py.bind.
  destruct (sweep_file path_dir threshold f w) as [[[]|e'] w'] eqn:E; cbn [fst].
  - apply IH.
  - intros [= <-]. apply (sweep_file_raises path_dir threshold f w). now rewrite E.
Qed.

(** The sweep never aborts the run: whatever the directory and the file
    system, [delete_backups] returns. *)
Theorem delete_backups_returns path_dir w :
  fst (delete_backups path_dir w) = Py.Ret tt.
Proof.
  unfold delete_backups, Py.try_except.
  match goal with |- context [match ?b w with _ => _ end] => set (body := b) end.
  assert (H : forall e, fst (body w) = Py.Raise e -> Py.is_Exception e = true).
  { subst body. intros e.
    rewrite (bind_ret _ _ _ _ _ (path_isdir_eval w _)).
    destruct (is_dir _); cbn [negb]; [|discriminate].
    rewrite (bind_ret Py.get _ w w w eq_refl).
    unfold Py.bind at 1. unfold Py.lift at 1. unfold minus_days.
    destruct (_ <? _)%Z; [now intros [= <-]|].
    unfold Py.bind at 1. unfold Os.listdir, Py.bind at 1, Py.get.
    destruct (Os.stat w path_dir) as [[?|es]|]; try (now intros [= <-]).
    apply sweep_files_raise. }
  destruct (body w) as [[[]|e] w']; [reflexivity|].
  rewrite (H e eq_refl). reflexivity.
Qed.
End SweepRuns.


Section SweepListing.
Import Fs PosixPath Retention.

Lemma del_entry_middle name n pre rest :
  ~ In name (map fst pre) ->
  del_entry name (pre ++ (name, n) :: rest) = pre ++ rest.
Proof.
  induction pre as [|[k m] pre IH]; intros Hnin; cbn [app del_entry].
  - now rewrite String.eqb_refl.
  - cbn [map fst In] in Hnin.
    destruct (String.eqb_spec k name) as [->|Hne]; [tauto|].
    rewrite IH by tauto. reflexivity.
Qed.

Lemma find_entry_middle name n pre rest :
  ~ In name (map fst pre) ->
  find_entry name (pre ++ (name, n) :: rest) = Some n.
Proof.
  induction pre as [|[k m] pre IH]; intros Hnin; cbn [app find_entry].
  - now rewrite String.eqb_refl.
  - cbn [map fst In] in Hnin.
    destruct (String.eqb_spec k name) as [->|Hne]; [tauto|].
    apply IH. tauto.
Qed.

Lemma not_above_child q d c :
  is_prefix d q = false -> is_prefix q d = false -> is_prefix q (d ++ [c]) = false.
Proof.
  intros Hdq Hqd. destruct (is_prefix q (d ++ [c])) eqn:E; [|reflexivity].
  apply is_prefix_app_inv in E. destruct E as [E | (r & -> & _)]; [congruence|].
  now rewrite is_prefix_app in Hdq.
Qed.

Lemma remove_file w d c es data :
  valid_names (d ++ [c]) ->
  lookup d (tree w) = Some (Dir es) ->
  find_entry c es = Some (File data) ->
  exists t,
    Os.remove (abs_of (d ++ [c])) w = (Py.Ret tt, set_tree t w) /\
    lookup d t = Some (Dir (del_entry c es)) /\
    (forall q, is_prefix d q = false -> is_prefix q d = false ->
               lookup q t = lookup q (tree w)).
Proof.
  intros Hv Hd Hc.
  destruct (unlink_child d c (tree w) es (File data) Hd Hc) as (t & Hu & Hl).
  exists t. split; [|split; [exact Hl|]].
  - unfold Os.remove. rewrite (bind_ret Py.get _ w w w eq_refl).
    rewrite resolve_abs_of by assumption.
    rewrite (lookup_child d c _ _ Hd), Hc, Hu. reflexivity.
  - intros q Hdq Hqd. apply (lookup_unlink_other _ _ _ _ Hu).
    + now apply is_prefix_shorter.
    + now apply not_above_child.
Qed.

(** One turn of the loop on an entry of the directory. *)
Lemma sweep_file_entry w d th es name n :
  valid_names d -> valid_name name = true ->
  lookup d (tree w) = Some (Dir es) ->
  find_entry name es = Some n ->
  sweep_file (abs_of d) th name w =
    match n, name_time name with
    | File _, Some (Py.Ret t) =>
        if (t <? th)%Z then
          Py.bind (Os.remove (abs_of (d ++ [name])))
                  (fun _ => Log.info ("Deleted old backup: " +++ name)) w
        else (Py.Ret tt, w)
    | File _, Some (Py.Raise e) => (Py.Raise e, w)
    | _, _ => (Py.Ret tt, w)
    end.
Proof.
  intros Hvd Hname Hd Hn.
  assert (Hstat : Os.stat w (abs_of (d ++ [name])) = Some n).
  { rewrite stat_abs_of by now apply valid_names_snoc.
    now rewrite (lookup_child d name _ _ Hd). }
  unfold sweep_file.
  rewrite (bind_ret _ _ _ _ _ (path_isfile_eval w _)).
  rewrite join_abs_of, Hstat by assumption.
  destruct n as [data|ces]; cbn [is_file]; [|reflexivity].
  unfold name_time.
  set (parts := split "_" (fst (splitext name))).
  destruct (List.length parts <? 3)%nat; [reflexivity|].
  destruct (strptime (nth 1 parts "" +++ "_" +++ nth 2 parts "")) as [t|e] eqn:Et.
  - rewrite (bind_ret _ _ w t w eq_refl). now destruct (t <? th)%Z.
  - reflexivity.
Qed.

(** The loop over the entries still to visit. *)
Lemma sweep_entries d th rest : forall w pre,
  valid_names d ->
  lookup d (tree w) = Some (Dir (pre ++ rest)) ->
  NoDup (map fst (pre ++ rest)) ->
  Forall (fun e => valid_name (fst e) = true) rest ->
  exists w',
    Py.for_each (map fst rest) (sweep_file (abs_of d) th) w =
      (match sweep_stop th rest with
       | None => Py.Ret tt
       | Some e => Py.Raise e
       end, w') /\
    lookup d (tree w') = Some (Dir (pre ++ swept th rest)) /\
    info_log w' = info_log w ++ sweep_records th rest /\
    errors_log w' = errors_log w /\
    (forall q, is_prefix d q = false -> is_prefix q d = false ->
               lookup q (tree w') = lookup q (tree w)).
Proof.
  induction rest as [|[name n] rest IH]; intros w pre Hvd Hd Hnd Hnames.
  - exists w. cbn. rewrite app_nil_r in *. now rewrite app_nil_r.
  - apply Forall_cons_iff in Hnames. destruct Hnames as [Hname Hnames].
    cbn [fst] in Hname.
    assert (Hnin : ~ In name (map fst pre)).
    { rewrite map_app in Hnd. cbn [map fst] in Hnd.
      apply NoDup_remove_2 in Hnd. intros H. apply Hnd.
      apply in_or_app. now left. }
    assert (Hnd' : NoDup (map fst (pre ++ rest))).
    { rewrite map_app in *. cbn [map fst] in Hnd. now apply NoDup_remove_1 in Hnd. }
    assert (Hkeep : forall w1,
               tree w1 = tree w -> info_log w1 = info_log w ->
               errors_log w1 = errors_log w ->
               exists w',
                 Py.for_each (map fst rest) (sweep_file (abs_of d) th) w1 =
                   (match sweep_stop th rest with
                    | None => Py.Ret tt
                    | Some e => Py.Raise e
                    end, w') /\
                 lookup d (tree w') = Some (Dir (pre ++ (name, n) :: swept th rest)) /\
                 info_log w' = info_log w ++ sweep_records th rest /\
                 errors_log w' = errors_log w /\
                 (forall q, is_prefix d q = false -> is_prefix q d = false ->
                            lookup q (tree w') = lookup q (tree w))).
    { intros w1 Ht Hi He.
      destruct (IH w1 (pre ++ [(name, n)])) as (w' & Hrun & Hl & Hinfo & Herr & Hframe);
        auto.
      - now rewrite Ht, <- app_assoc.
      - now rewrite <- app_assoc.
      - exists w'. rewrite <- app_assoc in Hl. rewrite Ht, Hi, He in *. auto. }
    cbn [map fst Py.for_each swept sweep_records sweep_stop].
    pose proof (sweep_file_entry w d th _ name n Hvd Hname Hd
                  (find_entry_middle name n pre rest Hnin)) as Hturn.
    destruct n as [data|ces].
    2:{ rewrite (bind_ret _ _ _ _ _ Hturn). now apply Hkeep. }
    destruct (name_time name) as [[t|e]|].
    3:{ rewrite (bind_ret _ _ _ _ _ Hturn). now apply Hkeep. }
    2:{ exists w. split; [|repeat split; auto].
        - now apply bind_raise.
        - now rewrite app_nil_r. }
    destruct (t <? th)%Z eqn:Eold.
    2:{ rewrite (bind_ret _ _ _ _ _ Hturn). now apply Hkeep. }
    destruct (remove_file w d name (pre ++ (name, File data) :: rest) data)
      as (t1 & Hrm & Hl1 & Hframe1); auto using valid_names_snoc, find_entry_middle.
    rewrite del_entry_middle in Hl1 by assumption.
    set (w1 := set_info_log (info_log w ++ ["Deleted old backup: " +++ name])
                            (set_tree t1 w)).
    destruct (IH w1 pre) as (w' & Hrun & Hl & Hinfo & Herr & Hframe); auto.
    exists w'. split; [|split; [exact Hl|split; [|split]]].
    + rewrite (bind_ret _ _ w tt w1); [exact Hrun|].
      rewrite Hturn. now rewrite (bind_ret _ _ _ _ _ Hrm).
    + rewrite Hinfo. subst w1. cbn. now rewrite <- app_assoc.
    + exact Herr.
    + intros q Hdq Hqd. rewrite Hframe by assumption. now apply Hframe1.
Qed.

(** What a run of [delete_backups] leaves of a directory. *)
Lemma delete_backups_eval w d es th :
  valid_names d ->
  lookup d (tree w) = Some (Dir es) ->
  NoDup (map fst es) ->
  Forall (fun e => valid_name (fst e) = true) es ->
  minus_days (clock w) 90 = Py.Ret th ->
  exists w',
    delete_backups (abs_of d) w = (Py.Ret tt, w') /\
    lookup d (tree w') = Some (Dir (swept th es)) /\
    info_log w' = info_log w ++ sweep_records th es /\
    errors_log w' = errors_log w ++
                    match sweep_stop th es with
                    | None => []
                    | Some e => ["Error: " +++ Py.str_exn e]
                    end /\
    (forall q, is_prefix d q = false -> is_prefix q d = false ->
               lookup q (tree w') = lookup q (tree w)).
Proof.
  intros Hvd Hd Hnd Hnames Hth.
  destruct (sweep_entries d th es w [] Hvd Hd Hnd Hnames)
    as (w' & Hrun & Hl & Hinfo & Herr & Hframe).
  assert (Hbody :
    Py.bind (Os.path_isdir (abs_of d))
      (fun isdir =>
         if negb isdir then Log.error ("Directory not found: " +++ abs_of d)
         else Py.bind Py.get (fun w0 =>
                Py.bind (Py.lift (minus_days (clock w0) 90)) (fun threshold =>
                  Py.bind (Os.listdir (abs_of d)) (fun files =>
                    Py.for_each files (sweep_file (abs_of d) threshold))))) w =
    (match sweep_stop th es with
     | None => Py.Ret tt
     | Some e => Py.Raise e
     end, w')).
  { rewrite (bind_ret _ _ _ _ _ (path_isdir_eval w _)).
    rewrite stat_abs_of, Hd by assumption. cbn [is_dir negb].
    rewrite (bind_ret Py.get _ w w w eq_refl).
    rewrite (bind_ret _ _ w th w) by (unfold Py.lift; now rewrite Hth).
    rewrite (bind_ret _ _ w (map fst es) w); [exact Hrun|].
    unfold Os.listdir. rewrite (bind_ret Py.get _ w w w eq_refl).
    now rewrite stat_abs_of, Hd. }
  unfold delete_backups.
  destruct (sweep_stop th es) as [e|] eqn:Estop.
  - assert (He : Py.is_Exception e = true).
    { apply (sweep_files_raise (abs_of d) th (map fst es) w).
      now rewrite Hrun. }
    eexists. split; [|split; [|split; [|split]]].
    + rewrite (try_except_raise _ _ _ _ _ _ Hbody), He. reflexivity.
    + exact Hl.
    + cbn. exact Hinfo.
    + cbn. now rewrite Herr.
    + exact Hframe.
  - exists w'. split; [|split; [exact Hl|split; [exact Hinfo|split]]].
    + now apply try_except_ret.
    + now rewrite app_nil_r.
    + exact Hframe.
Qed.



Lemma swept_filter th es :
  sweep_stop th es = None ->
  swept th es = filter (fun e => negb (expired th e)) es /\
  sweep_records th es =
    map (fun e => "Deleted old backup: " +++ fst e) (filter (expired th) es).
Proof.
  induction es as [|[name n] es IH]; [split; reflexivity|].
  cbn [swept sweep_stop sweep_records filter].
  destruct n as [data|ces].
  - destruct (name_time name) as [[t|x]|] eqn:Et; [|discriminate|].
    + assert (Hx : expired th (name, File data) = (t <? th)%Z)
        by (unfold expired; cbn [fst snd]; now rewrite Et).
      intros H. destruct (IH H) as [-> ->]. rewrite Hx.
      destruct (t <? th)%Z; split; reflexivity.
    + assert (Hx : expired th (name, File data) = false)
        by (unfold expired; cbn [fst snd]; now rewrite Et).
      intros H. destruct (IH H) as [-> ->]. rewrite Hx. split; reflexivity.
  - assert (Hx : expired th (name, Dir ces) = false) by reflexivity.
    intros H. destruct (IH H) as [-> ->]. rewrite Hx. split; reflexivity.
Qed.

Lemma sweep_stop_none th es :
  (forall name data e, In (name, File data) es -> name_time name <> Some (Py.Raise e)) ->
  sweep_stop th es = None.
Proof.
  induction es as [|[name n] es IH]; intros H; [reflexivity|].
  cbn [sweep_stop]. destruct n as [data|ces].
  - destruct (name_time name) as [[t|x]|] eqn:E.
    + apply IH. intros ? ? ? Hin. apply H with (data := data0). now right.
    + exfalso. apply (H name data x); [now left | assumption].
    + apply IH. intros ? ? ? Hin. apply H with (data := data0). now right.
  - apply IH. intros ? ? ? Hin. apply H with (data := data). now right.
Qed.
End SweepListing.


Section SweepProperties.
Import Fs PosixPath Retention.


(** When no regular file of a directory with entries of ASCII names has
    a name of three parts without a moment, the sweep removes every
    regular file whose name
    carries a moment more than 90 days before the clock, keeps the other
    entries in their order, and logs one record for each removal and no
    error. *)
Theorem expired_backups_are_deleted w d es th :
  valid_names d ->
  lookup d (tree w) = Some (Dir es) ->
  NoDup (map fst es) ->
  Forall (fun e => valid_name (fst e) = true) es ->
  Forall (fun e => ascii_only (fst e) = true) es ->
  minus_days (clock w) 90 = Py.Ret th ->
  (forall name data e, In (name, File data) es ->
                       name_time name <> Some (Py.Raise e)) ->
  let r := delete_backups (abs_of d) w in
  fst r = Py.Ret tt /\
  lookup d (tree (snd r)) =
    Some (Dir (filter (fun e => negb (expired th e)) es)) /\
  info_log (snd r) =
    info_log w ++ map (fun e => "Deleted old backup: " +++ fst e)
                      (filter (expired th) es) /\
  errors_log (snd r) = errors_log w.
Proof.
  intros Hvd Hd Hnd Hnames _ Eth Hgood r.
  destruct (delete_backups_eval w d es th Hvd Hd Hnd Hnames Eth)
    as (w' & Hrun & Hl & Hinfo & Herr & _).
  pose proof (sweep_stop_none th es Hgood) as Hstop.
  destruct (swept_filter th es Hstop) as [Hs Hr].
  subst r. rewrite Hrun. cbn [fst snd].
  rewrite Hl, Hinfo, Herr, Hstop, Hs, Hr, app_nil_r. auto.
Qed.
End SweepProperties.


Lemma expired_backups_are_deleted_witness :
  let w := Examples.sweep_world
             [Examples.old_backup; ("notes.txt", Fs.File []); Examples.recent_backup] in
  let r := Retention.delete_backups "/srv/backups" w in
  fst r = Py.Ret tt /\
  Fs.lookup ["srv"; "backups"] (tree (snd r)) =
    Some (Fs.Dir [("notes.txt", Fs.File []); Examples.recent_backup]) /\
  info_log (snd r) = ["Deleted old backup: a_2024-01-01_00-00-00.zip"].
Proof.
  cbv zeta.
  assert (Hv : PosixPath.valid_names ["srv"; "backups"]) by (repeat constructor).
  assert (Hnd : NoDup (map fst [Examples.old_backup; ("notes.txt", Fs.File []);
                                Examples.recent_backup])).
  { repeat constructor; cbn; intuition discriminate. }
  assert (Hnames : Forall (fun e => PosixPath.valid_name (fst e) = true)
                          [Examples.old_backup; ("notes.txt", Fs.File []);
                           Examples.recent_backup]) by (repeat constructor).
  assert (Hascii : Forall (fun e => ascii_only (fst e) = true)
                          [Examples.old_backup; ("notes.txt", Fs.File []);
                           Examples.recent_backup]) by (repeat constructor).
  destruct (expired_backups_are_deleted
              (Examples.sweep_world
                 [Examples.old_backup; ("notes.txt", Fs.File []); Examples.recent_backup])
              ["srv"; "backups"] _ _ Hv eq_refl Hnd Hnames Hascii eq_refl)
    as (H1 & H2 & H3 & _).
  { intros name data e [[= <- <-]|[[= <- <-]|[[= <- <-]|[]]]]; vm_compute; discriminate. }
  split; [exact H1|]. split; [exact H2 | exact H3].
Defined.


(* ===================================================================== *)
(** * Names with an extension, in lower case                              *)
(* ===================================================================== *)

Section SplitNames.
Import PosixPath.

Lemma rsplit1_none c s : contains c s = false -> rsplit1 c s = None.
Proof.
  induction s as [|a s IH]; [reflexivity|]. cbn [contains rsplit1].
  intros H. apply orb_false_iff in H. destruct H as [Ha Hs].
  now rewrite (IH Hs), Ha.
Qed.

Lemma rsplit1_some c s h t :
  rsplit1 c s = Some (h, t) -> s = h +++ String c t /\ contains c t = false.
Proof.
  revert h. induction s as [|a s IH]; intros h; [discriminate|].
  cbn [rsplit1]. destruct (rsplit1 c s) as [[h' t']|] eqn:E.
  - intros [= <- <-]. destruct (IH h' eq_refl) as [-> Ht]. now split.
  - destruct (Ascii.eqb_spec a c) as [->|Hne]; [|discriminate].
    intros [= <- <-]. split; [reflexivity|].
    clear IH. induction s as [|b s IH]; [reflexivity|].
    cbn [rsplit1] in E. cbn [contains].
    destruct (rsplit1 c s) as [[? ?]|]; [discriminate|].
    destruct (Ascii.eqb b c); [discriminate|]. now apply IH.
Qed.

Lemma rsplit1_none_inv c s : rsplit1 c s = None -> contains c s = false.
Proof.
  induction s as [|a s IH]; [reflexivity|]. cbn [rsplit1 contains].
  destruct (rsplit1 c s) as [[? ?]|]; [discriminate|].
  destruct (Ascii.eqb a c); [discriminate|]. intros _. now apply IH.
Qed.

Lemma all_dots_append a b : all_dots (a +++ b) = all_dots a && all_dots b.
Proof.
  induction a as [|x a IH]; [reflexivity|]. cbn [append all_dots].
  now rewrite IH, andb_assoc.
Qed.

(** The three shapes of a name without separator, as [splitext] reads
    it. *)
Lemma splitext_shape p :
  contains sep p = false ->
  (contains "." p = false /\ splitext p = (p, "")) \/
  (exists stem e, p = stem +++ String "." e /\ contains "." e = false /\
                  all_dots stem = true /\ splitext p = (p, "")) \/
  (exists stem e, p = stem +++ String "." e /\ contains "." e = false /\
                  all_dots stem = false /\ splitext p = (stem, String "." e)).
Proof.
  intros Hsep. unfold splitext. rewrite (rsplit1_none _ _ Hsep).
  destruct (rsplit1 "." p) as [[stem e]|] eqn:E.
  - destruct (rsplit1_some _ _ _ _ E) as [-> He].
    destruct (all_dots stem) eqn:Ed.
    + right. left. exists stem, e. auto.
    + right. right. exists stem, e. auto.
  - left. split; [now apply rsplit1_none_inv | reflexivity].
Qed.

Lemma splitext_parts p name ext :
  contains sep p = false -> splitext p = (name, ext) -> p = name +++ ext.
Proof.
  intros Hsep H.
  destruct (splitext_shape p Hsep)
    as [[_ E] | [(stem & e & -> & _ & _ & E) | (stem & e & -> & _ & _ & E)]];
    rewrite E in H; injection H as <- <-; now rewrite ?append_nil_r.
Qed.

(** A stamp without dot put before the extension stays out of the
    extension. *)
Lemma contains_stamped c x y :
  contains c (x +++ "_" +++ y) = contains c x || (Ascii.eqb "_" c || contains c y).
Proof. now rewrite contains_append. Qed.

Lemma splitext_stamped p name ext stamp :
  contains sep p = false -> contains sep stamp = false ->
  contains "." stamp = false ->
  splitext p = (name, ext) ->
  splitext (name +++ "_" +++ stamp +++ ext) = (name +++ "_" +++ stamp, ext).
Proof.
  intros Hsep Hss Hsd H.
  destruct (splitext_shape p Hsep)
    as [[Hd E] | [(stem & e & -> & He & Hdots & E) | (stem & e & -> & He & Hdots & E)]];
    rewrite E in H; injection H as <- <-.
  - rewrite append_nil_r. unfold splitext.
    rewrite (rsplit1_none sep) by (rewrite contains_stamped, Hsep, Hss; reflexivity).
    rewrite (rsplit1_none ".") by (rewrite contains_stamped, Hd, Hsd; reflexivity).
    reflexivity.
  - rewrite append_nil_r.
    rewrite contains_append in Hsep. apply orb_false_iff in Hsep.
    destruct Hsep as [Hs1 Hs2]. cbn [contains] in Hs2.
    apply orb_false_iff in Hs2. destruct Hs2 as [_ Hs2].
    replace ((stem +++ String "." e) +++ "_" +++ stamp)
      with (stem +++ String "." (e +++ "_" +++ stamp))
      by (rewrite append_assoc; reflexivity).
    unfold splitext.
    rewrite (rsplit1_none sep).
    2:{ rewrite contains_append. cbn [contains].
        rewrite contains_stamped, Hs1, Hs2, Hss. reflexivity. }
    rewrite rsplit1_append by (rewrite contains_stamped, He, Hsd; reflexivity).
    now rewrite Hdots.
  - rewrite contains_append in Hsep. apply orb_false_iff in Hsep.
    destruct Hsep as [Hs1 Hs2]. cbn [contains] in Hs2.
    apply orb_false_iff in Hs2. destruct Hs2 as [_ Hs2].
    replace (stem +++ "_" +++ stamp +++ String "." e)
      with ((stem +++ "_" +++ stamp) +++ String "." e)
      by (rewrite append_assoc; reflexivity).
    unfold splitext.
    rewrite (rsplit1_none sep).
    2:{ rewrite contains_append. cbn [contains].
        rewrite contains_stamped, Hs1, Hs2, Hss. reflexivity. }
    rewrite rsplit1_append by assumption.
    rewrite all_dots_append. cbn [append all_dots].
    change (Ascii.eqb "_" ".") with false. cbn [andb].
    now rewrite andb_false_r.
Qed.
End SplitNames.


(* ===================================================================== *)
(** * Timestamps written and read                                         *)
(* ===================================================================== *)

Section Timestamps.
Import PosixPath Retention BackupName.
Open Scope Z_scope.

(** A property checked on every number below a bound holds below it. *)
Lemma checked_below (P : Z -> bool) (bound : Z) :
  forallb (fun k => P (Z.of_nat k)) (seq 0 (Z.to_nat bound)) = true ->
  forall n, 0 <= n < bound -> P n = true.
Proof.
  intros H n Hn. rewrite forallb_forall in H.
  specialize (H (Z.to_nat n)). rewrite Z2Nat.id in H by lia.
  apply H. apply in_seq. lia.
Qed.

Lemma plain_inv s :
  plain s = true ->
  contains "/" s = false /\ contains "." s = false /\
  contains "_" s = false /\ contains "-" s = false.
Proof.
  unfold plain. intros H.
  repeat (apply andb_true_iff in H; destruct H as [H ?]).
  repeat match goal with H : negb _ = true |- _ => apply negb_true_iff in H end.
  auto.
Qed.

Lemma pad2_plain n : 0 <= n < 100 -> plain (pad2 n) = true.
Proof. apply (checked_below (fun n => plain (pad2 n)) 100). vm_compute. reflexivity. Qed.

Lemma pad4_plain n : 0 <= n < 10000 -> plain (pad4 n) = true.
Proof. apply (checked_below (fun n => plain (pad4 n)) 10000). vm_compute. reflexivity. Qed.

Lemma reads_inv field s n : reads field s n = true -> field s = Some n.
Proof.
  unfold reads. destruct (field s) as [v|]; [|discriminate].
  intros H. apply Z.eqb_eq in H. now subst.
Qed.

Lemma field_Y_pad4 y : 0 <= y < 10000 -> field_Y (pad4 y) = Some y.
Proof.
  intros H. apply reads_inv.
  apply (checked_below (fun n => reads field_Y (pad4 n) n) 10000); [|exact H].
  vm_compute. reflexivity.
Qed.

Lemma field_m_pad2 m : 1 <= m <= 12 -> field_m (pad2 m) = Some m.
Proof.
  intros H. apply reads_inv.
  assert (G : ((m <? 1) || (12 <? m) || reads field_m (pad2 m) m)%bool = true).
  { apply (checked_below
             (fun n => ((n <? 1) || (12 <? n) || reads field_m (pad2 n) n)%bool) 100);
      [vm_compute; reflexivity | lia]. }
  destruct (Z.ltb_spec m 1); [lia|]. destruct (Z.ltb_spec 12 m); [lia|]. exact G.
Qed.

Lemma field_d_pad2 d : 1 <= d <= 31 -> field_d (pad2 d) = Some d.
Proof.
  intros H. apply reads_inv.
  assert (G : ((d <? 1) || (31 <? d) || reads field_d (pad2 d) d)%bool = true).
  { apply (checked_below
             (fun n => ((n <? 1) || (31 <? n) || reads field_d (pad2 n) n)%bool) 100);
      [vm_compute; reflexivity | lia]. }
  destruct (Z.ltb_spec d 1); [lia|]. destruct (Z.ltb_spec 31 d); [lia|]. exact G.
Qed.

Lemma field_upto_pad2 hi n : 0 <= n <= hi -> hi < 100 -> field_upto hi (pad2 n) = Some n.
Proof.
  intros H Hhi.
  assert (G : two_digits (pad2 n) = Some (Some (n / 10), n mod 10)).
  { assert (E : match two_digits (pad2 n) with
                | Some (Some t, u) => (t =? n / 10) && (u =? n mod 10)
                | _ => false
                end%bool = true).
    { apply (checked_below
               (fun n => match two_digits (pad2 n) with
                         | Some (Some t, u) => (t =? n / 10) && (u =? n mod 10)
                         | _ => false
                         end%bool) 100); [vm_compute; reflexivity | lia]. }
    destruct (two_digits (pad2 n)) as [[[t|] u]|]; try discriminate.
    apply andb_true_iff in E. destruct E as [E1 E2].
    apply Z.eqb_eq in E1, E2. now subst. }
  unfold field_upto. rewrite G.
  assert (E : n / 10 * 10 + n mod 10 = n).
  { pose proof (Z.div_mod n 10). lia. }
  rewrite E. destruct (Z.leb_spec n hi); [reflexivity | lia].
Qed.

Lemma strftime_parts y m d hh mi ss :
  0 <= y < 10000 -> 0 <= m < 100 -> 0 <= d < 100 ->
  0 <= hh < 100 -> 0 <= mi < 100 -> 0 <= ss < 100 ->
  split "_" (strftime y m d hh mi ss) =
    [pad4 y +++ "-" +++ pad2 m +++ "-" +++ pad2 d;
     pad2 hh +++ "-" +++ pad2 mi +++ "-" +++ pad2 ss]%string /\
  split "-" (pad4 y +++ "-" +++ pad2 m +++ "-" +++ pad2 d)%string
    = [pad4 y; pad2 m; pad2 d] /\
  split "-" (pad2 hh +++ "-" +++ pad2 mi +++ "-" +++ pad2 ss)%string
    = [pad2 hh; pad2 mi; pad2 ss] /\
  contains "." (strftime y m d hh mi ss) = false /\
  contains "/" (strftime y m d hh mi ss) = false.
Proof.
  intros Hy Hm Hd Hhh Hmi Hss.
  destruct (plain_inv _ (pad4_plain y Hy)) as (Y1 & Y2 & Y3 & Y4).
  destruct (plain_inv _ (pad2_plain m Hm)) as (M1 & M2 & M3 & M4).
  destruct (plain_inv _ (pad2_plain d Hd)) as (D1 & D2 & D3 & D4).
  destruct (plain_inv _ (pad2_plain hh Hhh)) as (H1 & H2 & H3 & H4).
  destruct (plain_inv _ (pad2_plain mi Hmi)) as (I1 & I2 & I3 & I4).
  destruct (plain_inv _ (pad2_plain ss Hss)) as (S1 & S2 & S3 & S4).
  assert (Hthree : forall a b c,
             contains "-" a = false -> contains "-" b = false ->
             contains "-" c = false ->
             split "-" (a +++ "-" +++ b +++ "-" +++ c)%string = [a; b; c]).
  { intros a b c Ha Hb Hc.
    change (a +++ "-" +++ b +++ "-" +++ c)%string
      with (a +++ String "-" (b +++ String "-" c))%string.
    rewrite !split_append by assumption. now rewrite split_no_sep. }
  assert (Hany : forall x a b c,
             contains x a = false -> contains x b = false -> contains x c = false ->
             Ascii.eqb "-" x = false ->
             contains x (a +++ "-" +++ b +++ "-" +++ c)%string = false).
  { intros x a b c Ha Hb Hc Hx.
    rewrite !contains_append. cbn [contains]. now rewrite Ha, Hb, Hc, Hx. }
  repeat split.
  - unfold strftime.
    replace (pad4 y +++ "-" +++ pad2 m +++ "-" +++ pad2 d +++ "_"
             +++ pad2 hh +++ "-" +++ pad2 mi +++ "-" +++ pad2 ss)%string
      with ((pad4 y +++ "-" +++ pad2 m +++ "-" +++ pad2 d)
            +++ String "_" (pad2 hh +++ "-" +++ pad2 mi +++ "-" +++ pad2 ss))%string
      by (rewrite !append_assoc; reflexivity).
    rewrite split_append by (now apply Hany).
    rewrite split_no_sep by (now apply Hany). reflexivity.
  - now apply Hthree.
  - now apply Hthree.
  - unfold strftime. rewrite !contains_append. cbn [contains].
    now rewrite Y2, M2, D2, H2, I2, S2.
  - unfold strftime. rewrite !contains_append. cbn [contains].
    now rewrite Y1, M1, D1, H1, I1, S1.
Qed.

(** What [strftime] writes, [strptime] reads back. *)
Lemma strptime_strftime y m d hh mi ss :
  0 <= y < 10000 -> 1 <= m <= 12 -> 1 <= d <= 31 ->
  0 <= hh <= 23 -> 0 <= mi <= 59 -> 0 <= ss <= 59 ->
  strptime (strftime y m d hh mi ss) = datetime y m d hh mi ss.
Proof.
  intros Hy Hm Hd Hhh Hmi Hss.
  destruct (strftime_parts y m d hh mi ss) as (P1 & P2 & P3 & _); try lia.
  unfold strptime. rewrite P1, P2, P3.
  rewrite field_Y_pad4, field_m_pad2, field_d_pad2 by lia.
  rewrite !field_upto_pad2 by lia. reflexivity.
Qed.
End Timestamps.


(* ===================================================================== *)
(** * The names [generate_backup_filename] makes                          *)
(* ===================================================================== *)

Section GeneratedNames.
Import Fs PosixPath Retention BackupName.

Lemma lower_char_keeps a x :
  PyStr.lower_char x = x -> (forall c, PyStr.lower_char c = x -> c = x) ->
  Ascii.eqb (PyStr.lower_char a) x = Ascii.eqb a x.
Proof.
  intros Hx Hinj. destruct (Ascii.eqb_spec a x) as [->|Hne].
  - rewrite Hx. apply Ascii.eqb_refl.
  - apply Ascii.eqb_neq. intros E. apply Hne. now apply Hinj.
Qed.

Lemma lower_char_sep a : Ascii.eqb (PyStr.lower_char a) sep = Ascii.eqb a sep.
Proof.
  destruct a as [[] [] [] [] [] [] [] []]; reflexivity.
Qed.

Lemma contains_sep_lower s : contains sep (PyStr.lower s) = contains sep s.
Proof.
  induction s as [|a s IH]; [reflexivity|].
  cbn [PyStr.lower contains]. now rewrite lower_char_sep, IH.
Qed.

Lemma basename_abs_of cs c :
  valid_names cs -> valid_name c = true -> basename (abs_of (cs ++ [c])) = c.
Proof.
  intros H Hc. apply valid_name_inv in Hc. destruct Hc as (_ & _ & _ & H4).
  unfold basename. destruct cs as [|d cs'].
  - cbn [app]. unfold abs_of. cbn [concat].
    change ("/" +++ c) with ("" +++ String sep c).
    now rewrite rsplit1_append.
  - rewrite abs_of_snoc by discriminate.
    change (abs_of (d :: cs') +++ "/" +++ c)
      with (abs_of (d :: cs') +++ String sep c).
    now rewrite rsplit1_append.
Qed.

Lemma stamped_valid name stamp ext :
  contains sep name = false -> contains sep stamp = false ->
  contains sep ext = false ->
  valid_name (name +++ "_" +++ stamp +++ ext) = true.
Proof.
  intros Hn Hs He. unfold valid_name.
  assert (Hu : contains "_" (name +++ "_" +++ stamp +++ ext) = true).
  { rewrite contains_append. cbn. now rewrite orb_true_r. }
  assert (Hne : forall s, contains "_" s = false ->
                          (name +++ "_" +++ stamp +++ ext =? s) = false).
  { intros s Hs'. apply String.eqb_neq. intros E. rewrite E in Hu. congruence. }
  rewrite !Hne by reflexivity. cbn [negb andb].
  rewrite contains_stamped, Hn, contains_append, Hs, He. reflexivity.
Qed.

Lemma generate_backup_filename_eval w d c stamp :
  valid_names d -> valid_name c = true -> contains sep stamp = false ->
  generate_backup_filename (abs_of (d ++ [c])) stamp w =
    (Py.Ret (abs_of (d ++ [fst (splitext (PyStr.lower c)) +++ "_" +++ stamp
                             +++ snd (splitext (PyStr.lower c))])), w).
Proof.
  intros Hd Hc Hs.
  assert (Hlc : contains sep (PyStr.lower c) = false).
  { rewrite contains_sep_lower. now apply valid_name_inv in Hc. }
  unfold generate_backup_filename.
  rewrite basename_abs_of, dirname_abs_of by assumption.
  destruct (splitext (PyStr.lower c)) as [name ext] eqn:E. cbn [fst snd].
  pose proof (splitext_parts _ _ _ Hlc E) as Hp.
  rewrite Hp, contains_append in Hlc. apply orb_false_iff in Hlc.
  destruct Hlc as [Hn He].
  rewrite (bind_ret Py.get _ w w w eq_refl).
  rewrite join_abs_of by (auto using stamped_valid).
  rewrite abspath_abs_of; [reflexivity|].
  apply valid_names_snoc; auto using stamped_valid.
Qed.

(** The archive of a run is written beside the destination the settings
    name: for a destination with a file name of ASCII characters, in the
    same directory, under the destination's file name in lower case,
    with [_] and the timestamp put before its extension. *)
Theorem generated_name_is_beside_destination w d c stamp :
  valid_names d -> valid_name c = true -> ascii_only c = true ->
  contains sep stamp = false ->
  generate_backup_filename (abs_of (d ++ [c])) stamp w =
    (Py.Ret (abs_of (d ++ [fst (splitext (PyStr.lower c)) +++ "_" +++ stamp
                             +++ snd (splitext (PyStr.lower c))])), w).
Proof. intros Hd Hc _ Hs. now apply generate_backup_filename_eval. Qed.

Lemma name_time_stamped name stamp ext date time :
  contains "_" name = false ->
  split "_" stamp = [date; time] ->
  splitext (name +++ "_" +++ stamp +++ ext) = (name +++ "_" +++ stamp, ext) ->
  name_time (name +++ "_" +++ stamp +++ ext) = Some (strptime (date +++ "_" +++ time)).
Proof.
  intros Hn Hstamp Hsplit. unfold name_time. rewrite Hsplit. cbn [fst].
  change (name +++ "_" +++ stamp) with (name +++ String "_" stamp).
  rewrite split_append by assumption. rewrite Hstamp.
  reflexivity.
Qed.

(** The sweep reads in the name of an archive the moment the run put
    there: for a destination whose file name is made of ASCII
    characters and, less its extension, has no [_], the name generated
    from the timestamp of a moment carries exactly that moment. *)
Theorem generated_name_carries_its_moment w d c y m dd hh mi ss :
  valid_names d -> valid_name c = true -> ascii_only c = true ->
  contains "_" (fst (splitext (PyStr.lower c))) = false ->
  (1000 <= y <= 9999)%Z -> (1 <= m <= 12)%Z -> (1 <= dd <= 31)%Z ->
  (0 <= hh <= 23)%Z -> (0 <= mi <= 59)%Z -> (0 <= ss <= 59)%Z ->
  exists file,
    generate_backup_filename (abs_of (d ++ [c])) (strftime y m dd hh mi ss) w =
      (Py.Ret (abs_of (d ++ [file])), w) /\
    name_time file = Some (datetime y m dd hh mi ss).
Proof.
  intros Hd Hc _ Hu Hy Hm Hdd Hhh Hmi Hss.
  destruct (strftime_parts y m dd hh mi ss) as (P1 & P2 & P3 & Pdot & Psep);
    try lia.
  pose proof (strptime_strftime y m dd hh mi ss) as Hround.
  assert (Hstamp : (pad4 y +++ "-" +++ pad2 m +++ "-" +++ pad2 dd) +++ "_"
                   +++ (pad2 hh +++ "-" +++ pad2 mi +++ "-" +++ pad2 ss)
                   = strftime y m dd hh mi ss).
  { unfold strftime. now rewrite !append_assoc. }
  set (stamp := strftime y m dd hh mi ss) in *.
  set (date := pad4 y +++ "-" +++ pad2 m +++ "-" +++ pad2 dd) in *.
  set (time := pad2 hh +++ "-" +++ pad2 mi +++ "-" +++ pad2 ss) in *.
  clearbody stamp date time.
  exists (fst (splitext (PyStr.lower c)) +++ "_" +++ stamp
          +++ snd (splitext (PyStr.lower c))).
  split; [now apply generate_backup_filename_eval|].
  assert (Hlc : contains sep (PyStr.lower c) = false).
  { rewrite contains_sep_lower. now apply valid_name_inv in Hc. }
  destruct (splitext (PyStr.lower c)) as [name ext] eqn:E. cbn [fst snd] in *.
  rewrite (name_time_stamped name stamp ext date time Hu P1).
  - rewrite Hstamp. f_equal. apply Hround; lia.
  - now apply splitext_stamped with (p := PyStr.lower c).
Qed.
End GeneratedNames.

Lemma generated_name_is_beside_destination_witness :
  BackupName.generate_backup_filename "/app/backups/Data.ZIP" "2024-06-01_12-00-00"
    Examples.fresh_install =
  (Py.Ret "/app/backups/data_2024-06-01_12-00-00.zip", Examples.fresh_install).
Proof.
  assert (Hv : PosixPath.valid_names ["app"; "backups"]) by (repeat constructor).
  exact (generated_name_is_beside_destination Examples.fresh_install
           ["app"; "backups"] "Data.ZIP" "2024-06-01_12-00-00"
           Hv eq_refl eq_refl eq_refl).
Defined.

Lemma generated_name_carries_its_moment_witness :
  exists file,
    BackupName.generate_backup_filename "/app/backups/Data.ZIP"
      (BackupName.strftime 2024 6 1 12 0 0) Examples.fresh_install =
      (Py.Ret (PosixPath.abs_of (["app"; "backups"] ++ [file])), Examples.fresh_install) /\
    name_time file = Some (Py.Ret Examples.noon_2024_06_01).
Proof.
  assert (Hv : PosixPath.valid_names ["app"; "backups"]) by (repeat constructor).
  destruct (generated_name_carries_its_moment Examples.fresh_install
              ["app"; "backups"] "Data.ZIP" 2024 6 1 12 0 0 Hv eq_refl eq_refl eq_refl
              ltac:(lia) ltac:(lia) ltac:(lia) ltac:(lia) ltac:(lia) ltac:(lia))
    as (file & H1 & H2).
  exists file. split; [exact H1 | exact H2].
Defined.


(* ===================================================================== *)
(** * Encrypted archives in the swept directory                           *)
(* ===================================================================== *)

Section EncryptedNames.
Import Fs PosixPath Retention.

Lemma concat_split c s : concat (String c "") (split c s) = s.
Proof.
  induction s as [|a s IH]; [reflexivity|]. cbn [split].
  pose proof (split_not_nil c s) as Hn.
  destruct (split c s) as [|h t]; [contradiction|].
  rewrite <- IH.
  destruct (Ascii.eqb a c) eqn:E.
  - apply Ascii.eqb_eq in E. subst a. reflexivity.
  - destruct t; reflexivity.
Qed.

Lemma digit_no_dot a v : digit a = Some v -> Ascii.eqb a "." = false.
Proof.
  destruct (Ascii.eqb_spec a ".") as [->|]; [discriminate | reflexivity].
Qed.

Lemma two_digits_no_dot s r : two_digits s = Some r -> contains "." s = false.
Proof.
  destruct s as [|a [|b [|c s]]]; cbn [two_digits]; try discriminate.
  - destruct (digit a) eqn:Ea; [|discriminate]. intros _. cbn.
    now rewrite (digit_no_dot _ _ Ea).
  - destruct (digit a) eqn:Ea; [|discriminate].
    destruct (digit b) eqn:Eb; [|discriminate]. intros _. cbn.
    now rewrite (digit_no_dot _ _ Ea), (digit_no_dot _ _ Eb).
Qed.

Lemma field_Y_no_dot s v : field_Y s = Some v -> contains "." s = false.
Proof.
  destruct s as [|a [|b [|c [|d [|x s]]]]]; cbn [field_Y]; try discriminate.
  destruct (digit a) eqn:Ea; [|discriminate].
  destruct (digit b) eqn:Eb; [|discriminate].
  destruct (digit c) eqn:Ec; [|discriminate].
  destruct (digit d) eqn:Ed; [|discriminate]. intros _. cbn.
  now rewrite (digit_no_dot _ _ Ea), (digit_no_dot _ _ Eb),
    (digit_no_dot _ _ Ec), (digit_no_dot _ _ Ed).
Qed.

Lemma field_m_no_dot s v : field_m s = Some v -> contains "." s = false.
Proof.
  unfold field_m. destruct (two_digits s) eqn:E; [|discriminate].
  intros _. now apply two_digits_no_dot in E.
Qed.

Lemma field_upto_no_dot hi s v : field_upto hi s = Some v -> contains "." s = false.
Proof.
  unfold field_upto. destruct (two_digits s) eqn:E; [|discriminate].
  intros _. now apply two_digits_no_dot in E.
Qed.

Lemma field_d_no_dot s v : field_d s = Some v -> contains "." s = false.
Proof.
  unfold field_d.
  assert (G : forall b, match digit b with
                        | Some u => if (1 <=? u)%Z then Some u else None
                        | None => None
                        end = Some v -> contains "." (String " " (String b "")) = false).
  { intros b. destruct (digit b) eqn:Eb; [|discriminate]. intros _. cbn.
    now rewrite (digit_no_dot _ _ Eb). }
  assert (T : match two_digits s with
              | Some (None, u) => if (1 <=? u)%Z then Some u else None
              | Some (Some t, u) =>
                  if ((1 <=? t * 10 + u) && (t * 10 + u <=? 31))%Z
                  then Some (t * 10 + u)%Z else None
              | None => None
              end = Some v -> contains "." s = false).
  { destruct (two_digits s) eqn:E; [|discriminate].
    intros _. now apply two_digits_no_dot in E. }
  destruct s as [|a s]; [exact T|].
  destruct a as [[] [] [] [] [] [] [] []]; try exact T.
  destruct s as [|b [|c s]]; try exact T. apply G.
Qed.

(** What [strptime] reads has no dot. *)
Lemma strptime_no_dot s v : strptime s = Py.Ret v -> contains "." s = false.
Proof.
  unfold strptime. intros H.
  rewrite <- (concat_split "_" s).
  destruct (split "_" s) as [|date [|time [|x l]]]; try discriminate.
  rewrite <- (concat_split "-" date), <- (concat_split "-" time).
  destruct (split "-" date) as [|fy [|fm [|fd [|x l]]]]; try discriminate.
  destruct (split "-" time) as [|fhh [|fmi [|fss [|x l]]]]; try discriminate.
  destruct (field_Y fy) eqn:EY; [|discriminate].
  destruct (field_m fm) eqn:Em; [|discriminate].
  destruct (field_d fd) eqn:Ed; [|discriminate].
  destruct (field_upto 23 fhh) eqn:Eh; [|discriminate].
  destruct (field_upto 59 fmi) eqn:Ei; [|discriminate].
  destruct (field_upto 61 fss) eqn:Es; [|discriminate].
  cbn [concat]. rewrite !contains_append. cbn [contains].
  rewrite ?contains_append. cbn [contains].
  rewrite (field_Y_no_dot _ _ EY), (field_m_no_dot _ _ Em),
    (field_d_no_dot _ _ Ed), (field_upto_no_dot _ _ _ Eh),
    (field_upto_no_dot _ _ _ Ei), (field_upto_no_dot _ _ _ Es).
  reflexivity.
Qed.

Lemma splitext_extension s e :
  contains sep s = false -> contains sep e = false -> contains "." e = false ->
  all_dots s = false ->
  splitext (s +++ String "." e) = (s, String "." e).
Proof.
  intros Hs He Hd Hdots. unfold splitext.
  rewrite (rsplit1_none sep).
  2:{ rewrite contains_append, Hs. cbn [contains]. now rewrite He. }
  rewrite rsplit1_append by assumption. now rewrite Hdots.
Qed.

(** The name of an encrypted 7z archive: the sweep finds no moment in
    it. *)
Lemma name_time_encrypted name date time :
  contains "_" name = false -> contains "_" date = false ->
  contains "_" time = false ->
  contains sep name = false -> contains sep date = false ->
  contains sep time = false ->
  exists e,
    name_time (name +++ "_" +++ date +++ "_" +++ time +++ ".7z.aes") =
      Some (Py.Raise e).
Proof.
  intros Hn Hd Ht Sn Sd St.
  assert (Hsplit :
    splitext (name +++ "_" +++ date +++ "_" +++ time +++ ".7z.aes") =
    (name +++ "_" +++ date +++ "_" +++ time +++ ".7z", ".aes")).
  { replace (name +++ "_" +++ date +++ "_" +++ time +++ ".7z.aes")
      with ((name +++ "_" +++ date +++ "_" +++ time +++ ".7z") +++ String "." "aes")
      by (rewrite !append_assoc; reflexivity).
    apply splitext_extension; try reflexivity.
    - rewrite !contains_stamped, Sn, Sd, contains_append, St. reflexivity.
    - rewrite all_dots_append. cbn. now rewrite andb_false_r. }
  unfold name_time. rewrite Hsplit. cbn [fst].
  change (name +++ "_" +++ date +++ "_" +++ time +++ ".7z")
    with (name +++ String "_" (date +++ String "_" (time +++ ".7z"))).
  rewrite !split_append by assumption.
  rewrite split_no_sep by (rewrite contains_append, Ht; reflexivity).
  cbn [List.length Nat.ltb Nat.leb nth].
  destruct (strptime (date +++ "_" +++ time +++ ".7z")) as [v|e] eqn:E.
  - apply strptime_no_dot in E.
    rewrite !contains_append in E. cbn in E.
    rewrite !orb_true_r in E. discriminate.
  - now exists e.
Qed.

Lemma swept_stops th pre file data post e x :
  name_time file = Some (Py.Raise e) ->
  In x ((file, File data) :: post) ->
  In x (swept th (pre ++ (file, File data) :: post)).
Proof.
  intros Hbad Hin. induction pre as [|[k n] pre IH]; cbn [app swept].
  - now rewrite Hbad.
  - destruct n as [dk|ces]; [|now right].
    destruct (name_time k) as [[t|e']|].
    + destruct (t <? th)%Z; [exact IH | now right].
    + right. apply in_or_app. now right.
    + now right.
Qed.

(** What a run of [delete_backups] leaves of a directory, whatever the
    clock. *)
Lemma delete_backups_leaves w d es :
  valid_names d ->
  lookup d (tree w) = Some (Dir es) ->
  NoDup (map fst es) ->
  Forall (fun e => valid_name (fst e) = true) es ->
  exists es',
    lookup d (tree (snd (delete_backups (abs_of d) w))) = Some (Dir es') /\
    (es' = es \/ exists th, es' = swept th es).
Proof.
  intros Hvd Hd Hnd Hnames.
  destruct (minus_days (clock w) 90) as [th|e] eqn:Eth.
  - destruct (delete_backups_eval w d es th Hvd Hd Hnd Hnames Eth)
      as (w' & Hrun & Hl & _).
    rewrite Hrun. exists (swept th es). split; [exact Hl|]. right. now exists th.
  - exists es. split; [|now left].
    unfold delete_backups. erewrite try_except_raise.
    2:{ rewrite (bind_ret _ _ _ _ _ (path_isdir_eval w _)).
        rewrite stat_abs_of, Hd by assumption. cbn [is_dir negb].
        rewrite (bind_ret Py.get _ w w w eq_refl).
        apply bind_raise. unfold Py.lift. now rewrite Eth. }
    destruct (Py.is_Exception e); exact Hd.
Qed.

(** An encrypted 7z archive of the tool, named
    [name_date_time.7z.aes], ends the sweep: the archive itself and every
    entry listed after it are still in the directory afterwards, however
    old they are. *)
Theorem encrypted_archive_ends_the_sweep w d pre post name date time data :
  let file := name +++ "_" +++ date +++ "_" +++ time +++ ".7z.aes" in
  let es := pre ++ (file, File data) :: post in
  valid_names d ->
  lookup d (tree w) = Some (Dir es) ->
  NoDup (map fst es) ->
  Forall (fun e => valid_name (fst e) = true) es ->
  contains "_" name = false -> contains "_" date = false ->
  contains "_" time = false ->
  exists es',
    lookup d (tree (snd (delete_backups (abs_of d) w))) = Some (Dir es') /\
    In (file, File data) es' /\
    forall e, In e post -> In e es'.
Proof.
  intros file es Hvd Hd Hnd Hnames Hn Hdt Ht.
  assert (Hfile : contains sep file = false).
  { pose proof (proj1 (Forall_forall _ _) Hnames (file, File data)) as H.
    cbn [fst] in H. apply valid_name_inv in H; [tauto|].
    subst es. apply in_or_app. right. now left. }
  subst file. rewrite !contains_stamped in Hfile.
  rewrite contains_append in Hfile.
  repeat (apply orb_false_iff in Hfile; destruct Hfile as [? Hfile]).
  repeat match goal with
         | H : (_ || _)%bool = false |- _ =>
             apply orb_false_iff in H; destruct H as [? ?]
         end.
  destruct (name_time_encrypted name date time) as [e Hbad]; auto.
  destruct (delete_backups_leaves w d es Hvd Hd Hnd Hnames)
    as (es' & Hl & [->|[th ->]]).
  - exists es. split; [exact Hl|]. subst es. split.
    + apply in_or_app. right. now left.
    + intros x Hx. apply in_or_app. right. now right.
  - exists (swept th es). split; [exact Hl|]. subst es. split.
    + apply (swept_stops th pre _ data post e); [exact Hbad | now left].
    + intros x Hx. apply (swept_stops th pre _ data post e); [exact Hbad | now right].
Qed.
End EncryptedNames.

Lemma encrypted_archive_ends_the_sweep_witness :
  let bad := ("a_2024-01-02_00-00-00.7z.aes", Fs.File []) in
  let w := Examples.sweep_world [bad; Examples.old_backup] in
  exists es',
    Fs.lookup ["srv"; "backups"]
      (tree (snd (Retention.delete_backups "/srv/backups" w))) = Some (Fs.Dir es') /\
    In bad es' /\ In Examples.old_backup es'.
Proof.
  cbv zeta.
  assert (Hv : PosixPath.valid_names ["srv"; "backups"]) by (repeat constructor).
  assert (Hnd : NoDup (map fst [("a_2024-01-02_00-00-00.7z.aes", Fs.File []);
                                Examples.old_backup])).
  { repeat constructor; cbn; intuition discriminate. }
  assert (Hnames : Forall (fun e => PosixPath.valid_name (fst e) = true)
                          [("a_2024-01-02_00-00-00.7z.aes", Fs.File []);
                           Examples.old_backup]) by (repeat constructor).
  destruct (encrypted_archive_ends_the_sweep
              (Examples.sweep_world [("a_2024-01-02_00-00-00.7z.aes", Fs.File []);
                                     Examples.old_backup])
              ["srv"; "backups"] [] [Examples.old_backup]
              "a" "2024-01-02" "00-00-00" [] Hv eq_refl Hnd Hnames
              eq_refl eq_refl eq_refl)
    as (es' & Hl & Hbad & Hpost).
  exists es'. split; [exact Hl|]. split; [exact Hbad|].
  apply Hpost. now left.
Defined.


(* ===================================================================== *)
(** * Listing the entries of an archive                                   *)
(* ===================================================================== *)

Section Listings.
Context {L : Libraries}.
Import Fs PosixPath.

Lemma read_bytes_raises w path e w' :
  Os.read_bytes path w = (Py.Raise e, w') -> Py.is_Exception e = true /\ w' = w.
Proof.
  unfold Os.read_bytes, Py.bind, Py.get, Os.os_error, Py.raise, Py.ret.
  destruct (Os.stat w path) as [[?|?]|]; intros [= <- <-]; now split.
Qed.

Lemma read_bytes_returns w path data w' :
  Os.read_bytes path w = (Py.Ret data, w') ->
  Os.stat w path = Some (File data) /\ w' = w.
Proof.
  unfold Os.read_bytes, Py.bind, Py.get, Os.os_error, Py.raise, Py.ret.
  destruct (Os.stat w path) as [[?|?]|]; intros [= <- <-]; now split.
Qed.

(** What [pyzipper.AESZipFile(path, 'r')] comes to. *)
Lemma open_zip_cases w path :
  (exists data a, Os.stat w path = Some (File data) /\ zip_read data = Some a /\
                  FileList.open_zip path w = (Py.Ret a, w)) \/
  (exists e, Py.is_Exception e = true /\
             (forall data a, Os.stat w path = Some (File data) ->
                             zip_read data <> Some a) /\
             FileList.open_zip path w = (Py.Raise e, w)).
Proof.
  unfold FileList.open_zip, Py.bind.
  destruct (Os.read_bytes path w) as [[data|e] w'] eqn:E.
  - apply read_bytes_returns in E. destruct E as [Hstat ->].
    destruct (zip_read data) as [a|] eqn:Hread.
    + left. exists data, a. now repeat split.
    + right. eexists. split; [|split; [|reflexivity]]; [reflexivity|].
      intros data' a Hs. rewrite Hstat in Hs. injection Hs as <-.
      now rewrite Hread.
  - pose proof E as E'. apply read_bytes_raises in E. destruct E as [He ->].
    right. exists e. split; [exact He|]. split; [|reflexivity].
    intros data a Hs. exfalso.
    unfold Os.read_bytes, Py.bind, Py.get, Py.ret in E'. rewrite Hs in E'.
    discriminate.
Qed.

Lemma open_7z_cases w path :
  (exists data names, Os.stat w path = Some (File data) /\
                      sevenz_getnames data = Some names /\
                      FileList.open_7z path w = (Py.Ret data, w)) \/
  (exists e, Py.is_Exception e = true /\
             (forall data names, Os.stat w path = Some (File data) ->
                                 sevenz_getnames data <> Some names) /\
             FileList.open_7z path w = (Py.Raise e, w)).
Proof.
  unfold FileList.open_7z, Py.bind.
  destruct (Os.read_bytes path w) as [[data|e] w'] eqn:E.
  - apply read_bytes_returns in E. destruct E as [Hstat ->].
    destruct (sevenz_getnames data) as [names|] eqn:Hread.
    + left. exists data, names. now repeat split.
    + right. eexists. split; [|split; [|reflexivity]]; [reflexivity|].
      intros data' a Hs. rewrite Hstat in Hs. injection Hs as <-.
      now rewrite Hread.
  - pose proof E as E'. apply read_bytes_raises in E. destruct E as [He ->].
    right. exists e. split; [exact He|]. split; [|reflexivity].
    intros data a Hs. exfalso.
    unfold Os.read_bytes, Py.bind, Py.get, Py.ret in E'. rewrite Hs in E'.
    discriminate.
Qed.

(** Listing a ZIP archive is read-only and never fails: whatever the
    path and the file system, [list_zip_contents] returns a list and
    leaves the tree as it was.  The list is that of the names of the
    archive when the path leads to a ZIP file, and then nothing at all
    has changed; otherwise the list is empty and the one change is a
    record "Error listing contents" in the error log. *)
Theorem listing_a_zip_is_read_only w archive_path password :
  let r := FileList.list_zip_contents archive_path password w in
  tree (snd r) = tree w /\
  ((exists data a,
       Os.stat w archive_path = Some (File data) /\ zip_read data = Some a /\
       r = (Py.Ret (Zip.namelist a), w))
   \/
   ((forall data a, Os.stat w archive_path = Some (File data) ->
                    zip_read data <> Some a) /\
    exists msg,
      r = (Py.Ret [],
           set_errors_log
             (errors_log w ++ ["Error listing contents of '" +++ archive_path
                               +++ "': " +++ msg]) w))).
Proof.
  intros r. subst r. unfold FileList.list_zip_contents.
  destruct (open_zip_cases w archive_path)
    as [(data & a & Hstat & Hread & Hopen)|(e & He & Hnone & Hopen)].
  - rewrite (try_except_ret _ _ _ w (Zip.namelist a) w)
      by now rewrite (bind_ret _ _ _ _ _ Hopen).
    split; [reflexivity|]. left. now exists data, a.
  - rewrite (try_except_raise _ _ _ w e w)
      by now rewrite (bind_raise _ _ _ _ _ Hopen).
    rewrite He. split; [reflexivity|]. right. split; [exact Hnone|].
    now exists (Py.str_exn e).
Qed.

(** The same for a 7z archive. *)
Theorem listing_a_7z_is_read_only w archive_path :
  let r := FileList.list_7z_contents archive_path w in
  tree (snd r) = tree w /\
  ((exists data names,
       Os.stat w archive_path = Some (File data) /\
       sevenz_getnames data = Some names /\
       r = (Py.Ret names, w))
   \/
   ((forall data names, Os.stat w archive_path = Some (File data) ->
                        sevenz_getnames data <> Some names) /\
    exists msg,
      r = (Py.Ret [],
           set_errors_log
             (errors_log w ++ ["Error listing contents of '" +++ archive_path
                               +++ "': " +++ msg]) w))).
Proof.
  intros r. subst r. unfold FileList.list_7z_contents.
  destruct (open_7z_cases w archive_path)
    as [(data & names & Hstat & Hread & Hopen)|(e & He & Hnone & Hopen)].
  - rewrite (try_except_ret _ _ _ w names w).
    + split; [reflexivity|]. left. now exists data, names.
    + rewrite (bind_ret _ _ _ _ _ Hopen). unfold FileList.getnames.
      now rewrite Hread.
  - rewrite (try_except_raise _ _ _ w e w)
      by now rewrite (bind_raise _ _ _ _ _ Hopen).
    rewrite He. split; [reflexivity|]. right. split; [exact Hnone|].
    now exists (Py.str_exn e).
Qed.
End Listings.


(* ===================================================================== *)
(** * The runs of [decypherx.py] that extract nothing                     *)
(* ===================================================================== *)

Section RestoreErrors.
Context {L : Libraries}.
Import Fs PosixPath.

(** Without a regular file at the path of the archive (nor at that path
    less its last four characters), and without a password file, [main]
    logs that the archive was not found and ends with exit status 1
    before it touches the file system: the destination is not created. *)
Theorem main_without_archive w source destination password_path listen force :
  ascii_only source = true ->
  is_file (Os.stat w source) = false ->
  is_file (Os.stat w (Aes.drop_last 4 source)) = false ->
  match password_path with
  | Some p => is_file (Os.stat w p) = false
  | None => True
  end ->
  Decypherx.main source destination password_path listen force w =
    (Py.Raise (Py.SystemExit 1),
     set_errors_log
       (errors_log w ++
          ["Backup archive not found at: '" +++ source
           +++ "'. Please verify that the file exists and the path is correct"])
       w).
Proof.
  intros _ Hsrc Hstripped Hpw. unfold Decypherx.main.
  rewrite try_except_raise
    with (e := Py.SystemExit 1)
         (w' := set_errors_log
                  (errors_log w ++
                     ["Backup archive not found at: '" +++ source
                      +++ "'. Please verify that the file exists and the path is correct"])
                  w); [reflexivity|].
  assert (Hpassword :
    (match password_path with
     | Some (String _ _ as password_path) =>
         Py.bind (Os.path_isfile password_path)
           (fun isfile =>
              if isfile then
                Py.bind (Decypherx.read_password password_path)
                  (fun password =>
                     Py.bind
                       (if (255 <=? PyStr.len password)%nat then
                          Py.bind
                            (Log.error
                               ("[SECURITY] The content of '" +++ password_path
                                +++ "' exceeds the safe length limit (>= 255 characters). Potential buffer overflow risk"))
                            (fun _ => Py.sys_exit 1)
                        else Py.ret tt)
                       (fun _ => Py.ret (Some password)))
              else Py.ret None)
     | _ => Py.ret None
     end) w = (Py.Ret (@None string), w)).
  { destruct password_path as [[|a p]|]; try reflexivity.
    rewrite (bind_ret _ _ _ _ _ (path_isfile_eval w _)). now rewrite Hpw. }
  rewrite (bind_ret _ _ _ _ _ Hpassword).
  rewrite (bind_ret _ _ _ _ _ (path_isfile_eval w _)).
  rewrite Hstripped, andb_false_r. cbv beta iota zeta.
  rewrite (bind_ret _ _ _ _ _ (path_isfile_eval w _)).
  rewrite Hsrc. cbn [negb]. rewrite orb_true_r.
  reflexivity.
Qed.



End RestoreErrors.

Lemma main_without_archive_witness :
  let L := Examples.toy_libraries in
  Decypherx.main "/srv/missing.zip" "/srv/out" None false false Examples.restore_world =
    (Py.Raise (Py.SystemExit 1),
     set_errors_log
       ["Backup archive not found at: '/srv/missing.zip'. Please verify that the file exists and the path is correct"]
       Examples.restore_world).
Proof.
  exact (@main_without_archive Examples.toy_libraries Examples.restore_world
           "/srv/missing.zip" "/srv/out" None false false eq_refl eq_refl eq_refl I).
Defined.




(* ===================================================================== *)
(** * How the library functions end                                       *)
(* ===================================================================== *)

Section Endings.
Context {L : Libraries}.
Import PosixPath.

(** A [try] block that raises nothing but an [Exception] or
    [SystemExit(1)], under a handler of [Exception] that ends with
    [sys.exit(1)], returns or ends with [SystemExit(1)]. *)
Lemma guarded_run {W A} (body : Py.M W A) (handler : Py.exn -> Py.M W A) w :
  (forall e, fst (body w) = Py.Raise e -> extraction_error e) ->
  (forall e w', fst (handler e w') = Py.Raise (Py.SystemExit 1)) ->
  (exists a, fst (Py.try_except body Py.is_Exception handler w) = Py.Ret a) \/
  fst (Py.try_except body Py.is_Exception handler w) = Py.Raise (Py.SystemExit 1).
Proof.
  intros Hbody Hhandler. unfold Py.try_except.
  destruct (body w) as [[a|e] w'] eqn:E; cbn [fst] in *.
  - left. now exists a.
  - right. destruct (Hbody e eq_refl) as [He| ->].
    + rewrite He. apply Hhandler.
    + reflexivity.
Qed.

Lemma linked_read_bytes_raises path w e :
  fst (Linked.Os.read_bytes path w) = Py.Raise e -> Py.is_Exception e = true.
Proof.
  unfold Linked.Os.read_bytes, Py.bind, Py.get, Linked.Os.os_error, Py.raise, Py.ret.
  destruct (Linked.Os.locate true w path) as [p|p rest|p target rest|err];
    try (cbn [fst]; now intros [= <-]).
  destruct (Linked.lookup p _) as [[?|?|?]|]; cbn [fst];
    try discriminate; now intros [= <-].
Qed.

Lemma linked_read_bytes_world path w :
  snd (Linked.Os.read_bytes path w) = w.
Proof.
  unfold Linked.Os.read_bytes, Py.bind, Py.get, Linked.Os.os_error, Py.raise, Py.ret.
  destruct (Linked.Os.locate true w path) as [p|p rest|p target rest|err];
    try reflexivity.
  destruct (Linked.lookup p _) as [[?|?|?]|]; reflexivity.
Qed.

(** The extraction of a ZIP archive lets no exception out but
    [SystemExit(1)]: whatever the archive, the destination and the file
    system, symbolic links included, [extract_zip_aes] returns or ends
    the run with exit status 1. *)
Theorem extraction_returns_or_exits w archive_name destination password :
  isabs (Linked.cwd w) = true ->
  let r := Linked.ExtractZip.extract_zip_aes archive_name destination password w in
  fst r = Py.Ret tt \/ fst r = Py.Raise (Py.SystemExit 1).
Proof.
  intros Habs r. subst r. unfold Linked.ExtractZip.extract_zip_aes.
  match goal with
  | |- context [Py.try_except ?b _ ?h w] =>
      destruct (guarded_run b h w) as [[[] Hret]|Hexit]
  end.
  - intros e. unfold Py.bind at 1. unfold Linked.ExtractZip.open_zip at 1.
    unfold Py.bind at 1.
    pose proof (linked_read_bytes_raises archive_name w) as Hr.
    pose proof (linked_read_bytes_world archive_name w) as Hw.
    destruct (Linked.Os.read_bytes archive_name w) as [[data|e'] w1];
      cbn [fst snd] in *; [|intros [= <-]; left; now apply Hr].
    subst w1.
    destruct (zip_read data) as [a|]; [|intros [= <-]; now left].
    unfold Py.ret at 1. unfold Py.bind at 1.
    destruct (linked_extract_members_keep_cwd a destination password
                (Zip.namelist a) w Habs) as [_ Herr].
    destruct (Py.for_each _ _ w) as [[[]|e'] w2]; cbn [fst] in *.
    + discriminate.
    + intros [= <-]. now apply Herr.
  - intros e w'. reflexivity.
  - now left.
  - now right.
Qed.
End Endings.

Lemma extraction_returns_or_exits_witness :
  let L := Examples.toy_libraries in
  let r := Linked.ExtractZip.extract_zip_aes "in.zip" "out" None
             Examples.linked_restore_world in
  fst r = Py.Ret tt \/ fst r = Py.Raise (Py.SystemExit 1).
Proof.
  exact (@extraction_returns_or_exits Examples.toy_libraries
           Examples.linked_restore_world "in.zip" "out" None eq_refl).
Defined.
